(** * Hive account faucet: request pipeline, quota ledger and recovery store

    A shallow embedding of [backend/services/blockchain-monitor.js],
    [backend/services/user-manager.js] and [backend/services/email-service.js].

    Conventions of the embedding.
    - JavaScript numbers that hold token counts and block heights are
      integers produced by [parseInt] or by [+= 1]; they are modelled in [Z].
      Token counts come from the command line and from a file, so their
      arithmetic is that of IEEE 754 doubles: a sum or difference is rounded
      by [to_double]. Block heights are those of the chain and are added up
      exactly.
    - A string is the sequence of bytes of its UTF-8 encoding.
    - A JSON file on disk is modelled by what reading and parsing it yields:
      it is missing, unreadable, rejected by [JSON.parse], or a document of
      the shape the owning module writes.
    - Every answer of the outside world (ledger RPC, mail transport, clock,
      random bytes, memo encryption) is an input of the function that asks
      for it, collected in the record [env].
    - Outbound calls that change the outside world are appended to an
      effect log, so that "nothing was broadcast" is a statement about it.
    - Console output is not modelled, nor is the [message] text in the
      answers of the quota ledger, which its callers only print.
    - A write to a file goes through, is refused and changes nothing, or
      fails in the middle and leaves the file cut short; which of the three
      is an input, recorded with the disk. *)

From stdpp Require Import base strings gmap list.
From Stdlib Require Import ZArith Lia.

#[local] Set Warnings "-register-all".
#[local] Open Scope string_scope.
#[local] Open Scope Z_scope.

(* ===================================================================== *)
(** * JavaScript values and strings                                        *)
(* ===================================================================== *)

Module Js.

(** What [JSON.parse] returns, together with [undefined] (the value of a
    property that is absent). Numbers are integers here. *)
Inductive jsval : Type :=
| VUndefined
| VNull
| VBool (b : bool)
| VNum (z : Z)
| VStr (s : string)
| VArr (l : list jsval)
| VObj (m : gmap string jsval).

(** An expression either yields a value or throws. *)
Inductive result (A : Type) : Type :=
| Ok (a : A)
| Throw (msg : string).
Arguments Ok {A} a.
Arguments Throw {A} msg.

(** Sequencing, with stdpp's notation [x ← e; k]: a throw skips the rest. *)
#[global] Instance result_ret : MRet result := fun _ a => Ok a.
#[global] Instance result_bind : MBind result := fun _ _ f r =>
  match r with
  | Ok a => f a
  | Throw e => Throw e
  end.

(** ToBoolean. *)
Definition truthy (v : jsval) : bool :=
  match v with
  | VUndefined | VNull => false
  | VBool b => b
  | VNum z => negb (z =? 0)
  | VStr s => negb (String.eqb s "")
  | VArr _ | VObj _ => true
  end.

(** [v === 'literal'] *)
Definition strict_eq_str (v : jsval) (lit : string) : bool :=
  match v with
  | VStr s => String.eqb s lit
  | _ => false
  end.

(** [v.key] for a key that no built-in prototype defines: reading a
    property of [undefined] or [null] throws a TypeError, a primitive or an
    array has no such property, an object has it when the key is bound. *)
Definition get_prop (v : jsval) (key : string) : result jsval :=
  match v with
  | VUndefined | VNull => Throw "TypeError: Cannot read properties"
  | VObj m => Ok (default VUndefined (m !! key))
  | _ => Ok VUndefined
  end.

(** [a !== b] where [a] was parsed from a file and [b] lives in memory:
    primitives compare by value, arrays and objects are distinct
    references. *)
Definition strict_neq (a b : jsval) : bool :=
  match a, b with
  | VUndefined, VUndefined | VNull, VNull => false
  | VBool x, VBool y => negb (Bool.eqb x y)
  | VNum x, VNum y => negb (x =? y)
  | VStr x, VStr y => negb (String.eqb x y)
  | _, _ => true
  end.

(** [String.prototype.startsWith], on the list of characters. *)
Fixpoint starts_with (needle hay : string) : bool :=
  match needle, hay with
  | EmptyString, _ => true
  | String a n', String b h' => if Ascii.eqb a b then starts_with n' h' else false
  | String _ _, EmptyString => false
  end.

(** [hay.includes(needle)]: some suffix of [hay] starts with [needle]. *)
Fixpoint includes (hay needle : string) : bool :=
  if starts_with needle hay then true
  else match hay with
       | EmptyString => false
       | String _ h' => includes h' needle
       end.

(** The string of the given bytes. *)
Definition bytes_of (l : list Z) : string :=
  fold_right (fun n s => String (Ascii.ascii_of_N (Z.to_N n)) s) EmptyString l.

(** What [String.prototype.trim] removes at both ends: the WhiteSpace and
    LineTerminator code points of ECMAScript, each in its UTF-8 encoding. *)
Definition white_space : list string :=
  [ bytes_of [9];              (* U+0009 tab *)
    bytes_of [10];             (* U+000A line feed *)
    bytes_of [11];             (* U+000B vertical tab *)
    bytes_of [12];             (* U+000C form feed *)
    bytes_of [13];             (* U+000D carriage return *)
    bytes_of [32];             (* U+0020 space *)
    bytes_of [194; 160];       (* U+00A0 no-break space *)
    bytes_of [225; 154; 128];  (* U+1680 *)
    bytes_of [226; 128; 128];  (* U+2000 *)
    bytes_of [226; 128; 129];  (* U+2001 *)
    bytes_of [226; 128; 130];  (* U+2002 *)
    bytes_of [226; 128; 131];  (* U+2003 *)
    bytes_of [226; 128; 132];  (* U+2004 *)
    bytes_of [226; 128; 133];  (* U+2005 *)
    bytes_of [226; 128; 134];  (* U+2006 *)
    bytes_of [226; 128; 135];  (* U+2007 *)
    bytes_of [226; 128; 136];  (* U+2008 *)
    bytes_of [226; 128; 137];  (* U+2009 *)
    bytes_of [226; 128; 138];  (* U+200A *)
    bytes_of [226; 128; 168];  (* U+2028 line separator *)
    bytes_of [226; 128; 169];  (* U+2029 paragraph separator *)
    bytes_of [226; 128; 175];  (* U+202F *)
    bytes_of [226; 129; 159];  (* U+205F *)
    bytes_of [227; 128; 128];  (* U+3000 *)
    bytes_of [239; 187; 191]   (* U+FEFF *) ].

(** [s] without its prefix [p], when it starts with [p]. *)
Fixpoint drop_prefix (p s : string) : option string :=
  match p, s with
  | EmptyString, _ => Some s
  | String a p', String b s' => if Ascii.eqb a b then drop_prefix p' s' else None
  | String _ _, EmptyString => None
  end.

(** [s] without the first of [patterns] it starts with. *)
Definition drop_first (patterns : list string) (s : string) : option string :=
  fold_right (fun p rest =>
                match drop_prefix p s with
                | Some t => Some t
                | None => rest
                end) None patterns.

(** Leading [patterns] removed one after the other; every removal takes
    at least one byte, so the length of the string is fuel enough. *)
Fixpoint strip (patterns : list string) (fuel : nat) (s : string) : string :=
  match fuel with
  | O => s
  | S fuel' =>
      match drop_first patterns s with
      | Some t => strip patterns fuel' t
      | None => s
      end
  end.

Fixpoint reverse_onto (s acc : string) : string :=
  match s with
  | EmptyString => acc
  | String c s' => reverse_onto s' (String c acc)
  end.

Definition reverse (s : string) : string := reverse_onto s EmptyString.

Definition trim_start (s : string) : string := strip white_space (String.length s) s.

(** The end is trimmed on the reversed string, the patterns reversed. *)
Definition trim_end (s : string) : string :=
  reverse (strip (reverse <$> white_space) (String.length s) (reverse s)).

Definition trim (s : string) : string := trim_end (trim_start s).

(** Truthiness of a string. *)
Definition nonempty (s : string) : bool := negb (String.eqb s "").

(** The double nearest to the integer [n], ties going to the even
    significand: what [+] and [-] return when the exact result is [n].
    Every integer up to 2^53 in magnitude is a double; from there on the
    doubles are the multiples of 2, then of 4, and so on. (An exact result
    of magnitude 2^1024 or more, where the code gets [Infinity], is outside
    the model.) *)
Definition to_double (n : Z) : Z :=
  let a := Z.abs n in
  if a <? 2 ^ 53 then n
  else
    let e := Z.log2 a - 52 in
    let q := a / 2 ^ e in
    let r := a mod 2 ^ e in
    let half := 2 ^ (e - 1) in
    let q' := if r <? half then q
              else if half <? r then q + 1
              else if Z.even q then q else q + 1 in
    Z.sgn n * (q' * 2 ^ e).

(** [x + y] and [x - y] on numbers that hold integers. *)
Definition js_add (x y : Z) : Z := to_double (x + y).
Definition js_sub (x y : Z) : Z := to_double (x - y).

(** The property names that every object created by [JSON.parse] or by an
    object literal inherits from [Object.prototype]: [o[key]] is a function
    (for [__proto__]: the prototype object) when [o] has no property of its
    own under such a key. *)
Definition object_prototype_keys : list string :=
  [ "constructor"; "__defineGetter__"; "__defineSetter__"; "hasOwnProperty";
    "__lookupGetter__"; "__lookupSetter__"; "isPrototypeOf";
    "propertyIsEnumerable"; "toString"; "valueOf"; "__proto__"; "toLocaleString" ].

End Js.
Export Js.

(* ===================================================================== *)
(** * The data directory                                                   *)
(* ===================================================================== *)

(** One requester of [authorized_users.json]. *)
Record user : Type := mkUser {
  tokens_allocated : Z;
  tokens_used : Z;
  tokens_remaining : Z;
  email : option string;
  created_at : string;
  last_used : option string;
  is_active : bool;
  notes : string
}.

(** The aggregate block. [total_tokens_allocated] is [None] when the file
    holds [null] there, which is what [JSON.stringify] writes for [NaN]. *)
Record metadata_block : Type := mkMetadata {
  md_created_at : string;
  last_updated : string;
  total_users : Z;
  total_tokens_allocated : option Z;
  total_tokens_used : Z
}.

(** The whole quota ledger document. *)
Record data : Type := mkData {
  authorized_users : gmap string user;
  metadata : metadata_block
}.

(** One entry of [pending_credentials.json]. The user name is whatever the
    request carried in [data.requested_username]. *)
Record pending_record : Type := mkPending {
  username : jsval;
  p_created_at : string;
  requester : option string;
  masterPassword : string;
  ownerKey : string;
  activeKey : string;
  postingKey : string;
  memoKey : string;
  transactionId : string
}.

(** [{ pending: ... }]; [None] when the document has no [pending] key. *)
Record pending_doc : Type := mkPendingDoc { pending : option (list pending_record) }.

(** [{ lastProcessedBlock, savedAt }] *)
Record last_block_doc : Type := mkLastBlockDoc {
  doc_lastProcessedBlock : Z;
  savedAt : string
}.

(** What reading and parsing a file yields. [Garbage] is text that
    [JSON.parse] rejects; a file cut short in the middle of a write is of
    this kind, since a proper prefix of [JSON.stringify] of an object never
    closes its first brace. *)
Inductive file (A : Type) : Type :=
| Missing
| Unreadable
| Garbage
| Doc (a : A).
Arguments Missing {A}.
Arguments Unreadable {A}.
Arguments Garbage {A}.
Arguments Doc {A} a.

Inductive path : Type := RecoveryFile | DataFile | LastBlockFile | LastBlockTmp.

#[global] Instance path_eq_dec : EqDecision path.
Proof. solve_decision. Defined.

(** How a call on a path fails. [fs.writeFileSync] opens its target, which
    empties it, and then writes: it throws either at the opening, nothing
    being changed (no permission, read-only file system), or in the middle
    of the writing, the target being left cut short (no space). *)
Inductive fault : Type :=
| Refused (p : path)
| CutShort (p : path).

#[global] Instance fault_eq_dec : EqDecision fault.
Proof. solve_decision. Defined.

(** The files under [backend/data], and the faults that calls on them
    meet. *)
Record disk : Type := mkDisk {
  recoveryFile : file pending_doc;
  dataFile : file data;
  lastBlockFile : file last_block_doc;
  lastBlockTmp : file last_block_doc;
  faults : list fault
}.

(** A call on [p] goes through. *)
Definition writable (p : path) (k : disk) : bool :=
  negb (bool_decide (Refused p ∈ faults k)) && negb (bool_decide (CutShort p ∈ faults k)).
#[global] Arguments writable : simpl never.

(** The calls of the source that change a file. *)
Inductive syscall : Type :=
| WriteRecovery (d : pending_doc)      (* fs.writeFileSync(this.recoveryFile, ..) *)
| WriteData (d : data)                 (* fs.writeFileSync(this.dataFile, ..) *)
| WriteLastBlockTmp (d : last_block_doc) (* fs.writeFileSync(tmp, payload) *)
| RenameTmpLastBlock.                  (* fs.renameSync(tmp, this.lastBlockFile) *)

Definition target (c : syscall) : path :=
  match c with
  | WriteRecovery _ => RecoveryFile
  | WriteData _ => DataFile
  | WriteLastBlockTmp _ => LastBlockTmp
  | RenameTmpLastBlock => LastBlockFile
  end.

(** The disk on which a call was interrupted after it had opened its
    target, because the process died or because the writing failed:
    [writeFileSync] has emptied its target and written a proper prefix of
    the new text at most; [renameSync] is atomic, the disk is as before the
    call (or as after it, which [sys_exec] gives). Where the call is
    refused at the opening, the disk is as it was. *)
Definition sys_torn (c : syscall) (k : disk) : disk :=
  if bool_decide (Refused (target c) ∈ faults k) then k
  else
    match c with
    | WriteRecovery _ =>
        mkDisk Garbage (dataFile k) (lastBlockFile k) (lastBlockTmp k) (faults k)
    | WriteData _ =>
        mkDisk (recoveryFile k) Garbage (lastBlockFile k) (lastBlockTmp k) (faults k)
    | WriteLastBlockTmp _ =>
        mkDisk (recoveryFile k) (dataFile k) (lastBlockFile k) Garbage (faults k)
    | RenameTmpLastBlock => k
    end.

(** A call either returns or throws, and leaves a disk in both cases. *)
Inductive outcome : Type :=
| Returned (k : disk)
| Thrown (k : disk).

Definition disk_of (o : outcome) : disk :=
  match o with
  | Returned k | Thrown k => k
  end.

(** One call. A write that meets a fault throws and leaves the disk of
    [sys_torn]; a rename throws when it meets a fault or when there is
    nothing to rename, and changes nothing then. *)
Definition sys_exec (c : syscall) (k : disk) : outcome :=
  if writable (target c) k then
    match c with
    | WriteRecovery d =>
        Returned (mkDisk (Doc d) (dataFile k) (lastBlockFile k) (lastBlockTmp k) (faults k))
    | WriteData d =>
        Returned (mkDisk (recoveryFile k) (Doc d) (lastBlockFile k) (lastBlockTmp k) (faults k))
    | WriteLastBlockTmp d =>
        Returned (mkDisk (recoveryFile k) (dataFile k) (lastBlockFile k) (Doc d) (faults k))
    | RenameTmpLastBlock =>
        match lastBlockTmp k with
        | Missing => Thrown k
        | f => Returned (mkDisk (recoveryFile k) (dataFile k) f Missing (faults k))
        end
    end
  else Thrown (sys_torn c k).

(** Calls in sequence; the first one that throws ends the sequence. *)
Fixpoint sys_run (cs : list syscall) (k : disk) : outcome :=
  match cs with
  | [] => Returned k
  | c :: cs' =>
      match sys_exec c k with
      | Returned k' => sys_run cs' k'
      | Thrown k' => Thrown k'
      end
  end.

(** Every disk a restart can find when the process dies somewhere in the
    sequence: before a call, in the middle of it, after the last one, or
    after the one that threw. *)
Fixpoint crash_states (cs : list syscall) (k : disk) : list disk :=
  match cs with
  | [] => [k]
  | c :: cs' =>
      k :: sys_torn c k ::
      match sys_exec c k with
      | Returned k' => crash_states cs' k'
      | Thrown k' => [k']
      end
  end.

(* ===================================================================== *)
(** * Quota ledger: [user-manager.js]                                      *)
(* ===================================================================== *)

Module UserManager.

(** [loadData()]: the parsed document, or [null] when reading or parsing
    throws. *)
Definition loadData (k : disk) : option data :=
  match dataFile k with
  | Doc d => Some d
  | Missing | Unreadable | Garbage => None
  end.

Definition stamp (now : string) (d : data) : data :=
  mkData (authorized_users d)
         (mkMetadata (md_created_at (metadata d)) now (total_users (metadata d))
                     (total_tokens_allocated (metadata d)) (total_tokens_used (metadata d))).

(** [saveData(data)]: stamps [metadata.last_updated], writes the whole
    document, answers whether the write went through. A write that throws
    is caught; it may have cut the file short. *)
Definition saveData (now : string) (d : data) (k : disk) : bool * disk :=
  match sys_run [WriteData (stamp now d)] k with
  | Returned k' => (true, k')
  | Thrown k' => (false, k')
  end.

(** What [data.authorized_users[username]] finds: the record the ledger
    holds under that name, or, for a name the ledger does not hold, what the
    object inherits under it, or nothing. *)
Inductive found : Type :=
| Own (u : user)
| Inherited
| Absent.

Definition lookup_user (d : data) (name : string) : found :=
  match authorized_users d !! name with
  | Some u => Own u
  | None => if bool_decide (name ∈ object_prototype_keys) then Inherited else Absent
  end.

(** [total + x] where [total] may be [null], which counts as 0. *)
Definition total_add (total : option Z) (x : Z) : option Z :=
  Some (js_add (default 0 total) x).

(** The object [checkAuthorization] returns; a field that the returned
    object lacks is [None]. *)
Record authCheck : Type := mkAuthCheck {
  authorized : bool;
  reason : option string;
  ac_tokens_remaining : option Z;
  ac_tokens_used : option Z;
  ac_tokens_allocated : option Z;
  user_info : option user
}.

Definition denied (why : string) : authCheck :=
  mkAuthCheck false (Some why) None None None None.

(** [checkAuthorization(username)]. An inherited function or object is
    truthy and has no [is_active]. *)
Definition checkAuthorization (name : string) (k : disk) : authCheck :=
  match loadData k with
  | None => denied "Database error"
  | Some d =>
      match lookup_user d name with
      | Absent => denied "User not found in authorized list"
      | Inherited => denied "User account is deactivated"
      | Own u =>
          if negb (is_active u) then denied "User account is deactivated"
          else if tokens_remaining u <=? 0 then
            mkAuthCheck false (Some "No tokens remaining") None
                        (Some (tokens_used u)) (Some (tokens_allocated u)) None
          else
            mkAuthCheck true None (Some (tokens_remaining u)) (Some (tokens_used u))
                        (Some (tokens_allocated u)) (Some u)
      end
  end.

Definition set_total_tokens_used (v : Z) (m : metadata_block) : metadata_block :=
  mkMetadata (md_created_at m) (last_updated m) (total_users m)
             (total_tokens_allocated m) v.

Definition set_total_tokens_allocated (v : option Z) (m : metadata_block) : metadata_block :=
  mkMetadata (md_created_at m) (last_updated m) (total_users m)
             v (total_tokens_used m).

(** [useToken(username)]. On an inherited function or object,
    [tokens_remaining] is [undefined] and [undefined <= 0] is false: the
    three assignments go to that built-in object, which is no part of the
    document, and the total in the metadata is raised and saved. (The
    built-in objects are those of a process in which nothing has assigned
    to them: [admin.js] runs one command in a process of its own, and the
    monitor calls [useToken] only for a name that [checkAuthorization] has
    granted.) *)
Definition useToken (now : string) (name : string) (k : disk) : bool * disk :=
  match loadData k with
  | None => (false, k)
  | Some d =>
      match lookup_user d name with
      | Absent => (false, k)
      | Inherited =>
          saveData now
            (mkData (authorized_users d)
                    (set_total_tokens_used (js_add (total_tokens_used (metadata d)) 1)
                                           (metadata d)))
            k
      | Own u =>
          if tokens_remaining u <=? 0 then (false, k)
          else
            let u' := mkUser (tokens_allocated u) (js_add (tokens_used u) 1)
                             (js_sub (tokens_remaining u) 1) (email u) (created_at u)
                             (Some now) (is_active u) (notes u) in
            saveData now
              (mkData (<[name := u']> (authorized_users d))
                      (set_total_tokens_used (js_add (total_tokens_used (metadata d)) 1)
                                             (metadata d)))
              k
      end
  end.

(** [addUser(username, tokens, email, notes)]. The answer is [None] for the
    bare [false] returned when the ledger cannot be loaded, [Some success]
    for the [success] of the object returned otherwise; its [message] is
    left out. A name under which the object inherits something counts as
    taken. *)
Definition addUser (now : string) (name : string) (tokens : Z)
    (mail : option string) (note : string) (k : disk) : option bool * disk :=
  match loadData k with
  | None => (None, k)
  | Some d =>
      match lookup_user d name with
      | Own _ | Inherited => (Some false, k)
      | Absent =>
          let u := mkUser tokens 0 tokens mail now None true note in
          let m := metadata d in
          let m' := mkMetadata (md_created_at m) (last_updated m)
                               (js_add (total_users m) 1)
                               (total_add (total_tokens_allocated m) tokens)
                               (total_tokens_used m) in
          let '(saved, k') := saveData now (mkData (<[name := u]> (authorized_users d)) m') k in
          (Some saved, k')
      end
  end.

(** [giveTokens(username, additionalTokens)]; the answer is the [success]
    of the object returned, whose [message] is left out. On an inherited
    function or object the two sums are assigned to that built-in object,
    and the total in the metadata is raised and saved. *)
Definition giveTokens (now : string) (name : string) (additionalTokens : Z)
    (k : disk) : bool * disk :=
  match loadData k with
  | None => (false, k)
  | Some d =>
      match lookup_user d name with
      | Absent => (false, k)
      | Inherited =>
          saveData now
            (mkData (authorized_users d)
                    (set_total_tokens_allocated
                       (total_add (total_tokens_allocated (metadata d)) additionalTokens)
                       (metadata d)))
            k
      | Own u =>
          let u' := mkUser (js_add (tokens_allocated u) additionalTokens) (tokens_used u)
                           (js_add (tokens_remaining u) additionalTokens) (email u)
                           (created_at u) (last_used u) (is_active u) (notes u) in
          saveData now
            (mkData (<[name := u']> (authorized_users d))
                    (set_total_tokens_allocated
                       (total_add (total_tokens_allocated (metadata d)) additionalTokens)
                       (metadata d)))
            k
      end
  end.

(** [setTokens(username, newTotal)]; the answer is the [success] of the
    object returned, whose [message] is left out. On an inherited function
    or object [tokens_allocated] is [undefined], the difference is [NaN] and
    so is the total, which is saved as [null]. *)
Definition setTokens (now : string) (name : string) (newTotal : Z)
    (k : disk) : bool * disk :=
  match loadData k with
  | None => (false, k)
  | Some d =>
      match lookup_user d name with
      | Absent => (false, k)
      | Inherited =>
          saveData now
            (mkData (authorized_users d) (set_total_tokens_allocated None (metadata d)))
            k
      | Own u =>
          let difference := js_sub newTotal (tokens_allocated u) in
          let u' := mkUser newTotal (tokens_used u) (js_sub newTotal (tokens_used u))
                           (email u) (created_at u) (last_used u) (is_active u)
                           (notes u) in
          saveData now
            (mkData (<[name := u']> (authorized_users d))
                    (set_total_tokens_allocated
                       (total_add (total_tokens_allocated (metadata d)) difference)
                       (metadata d)))
            k
      end
  end.

(** [getUser(username)]; [Absent] stands for [null]. *)
Definition getUser (name : string) (k : disk) : found :=
  match loadData k with
  | None => Absent
  | Some d => lookup_user d name
  end.

(** The operations that change token counts, as one type, so that a
    property of "every Quota Ledger mutation" is a property of [mutate]. *)
Inductive mutation : Type :=
| UseToken (name : string)
| AddUser (name : string) (tokens : Z) (mail : option string) (note : string)
| GiveTokens (name : string) (additionalTokens : Z)
| SetTokens (name : string) (newTotal : Z).

Definition mutate (now : string) (m : mutation) (k : disk) : disk :=
  match m with
  | UseToken name => snd (useToken now name k)
  | AddUser name tokens mail note => snd (addUser now name tokens mail note k)
  | GiveTokens name a => snd (giveTokens now name a k)
  | SetTokens name t => snd (setTokens now name t k)
  end.

(** [tokens_used + tokens_remaining == tokens_allocated] *)
Definition balanced (u : user) : Prop :=
  tokens_used u + tokens_remaining u = tokens_allocated u.

(** [setUserStatus(username, isActive)]; the answer is the [success] of
    the object returned, whose [message] is left out. On an inherited
    function or object the flag is assigned to that built-in object, and the
    document is saved as it was loaded. *)
Definition setUserStatus (now : string) (name : string) (isActive : bool)
    (k : disk) : bool * disk :=
  match loadData k with
  | None => (false, k)
  | Some d =>
      match lookup_user d name with
      | Absent => (false, k)
      | Inherited => saveData now d k
      | Own u =>
          let u' := mkUser (tokens_allocated u) (tokens_used u) (tokens_remaining u)
                           (email u) (created_at u) (last_used u) isActive (notes u) in
          saveData now (mkData (<[name := u']> (authorized_users d)) (metadata d)) k
      end
  end.

(** [getAllUsers()] *)
Definition getAllUsers (k : disk) : option data := loadData k.

(** [ensureDataFile()], the data directory being there: a missing ledger
    is created empty, anything else is left alone. *)
Definition ensureDataFile (now : string) (k : disk) : disk :=
  match dataFile k with
  | Missing => snd (saveData now (mkData ∅ (mkMetadata now now 0 (Some 0) 0)) k)
  | Unreadable | Garbage | Doc _ => k
  end.

End UserManager.

(* ===================================================================== *)
(** * The monitor: [blockchain-monitor.js] and [email-service.js]          *)
(* ===================================================================== *)

Module Monitor.
Import UserManager.

(** ** Configuration and outside world *)

(** Fields the constructors set from the process environment. *)
Record config : Type := mkConfig {
  creatingAccount : option string;     (* CREATING_ACCOUNT_USERNAME *)
  creatingActiveKey : option string;   (* CREATING_ACCOUNT_ACTIVE_KEY *)
  creatingMemoKey : option string;     (* CREATING_ACCOUNT_MEMO_KEY *)
  blockSaveInterval : Z;               (* parseInt(BLOCK_SAVE_INTERVAL) || 20, never 0 *)
  isConfigured : bool                  (* EmailService.isConfigured *)
}.

(** [accountData], the credential handed to the delivery channels. *)
Record accountData : Type := mkAccountData {
  ad_username : jsval;
  ad_masterPassword : string;
  ad_ownerKey : string;
  ad_activeKey : string;
  ad_postingKey : string;
  ad_memoKey : string;
  ad_transactionId : string;
  ad_requester : option string
}.

(** Outbound calls, in the order they are made. *)
Inductive effect : Type :=
| GetBlock (height : Z)
| SendOperations (creator : option string) (new_account_name : jsval)
                 (ownerPublic activePublic postingPublic memoPublic : string)
| SendMail (to : string) (a : accountData)
| Transfer (from to : option string) (amount : string) (memo : string)
| Sleep (ms : Z).

(** The answers of the outside world during one request. A rejected
    promise or an error handed to a callback is [Throw]. *)
Record env : Type := mkEnv {
  now : string;                            (* new Date().toISOString() *)
  randomBytes : list Z;                    (* crypto.randomBytes(32) *)
  fromSeed : string -> string;             (* PrivateKey.fromSeed(seed).toString() *)
  createPublic : string -> string;         (* public key text of a private key text *)
  getAccounts_new : result nat;            (* accounts.length for the requested name *)
  fromString_ok : bool;                    (* PrivateKey.fromString(creatorActiveKey) returns *)
  sendOperations : result string;          (* result.id *)
  sendMail : result string;                (* result.messageId *)
  getAccounts_faucet : result (option Z);  (* the faucet's HBD balance in 1/1000, None when not found *)
  getAccounts_recipient : result (list string); (* memo_key of each account found *)
  memo_encode : option string -> string -> string -> result string; (* hive.memo.encode *)
  transfer : result (string * Z)           (* transferResult.id, .block_num *)
}.

(** Files and effect log. *)
Record world : Type := mkWorld {
  files : disk;
  effects : list effect
}.

Definition emit (e : effect) (w : world) : world := mkWorld (files w) (effects w ++ [e]).
Definition on_disk (f : disk -> disk) (w : world) : world := mkWorld (f (files w)) (effects w).

(** ** Strings built by template literals *)

Definition nl : string := String (Ascii.ascii_of_nat 10) EmptyString.

Definition digit (n : nat) : string := String (Ascii.ascii_of_nat (48 + n)) EmptyString.

(** Decimal digits of a natural number; the fuel bounds the number of digits. *)
Fixpoint digits (fuel n : nat) : string :=
  match fuel with
  | O => EmptyString
  | S fuel' =>
      if (n <? 10)%nat then digit n
      else digits fuel' (n / 10) +:+ digit (n mod 10)
  end.

Definition number_to_string (z : Z) : string :=
  let n := Z.to_nat (Z.abs z) in
  (if z <? 0 then "-" else "") +:+ digits (S n) n.

(** ToString of a parsed JSON value, as a template literal or
    [String.prototype.includes] applies it. *)
Fixpoint to_string (v : jsval) : string :=
  match v with
  | VUndefined => "undefined"
  | VNull => "null"
  | VBool b => if b then "true" else "false"
  | VNum z => number_to_string z
  | VStr s => s
  | VArr l =>
      (fix join (xs : list jsval) : string :=
         match xs with
         | [] => EmptyString
         | x :: xs' =>
             let sx := match x with
                       | VUndefined | VNull => EmptyString
                       | _ => to_string x
                       end in
             match xs' with
             | [] => sx
             | _ => sx +:+ "," +:+ join xs'
             end
         end) l
  | VObj _ => "[object Object]"
  end.

(** A property key or a template hole filled with a value that may be
    [undefined]. *)
Definition str (o : option string) : string := default "undefined" o.

(** [!!s] for a string that may be [undefined] or [null]. *)
Definition is_set (o : option string) : bool :=
  match o with
  | Some s => nonempty s
  | None => false
  end.

(** ** Recovery store *)

(** [loadPending()] *)
Definition loadPending (k : disk) : list pending_record :=
  match recoveryFile k with
  | Doc d => default [] (pending d)
  | Missing | Unreadable | Garbage => []
  end.

(** The file-system calls of [savePending(list)]. *)
Definition savePending_calls (l : list pending_record) : list syscall :=
  [WriteRecovery (mkPendingDoc (Some l))].

(** [savePending(list)]; a write that throws is caught and reported, and
    the caller goes on with the disk that the write left. *)
Definition savePending (l : list pending_record) (k : disk) : disk :=
  disk_of (sys_run (savePending_calls l) k).

(** [addPending(record)] *)
Definition addPending (r : pending_record) (k : disk) : disk :=
  savePending (loadPending k ++ [r]) k.

(** [removePending(username)] *)
Definition removePending (name : jsval) (k : disk) : disk :=
  savePending (filter (fun r => strict_neq (username r) name = true) (loadPending k)) k.

(** ** Cursor store *)

(** Fields of the monitor object that change while it runs. *)
Record monitor : Type := mkMonitor {
  isRunning : bool;
  lastProcessedBlock : Z;
  _lastSavedBlock : option Z
}.

(** [loadLastBlock()] *)
Definition loadLastBlock (m : monitor) (k : disk) : monitor :=
  match lastBlockFile k with
  | Doc d => mkMonitor (isRunning m) (doc_lastProcessedBlock d) (_lastSavedBlock m)
  | Missing | Unreadable | Garbage => m
  end.

(** The file-system calls of [saveLastBlock] once it decides to save. *)
Definition saveLastBlock_calls (height : Z) (stamp : string) : list syscall :=
  [WriteLastBlockTmp (mkLastBlockDoc height stamp); RenameTmpLastBlock].

(** [saveLastBlock(force)] *)
Definition saveLastBlock (stamp : string) (force : bool) (m : monitor) (k : disk)
    : monitor * disk :=
  if lastProcessedBlock m <=? 0 then (m, k)
  else if negb force && bool_decide (_lastSavedBlock m = Some (lastProcessedBlock m))
  then (m, k)
  else
    match sys_run (saveLastBlock_calls (lastProcessedBlock m) stamp) k with
    | Returned k' => (mkMonitor (isRunning m) (lastProcessedBlock m)
                                (Some (lastProcessedBlock m)), k')
    | Thrown k' => (m, k')
    end.

(** ** Request validation *)

(** [validateRequest(data)]: the value of the [&&] chain, which is the
    first falsy operand or else the last operand. *)
Definition validateRequest (data : jsval) : result jsval :=
  app ← get_prop data "app";
  if negb (strict_eq_str app "hive_account_faucet") then Ok (VBool false) else
  version ← get_prop data "version";
  if negb (strict_eq_str version "1.0.0") then Ok (VBool false) else
  action ← get_prop data "action";
  if negb (strict_eq_str action "create_account_request") then Ok (VBool false) else
  d ← get_prop data "data";
  if negb (truthy d) then Ok d else
  requested_username ← get_prop d "requested_username";
  if negb (truthy requested_username) then Ok requested_username else
  get_prop d "delivery_method".

(** The branch [if (this.validateRequest(requestData))] takes; a throw
    leaves the [try] block, so the request is not processed. *)
Definition accepted (data : jsval) : bool :=
  match validateRequest data with
  | Ok v => truthy v
  | Throw _ => false
  end.

(** ** Key material *)

Definition base58Chars : string :=
  "123456789ABCDEFGHJKLMNPQRSTUVWXYZabcdefghijkmnopqrstuvwxyz".

(** [s[i]] *)
Definition char_at (s : string) (i : nat) : string :=
  match String.get i s with
  | Some c => String c EmptyString
  | None => "undefined"
  end.

(** [generateMasterPassword()], given the 32 random bytes. *)
Definition generateMasterPassword (bytes : list Z) : string :=
  fold_left
    (fun password i =>
       let randomIndex :=
         Z.rem (default 0 (bytes !! (i mod length bytes)%nat))
               (Z.of_nat (String.length base58Chars)) in
       password +:+ char_at base58Chars (Z.to_nat randomIndex))
    (seq 0 50) "P5".

Record keys : Type := mkKeys {
  k_masterPassword : string;
  k_ownerKey : string;
  k_activeKey : string;
  k_postingKey : string;
  k_memoKey : string;
  ownerPublic : string;
  activePublic : string;
  postingPublic : string;
  memoPublic : string
}.

(** [generateAccountKeys(username, masterPassword)] *)
Definition generateAccountKeys (e : env) (name : jsval) (password : string) : keys :=
  let owner := fromSeed e (to_string name +:+ "owner" +:+ password) in
  let active := fromSeed e (to_string name +:+ "active" +:+ password) in
  let posting := fromSeed e (to_string name +:+ "posting" +:+ password) in
  let memo := fromSeed e (to_string name +:+ "memo" +:+ password) in
  mkKeys password owner active posting memo
         (createPublic e owner) (createPublic e active)
         (createPublic e posting) (createPublic e memo).

(** ** Account creation *)

(** [checkUsernameAvailability(username)] *)
Definition checkUsernameAvailability (e : env) : bool :=
  match getAccounts_new e with
  | Ok n => (n =? 0)%nat
  | Throw _ => false
  end.

(** What [createHiveAccount] resolves to. *)
Record creation : Type := mkCreation {
  c_success : bool;
  c_transactionId : option string;
  c_error : option string
}.

(** [createHiveAccount(username, keys, creatorAccount, creatorActiveKey)]:
    the [try] block as a computation that may throw, then the [catch]. *)
Definition createHiveAccount_try (e : env) (name : jsval) (ks : keys)
    (creator : option string) (w : world) : result string * world :=
  if negb (checkUsernameAvailability e)
  then (Throw ("Username @" +:+ to_string name +:+ " is already taken"), w)
  else if negb (fromString_ok e) then (Throw "invalid private key", w)
  else
    (sendOperations e,
     emit (SendOperations creator name (ownerPublic ks) (activePublic ks)
                          (postingPublic ks) (memoPublic ks)) w).

Definition createHiveAccount (e : env) (name : jsval) (ks : keys)
    (creator : option string) (w : world) : creation * world :=
  match createHiveAccount_try e name ks creator w with
  | (Ok id, w') => (mkCreation true (Some id) None, w')
  | (Throw msg, w') => (mkCreation false None (Some msg), w')
  end.

(** ** Delivery channels *)

(** What a channel answers: [success] and, when present, [error]. *)
Record delivery : Type := mkDelivery {
  success : bool;
  error : option string
}.

(** [EmailService.sendAccountCredentials(userEmail, accountData)] *)
Definition sendAccountCredentials (c : config) (e : env) (userEmail : string)
    (a : accountData) (w : world) : delivery * world :=
  if isConfigured c then
    match sendMail e with
    | Ok _ => (mkDelivery true None, emit (SendMail userEmail a) w)
    | Throw msg => (mkDelivery false (Some msg), emit (SendMail userEmail a) w)
    end
  else (mkDelivery false None, w).

(** [checkHBDBalance(username)], in thousandths of HBD. *)
Definition checkHBDBalance (e : env) : Z :=
  match getAccounts_faucet e with
  | Ok (Some balance) => balance
  | Ok None => 0
  | Throw _ => 0
  end.

(** [canSendMemo(username)]: the minimum is 0.001 HBD. *)
Definition canSendMemo (e : env) : bool := 1 <=? checkHBDBalance e.

Definition memoMessage (a : accountData) : string :=
  "Account created: " +:+ to_string (ad_username a) +:+ nl +:+
  "Master Password: " +:+ ad_masterPassword a +:+ nl +:+ nl +:+
  "Import this to Keychain to access your account.".

(** The plain-text check of [sendAccountMemo] on the encoded memo. *)
Definition leaks (encryptedMemo : string) (a : accountData) : bool :=
  includes encryptedMemo (to_string (ad_username a))
  || includes encryptedMemo (ad_masterPassword a).

(** [sendAccountMemo(recipientUsername, accountData)] *)
Definition sendAccountMemo (c : config) (e : env) (recipientUsername : option string)
    (a : accountData) (w : world) : delivery * world :=
  match getAccounts_recipient e with
  | Throw msg => (mkDelivery false (Some msg), w)
  | Ok [] =>
      (mkDelivery false
         (Some ("Recipient account @" +:+ str recipientUsername +:+ " not found")), w)
  | Ok (recipientMemoKey :: _) =>
      match memo_encode e (creatingMemoKey c) recipientMemoKey ("#" +:+ memoMessage a) with
      | Throw msg => (mkDelivery false (Some msg), w)
      | Ok encryptedMemo =>
          if leaks encryptedMemo a
          then (mkDelivery false (Some "Memo encryption failed - security risk detected"), w)
          else
            let w' := emit (Transfer (creatingAccount c) recipientUsername
                                     "0.001 HBD" encryptedMemo) w in
            match transfer e with
            | Throw msg => (mkDelivery false (Some msg), w')
            | Ok _ => (mkDelivery true None, w')
            end
      end
  end.

(** ** One request *)

(** The request handed to [processAccountRequest]: the two fields it reads
    from [request.data], and what [processCustomJson] adds. *)
Record request : Type := mkRequest {
  requested_username : jsval;
  delivery_method : jsval;
  blockNumber : Z;
  rq_transactionId : string;
  rq_requester : option string
}.

Definition pending_of (e : env) (a : accountData) : pending_record :=
  mkPending (ad_username a) (now e) (ad_requester a) (ad_masterPassword a)
            (ad_ownerKey a) (ad_activeKey a) (ad_postingKey a) (ad_memoKey a)
            (ad_transactionId a).

Definition make_accountData (rq : request) (password : string) (ks : keys)
    (txid : option string) : accountData :=
  mkAccountData (requested_username rq) password (k_ownerKey ks) (k_activeKey ks)
                (k_postingKey ks) (k_memoKey ks) (str txid) (rq_requester rq).

(** [requesterEmail]: the registered address, or [null]. *)
Definition requesterEmail (ac : authCheck) : option string :=
  match user_info ac with
  | Some u => if is_set (email u) then email u else None
  | None => None
  end.

(** Step 3, the email channel. *)
Definition deliver_email (c : config) (e : env) (ac : authCheck) (a : accountData)
    (deliveryMethod : jsval) (w : world) : delivery * world :=
  if strict_eq_str deliveryMethod "email" || strict_eq_str deliveryMethod "both" then
    match requesterEmail ac with
    | Some addr =>
        if nonempty (trim addr) then sendAccountCredentials c e addr a w
        else (mkDelivery false (Some "No registered email"), w)
    | None => (mkDelivery false (Some "No registered email"), w)
    end
  else (mkDelivery false None, w).

(** Step 3, the memo channel. *)
Definition deliver_memo (c : config) (e : env) (rq : request) (a : accountData)
    (deliveryMethod : jsval) (w : world) : delivery * world :=
  if strict_eq_str deliveryMethod "hive_memo" || strict_eq_str deliveryMethod "both" then
    if negb (canSendMemo e)
    then (mkDelivery false (Some "Insufficient HBD for memo transfer"), w)
    else if negb (is_set (creatingMemoKey c))
    then (mkDelivery false (Some "Missing faucet memo key"), w)
    else sendAccountMemo c e (rq_requester rq) a w
  else (mkDelivery false None, w).

(** [overallSuccess] *)
Definition overallSuccess (deliveryMethod : jsval) (emailResult memoResult : delivery)
    : bool :=
  if strict_eq_str deliveryMethod "both"
  then success emailResult && success memoResult
  else success emailResult || success memoResult.

(** Steps 3 and 4: what follows [addPending]. *)
Definition deliver_and_settle (c : config) (e : env) (rq : request) (ac : authCheck)
    (a : accountData) (w : world) : world :=
  let deliveryMethod := delivery_method rq in
  let '(emailResult, w1) := deliver_email c e ac a deliveryMethod w in
  let '(memoResult, w2) := deliver_memo c e rq a deliveryMethod w1 in
  if overallSuccess deliveryMethod emailResult memoResult then
    let w3 := on_disk (fun k => snd (useToken (now e) (str (rq_requester rq)) k)) w2 in
    on_disk (removePending (ad_username a)) w3
  else w2.

(** What [processAccountRequest] computes on its way through all four
    steps: the authorization, the creation result, the credential and the
    answer of each channel. *)
Record run : Type := mkRun {
  r_auth : authCheck;
  r_creation : creation;
  r_account : accountData;
  r_email : delivery;
  r_memo : delivery
}.

Definition trace_of (c : config) (e : env) (rq : request) (w : world) : run :=
  let authCheck := checkAuthorization (str (rq_requester rq)) (files w) in
  let masterPassword := generateMasterPassword (randomBytes e) in
  let ks := generateAccountKeys e (requested_username rq) masterPassword in
  let '(accountCreationResult, w1) :=
    createHiveAccount e (requested_username rq) ks (creatingAccount c) w in
  let a := make_accountData rq masterPassword ks
             (c_transactionId accountCreationResult) in
  let w2 := on_disk (addPending (pending_of e a)) w1 in
  let '(emailResult, w3) := deliver_email c e authCheck a (delivery_method rq) w2 in
  let '(memoResult, _) := deliver_memo c e rq a (delivery_method rq) w3 in
  mkRun authCheck accountCreationResult a emailResult memoResult.

(** [processAccountRequest(request)] *)
Definition processAccountRequest (c : config) (e : env) (rq : request) (w : world)
    : world :=
  let authCheck := checkAuthorization (str (rq_requester rq)) (files w) in
  if negb (authorized authCheck) then w
  else
    let masterPassword := generateMasterPassword (randomBytes e) in
    let ks := generateAccountKeys e (requested_username rq) masterPassword in
    let '(accountCreationResult, w1) :=
      createHiveAccount e (requested_username rq) ks (creatingAccount c) w in
    if negb (c_success accountCreationResult) then w1
    else
      let a := make_accountData rq masterPassword ks
                 (c_transactionId accountCreationResult) in
      let w2 := on_disk (addPending (pending_of e a)) w1 in
      deliver_and_settle c e rq authCheck a w2.

(** ** Blocks *)

(** The payload of a [custom_json] operation. [json] is what
    [JSON.parse(operation.json)] yields, [None] when it throws. *)
Record custom_json : Type := mkCustomJson {
  id : string;
  json : option jsval;
  required_posting_auths : list string;
  required_auths : list string
}.

Inductive operation : Type :=
| CustomJson (payload : custom_json)   (* operation[0] === 'custom_json' *)
| OtherOperation (kind : string).

(** [operations] is [None] for a transaction without an iterable
    [operations] field; [transactions] is [None] when the field is absent. *)
Record transaction : Type := mkTransaction {
  transaction_id : string;
  operations : option (list operation)
}.

Record block : Type := mkBlock {
  transactions : option (list transaction)
}.

(** [a[0] || b[0]] *)
Definition first_auth (a b : list string) : option string :=
  match head a with
  | Some s => if nonempty s then Some s else head b
  | None => head b
  end.

(** The fields [processAccountRequest] reads from the spread request. *)
Definition request_of (requestData : jsval) (height : Z) (txid : string)
    (who : option string) : result request :=
  d ← get_prop requestData "data";
  name ← get_prop d "requested_username";
  method ← get_prop d "delivery_method";
  Ok (mkRequest name method height txid who).

(** [processCustomJson(operation, blockNumber, transactionId)]: the [try]
    block, then the [catch] that only reports. *)
Definition processCustomJson_try (c : config) (e : env) (op : custom_json)
    (height : Z) (txid : string) (w : world) : result world :=
  if negb (String.eqb (id op) "hive_account_faucet") then Ok w
  else
    match json op with
    | None => Throw "SyntaxError: JSON.parse"
    | Some requestData =>
        let who := first_auth (required_posting_auths op) (required_auths op) in
        valid ← validateRequest requestData;
        if truthy valid then
          rq ← request_of requestData height txid who;
          Ok (processAccountRequest c e rq w)
        else Ok w
    end.

Definition processCustomJson (c : config) (e : env) (op : custom_json)
    (height : Z) (txid : string) (w : world) : world :=
  match processCustomJson_try c e op height txid w with
  | Ok w' => w'
  | Throw _ => w
  end.

(** The inner loop of [processBlock]; [i] counts the operations of the
    transaction, and [answers i] is the outside world met by the [i]-th. *)
Fixpoint process_operations (c : config) (answers : nat -> env) (height : Z)
    (txid : string) (i : nat) (ops : list operation) (w : world) : world :=
  match ops with
  | [] => w
  | CustomJson payload :: ops' =>
      process_operations c answers height txid (S i) ops'
        (processCustomJson c (answers i) payload height txid w)
  | OtherOperation _ :: ops' =>
      process_operations c answers height txid (S i) ops' w
  end.

(** The outer loop of [processBlock]; iterating over missing [operations]
    throws and leaves the block half processed. *)
Fixpoint process_transactions (c : config) (answers : string -> nat -> env)
    (height : Z) (txs : list transaction) (w : world) : result unit * world :=
  match txs with
  | [] => (Ok (), w)
  | tx :: txs' =>
      match operations tx with
      | None => (Throw "TypeError: transaction.operations is not iterable", w)
      | Some ops =>
          process_transactions c answers height txs'
            (process_operations c (answers (transaction_id tx)) height
                                (transaction_id tx) 0 ops w)
      end
  end.

(** [processBlock(block, blockNumber)] *)
Definition processBlock (c : config) (answers : string -> nat -> env) (b : block)
    (height : Z) (w : world) : result unit * world :=
  match transactions b with
  | None | Some [] => (Ok (), w)
  | Some txs => process_transactions c answers height txs w
  end.

(** ** The block stream *)

(** The monitor object together with the world it acts on. *)
Record service : Type := mkService {
  mon : monitor;
  wld : world
}.

(** [stop()] *)
Definition stop (stamp : string) (s : service) : service :=
  let '(m, k) := saveLastBlock stamp true (mon s) (files (wld s)) in
  mkService (mkMonitor false (lastProcessedBlock m) (_lastSavedBlock m))
            (mkWorld k (effects (wld s))).

(** What the outside world does during one pass of the [while] loop: the
    node's answer to [getBlock] for any height, the answers met by the
    requests of the block, the clock, and whether [stop()] is called by an
    HTTP handler while the pass waits for the block. *)
Record tick : Type := mkTick {
  getBlock : Z -> result (option block);
  answers : string -> nat -> env;
  stamp : string;
  stop_requested : bool
}.

(** [await this.client.database.getBlock(nextBlock)]: the call goes out,
    and the handlers that run meanwhile have run when the pass resumes. *)
Definition await_block (t : tick) (s : service) : service :=
  let nextBlock := lastProcessedBlock (mon s) + 1 in
  let s1 := mkService (mon s) (emit (GetBlock nextBlock) (wld s)) in
  if stop_requested t then stop (stamp t) s1 else s1.

(** The [try] block of one pass. *)
Definition streamBlocks_try (c : config) (t : tick) (s : service)
    : result unit * service :=
  let nextBlock := lastProcessedBlock (mon s) + 1 in
  let s2 := await_block t s in
  match getBlock t nextBlock with
  | Throw msg => (Throw msg, s2)
  | Ok None => (Ok (), mkService (mon s2) (emit (Sleep 3000) (wld s2)))
  | Ok (Some b) =>
      match processBlock c (answers t) b nextBlock (wld s2) with
      | (Throw msg, w') => (Throw msg, mkService (mon s2) w')
      | (Ok _, w') =>
          let m' := mkMonitor (isRunning (mon s2)) nextBlock (_lastSavedBlock (mon s2)) in
          if Z.rem nextBlock (blockSaveInterval c) =? 0 then
            let '(m'', k) := saveLastBlock (stamp t) false m' (files w') in
            (Ok (), mkService m'' (mkWorld k (effects w')))
          else (Ok (), mkService m' w')
      end
  end.

(** One pass: the [try] block, and the [catch] that reports and waits. *)
Definition iteration (c : config) (t : tick) (s : service) : service :=
  match streamBlocks_try c t s with
  | (Ok _, s') => s'
  | (Throw _, s') => mkService (mon s') (emit (Sleep 5000) (wld s'))
  end.

(** [streamBlocks()]: [while (this.isRunning)], over the passes the
    outside world allows for. *)
Fixpoint streamBlocks (c : config) (ts : list tick) (s : service) : service :=
  match ts with
  | [] => s
  | t :: ts' =>
      if isRunning (mon s) then streamBlocks c ts' (iteration c t s) else s
  end.

(** ** Start-up *)

(** [ensureRecoveryFile()], the data directory being there. *)
Definition ensureRecoveryFile (k : disk) : disk :=
  match recoveryFile k with
  | Missing => disk_of (sys_run [WriteRecovery (mkPendingDoc (Some []))] k)
  | Unreadable | Garbage | Doc _ => k
  end.

(** The constructor, as far as files and cursor go: both ledgers are made
    sure of, the cursor is read from [last_block.json], and only a cursor
    of 0 gives way to [LAST_PROCESSED_BLOCK]. [envBlock] is
    [parseInt(process.env.LAST_PROCESSED_BLOCK) || 0]. *)
Definition constructor (now : string) (envBlock : Z) (k : disk) : monitor * disk :=
  let k1 := ensureRecoveryFile (ensureDataFile now k) in
  let m := loadLastBlock (mkMonitor false 0 None) k1 in
  if lastProcessedBlock m =? 0 then
    if 0 <? envBlock
    then (mkMonitor (isRunning m) envBlock (_lastSavedBlock m), k1)
    else (m, k1)
  else (m, k1).

(** [start()]. [head] is [props.head_block_number] as
    [getDynamicGlobalProperties] answers it. *)
Definition start (c : config) (head : result Z) (ts : list tick) (s : service) : service :=
  if isRunning (mon s) then s
  else
    let on := mkMonitor true (lastProcessedBlock (mon s)) (_lastSavedBlock (mon s)) in
    if lastProcessedBlock (mon s) =? 0 then
      match head with
      | Ok head_block_number =>
          streamBlocks c ts
            (mkService (mkMonitor true (head_block_number - 1) (_lastSavedBlock (mon s)))
                       (wld s))
      | Throw _ =>
          mkService (mkMonitor false (lastProcessedBlock (mon s)) (_lastSavedBlock (mon s)))
                    (wld s)
      end
    else streamBlocks c ts (mkService on (wld s)).

End Monitor.

(* ===================================================================== *)
(** * The administration tool: [backend/admin.js]                          *)
(* ===================================================================== *)

Module Admin.
Import UserManager.

(** The commands that change the ledger. [username] is [args[1]], [None]
    when absent; [tokens] is [parseInt(args[2])], [None] for [NaN]. *)
Inductive command : Type :=
| add_user (username : option string) (tokens : option Z)
| give_tokens (username : option string) (tokens : option Z)
| set_tokens (username : option string) (tokens : option Z)
| activate (username : option string)
| deactivate (username : option string).

(** [parseInt(..) || 5] *)
Definition or_five (n : option Z) : Z :=
  match n with
  | Some z => if z =? 0 then 5 else z
  | None => 5
  end.

(** [!!username] *)
Definition given (username : option string) : bool :=
  match username with
  | Some s => nonempty s
  | None => false
  end.

(** The command of one run, on the ledger that [new UserManager()] has
    made sure of. *)
Definition run_command (now : string) (cmd : command) (k : disk) : disk :=
  match cmd with
  | add_user username tokens =>
      match username with
      | Some newUsername =>
          if nonempty newUsername
          then snd (addUser now newUsername (or_five tokens) None "" k)
          else k
      | None => k
      end
  | give_tokens username tokens =>
      match username, tokens with
      | Some giveUsername, Some giveTokens =>
          if nonempty giveUsername && negb (giveTokens =? 0)
          then snd (UserManager.giveTokens now giveUsername giveTokens k)
          else k
      | _, _ => k
      end
  | set_tokens username tokens =>
      match username, tokens with
      | Some setUsername, Some setTokens =>
          if nonempty setUsername
          then snd (UserManager.setTokens now setUsername setTokens k)
          else k
      | _, _ => k
      end
  | activate username =>
      match username with
      | Some activateUsername =>
          if nonempty activateUsername
          then snd (setUserStatus now activateUsername true k)
          else k
      | None => k
      end
  | deactivate username =>
      match username with
      | Some deactivateUsername =>
          if nonempty deactivateUsername
          then snd (setUserStatus now deactivateUsername false k)
          else k
      | None => k
      end
  end.

(** One run of the tool: the module creates its [UserManager], then
    [main()] executes the command. *)
Definition main (now : string) (cmd : command) (k : disk) : disk :=
  run_command now cmd (ensureDataFile now k).

(** Runs one after the other. *)
Fixpoint session (now : string) (cmds : list command) (k : disk) : disk :=
  match cmds with
  | [] => k
  | cmd :: cmds' => session now cmds' (main now cmd k)
  end.

End Admin.

(* ===================================================================== *)
(** * The producers of requests: [scripts/app.js], [scripts/keychain.js]   *)
(* ===================================================================== *)

Module Frontend.

(** A form value or a variable that may be [null]. *)
Definition of_form (o : option string) : jsval :=
  match o with
  | Some s => VStr s
  | None => VNull
  end.

(** [value || null] *)
Definition or_null (o : option string) : jsval :=
  match o with
  | Some s => if nonempty s then VStr s else VNull
  | None => VNull
  end.

(** The object [customJson] that [handleFormSubmit] of [app.js] broadcasts
    once its guards have passed. *)
Definition customJson (currentUser requestedUsername deliveryMethod mail note : option string)
    (timestamp : string) : jsval :=
  VObj {[ "app" := VStr "hive_account_faucet";
          "version" := VStr "1.0.0";
          "action" := VStr "create_account_request";
          "data" := VObj {[ "requester" := of_form currentUser;
                            "requested_username" := of_form requestedUsername;
                            "delivery_method" := of_form deliveryMethod;
                            "email" := or_null mail;
                            "notes" := or_null note;
                            "timestamp" := VStr timestamp ]} ]}.

(** [KeychainManager.createAccountRequestJson(requestedUsername,
    deliveryMethod, notes)] of [keychain.js], on the form values that
    [submitAccountRequest] hands to it; the clock and [generateRequestId()]
    are given. *)
Definition createAccountRequestJson (requestedUsername deliveryMethod : option string)
    (note : string) (timestamp requestId : string) : jsval :=
  VObj {[ "app" := VStr "hive-account-faucet";
          "version" := VStr "1.0.0";
          "action" := VStr "create_account_request";
          "timestamp" := VStr timestamp;
          "requestId" := VStr requestId;
          "data" := VObj {[ "requestedUsername" := of_form requestedUsername;
                            "deliveryMethod" := of_form deliveryMethod;
                            "notes" := VStr note ]} ]}.

End Frontend.

(* ===================================================================== *)
(** * Vocabulary of the statements                                         *)
(* ===================================================================== *)

Import UserManager Monitor.

(** The requester records the quota ledger holds; none when the file
    cannot be loaded. *)
Definition ledger (k : disk) : gmap string user :=
  match loadData k with
  | Some d => authorized_users d
  | None => ∅
  end.

(** The amounts an administrator may pass without driving a balance below
    zero: a non-negative grant, a total that covers what was used. *)
Definition amount_covers (m : mutation) (name : string) (u : user) : Prop :=
  match m with
  | GiveTokens n additionalTokens => n = name -> 0 <= additionalTokens
  | SetTokens n newTotal => n = name -> tokens_used u <= newTotal
  | UseToken _ | AddUser _ _ _ _ => True
  end.

(** The pending record [processAccountRequest] writes for a request. *)
Definition record_of (c : config) (e : env) (rq : request) (w : world) : pending_record :=
  pending_of e (r_account (trace_of c e rq w)).

(** The [overallSuccess] that [processAccountRequest] computes for a request. *)
Definition delivered (c : config) (e : env) (rq : request) (w : world) : bool :=
  overallSuccess (delivery_method rq) (r_email (trace_of c e rq w))
                 (r_memo (trace_of c e rq w)).

(** [data.key], [undefined] when the read throws. *)
Definition field (data : jsval) (key : string) : jsval :=
  match get_prop data key with
  | Ok v => v
  | Throw _ => VUndefined
  end.

(** The encoded memo [sendAccountMemo] checks, when it gets that far. *)
Definition encoded_memo (c : config) (e : env) (a : accountData) : option string :=
  match getAccounts_recipient e with
  | Ok (recipientMemoKey :: _) =>
      match memo_encode e (creatingMemoKey c) recipientMemoKey ("#" +:+ memoMessage a) with
      | Ok encryptedMemo => Some encryptedMemo
      | Throw _ => None
      end
  | _ => None
  end.

(** An integer in the range in which every integer is a double, so that a
    sum or difference that lands there is exact. *)
Definition safe (n : Z) : Prop := - 2 ^ 53 <= n <= 2 ^ 53.

(** A number as the code can hold it. *)
Definition is_double (n : Z) : Prop := to_double n = n.

(** The sums and differences a mutation computes on the record it finds. *)
Definition record_sums (m : mutation) (u : user) : list Z :=
  match m with
  | UseToken _ => [tokens_used u + 1; tokens_remaining u - 1]
  | AddUser _ _ _ _ => []
  | GiveTokens _ additionalTokens =>
      [tokens_allocated u + additionalTokens; tokens_remaining u + additionalTokens]
  | SetTokens _ newTotal => [newTotal - tokens_used u]
  end.

(** [needle] occurs in [hay]. *)
Definition substring_of (needle hay : string) : Prop :=
  exists pre post, hay = pre +:+ needle +:+ post.

(** A fetch that brings no block: the block is not produced yet, or the
    call fails. *)
Definition no_block (t : tick) (height : Z) : Prop :=
  getBlock t height = Ok None \/ exists msg, getBlock t height = Throw msg.

(* ===================================================================== *)
(** * Sample data                                                          *)
(* ===================================================================== *)

Definition alice : user :=
  mkUser 5 3 2 (Some "alice@example.org") "2025-01-01T00:00:00.000Z" None true "".

Definition sample_data : data :=
  mkData {[ "alice" := alice ]}
         (mkMetadata "2025-01-01T00:00:00.000Z" "2025-01-01T00:00:00.000Z" 1 (Some 5) 3).

Definition sample_disk : disk :=
  mkDisk (Doc (mkPendingDoc (Some []))) (Doc sample_data) Missing Missing [].

Definition noon : string := "2025-06-01T12:00:00.000Z".

Definition sample_config : config :=
  mkConfig (Some "faucet") (Some "5Jactive") (Some "5Jmemo") 20 true.

(** An encoder that leaves the message in the clear, and one that hides it. *)
Definition identity_encode (_ : option string) (_ : string) (msg : string) : result string :=
  Ok msg.

Definition opaque_encode (_ : option string) (_ : string) (_ : string) : result string :=
  Ok "#9f3c0a".

(** A world in which the name is free, the faucet holds 0.005 HBD and the
    recipient exists; the rest is given by the arguments. *)
Definition sample_env (encode : option string -> string -> string -> result string)
    (mail : result string) (created : result string) (move : result (string * Z)) : env :=
  mkEnv noon (replicate 32 200) (fun seed => "5J" +:+ seed) (fun key => "STM" +:+ key)
        (Ok 0%nat) true created mail (Ok (Some 5)) (Ok ["STMrecipient"]) encode move.

Definition sample_world : world := mkWorld sample_disk [].

Definition sample_account : accountData :=
  mkAccountData (VStr "newuser3") "P5secret" "5Jo" "5Ja" "5Jp" "5Jm" "T1" (Some "alice").

Definition request_both : request :=
  mkRequest (VStr "newuser3") (VStr "both") 100 "tx1" (Some "alice").

(** Mail goes out, the memo transfer is refused. *)
Definition env_memo_refused : env :=
  sample_env opaque_encode (Ok "m1") (Ok "T1") (Throw "transfer refused").

(** The ledger node refuses the creation. *)
Definition env_creation_refused : env :=
  sample_env opaque_encode (Ok "m1") (Throw "missing authority") (Ok ("X1", 7)).

(** The memo comes back unencrypted. *)
Definition env_memo_in_clear : env :=
  sample_env identity_encode (Ok "m1") (Ok "T1") (Ok ("X1", 7)).

Definition record_one : pending_record :=
  mkPending (VStr "newuser1") noon (Some "alice") "P5one" "5Jo" "5Ja" "5Jp" "5Jm" "T1".

Definition record_two : pending_record :=
  mkPending (VStr "newuser2") noon (Some "alice") "P5two" "5Jo" "5Ja" "5Jp" "5Jm" "T2".

Definition disk_with_one : disk :=
  mkDisk (Doc (mkPendingDoc (Some [record_one]))) (Doc sample_data) Missing Missing [].


(** A request that is well formed but for the type of the user name. *)
Definition numeric_name_request : jsval :=
  VObj {[ "app" := VStr "hive_account_faucet";
          "version" := VStr "1.0.0";
          "action" := VStr "create_account_request";
          "data" := VObj {[ "requested_username" := VNum 42;
                            "delivery_method" := VStr "email" ]} ]}.

Definition sample_service : service := mkService (mkMonitor true 100 None) sample_world.

(** The node has not produced the next block yet. *)
Definition tick_not_yet : tick :=
  mkTick (fun _ => Ok None) (fun _ _ => env_memo_refused) noon false.

(** A block with a transaction that has no [operations]. *)
Definition block_malformed : block :=
  mkBlock (Some [mkTransaction "tx9" None]).

Definition tick_malformed : tick :=
  mkTick (fun _ => Ok (Some block_malformed)) (fun _ _ => env_memo_refused) noon false.

(* ===================================================================== *)
(** * Further vocabulary and sample data                                   *)
(* ===================================================================== *)

(** The requester a mutation is about. *)
Definition subject (m : mutation) : string :=
  match m with
  | UseToken name | AddUser name _ _ _ | GiveTokens name _ | SetTokens name _ => name
  end.

(** All the sums and differences a mutation computes on a ledger: those
    on the record it finds and those on the aggregate block. *)
Definition sums (m : mutation) (d : data) : list Z :=
  let md := metadata d in
  let total := default 0 (total_tokens_allocated md) in
  match m, authorized_users d !! subject m with
  | UseToken _, Some u => record_sums m u ++ [total_tokens_used md + 1]
  | AddUser _ tokens _ _, None => [total_users md + 1; total + tokens]
  | GiveTokens _ additionalTokens, Some u => record_sums m u ++ [total + additionalTokens]
  | SetTokens _ newTotal, Some u =>
      record_sums m u ++ [newTotal - tokens_allocated u;
                          total + (newTotal - tokens_allocated u)]
  | _, _ => []
  end.

(** The sum of a count over all requesters. *)
Definition sum_over (f : user -> Z) (users : gmap string user) : Z :=
  map_fold (fun _ u acc => f u + acc) 0 users.

(** The aggregate block agrees with the records: the number of
    requesters, and the sums of tokens allocated and used. *)
Definition totals_consistent (d : data) : Prop :=
  total_users (metadata d) = Z.of_nat (size (authorized_users d)) /\
  total_tokens_allocated (metadata d) = Some (sum_over tokens_allocated (authorized_users d)) /\
  total_tokens_used (metadata d) = sum_over tokens_used (authorized_users d).

(** A record with its [is_active] flag replaced. *)
Definition with_status (isActive : bool) (u : user) : user :=
  mkUser (tokens_allocated u) (tokens_used u) (tokens_remaining u) (email u)
         (created_at u) (last_used u) isActive (notes u).

(** The cursor on disk, when [last_block.json] holds one, is not ahead of
    the cursor in memory. *)
Definition persisted_behind (s : service) : Prop :=
  match lastBlockFile (files (wld s)) with
  | Doc d => doc_lastProcessedBlock d <= lastProcessedBlock (mon s)
  | Missing | Unreadable | Garbage => True
  end.

(** The broadcast that creates the account of a request. *)
Definition creation_call (c : config) (rq : request) (x : effect) : Prop :=
  match x with
  | SendOperations creator new_account_name _ _ _ _ =>
      creator = creatingAccount c /\ new_account_name = requested_username rq
  | _ => False
  end.

(** A mail with the credential of a request, sent to the address the
    ledger [k] holds for its requester. *)
Definition mail_call (k : disk) (rq : request) (x : effect) : Prop :=
  match x with
  | SendMail to a =>
      (exists u, ledger k !! str (rq_requester rq) = Some u /\ email u = Some to) /\
      ad_username a = requested_username rq
  | _ => False
  end.

(** The transfer of 0.001 HBD from the faucet to the requester, with a
    memo in which neither the new name nor the password can be read. *)
Definition memo_call (c : config) (e : env) (rq : request) (x : effect) : Prop :=
  match x with
  | Transfer from to amount memo =>
      from = creatingAccount c /\ to = rq_requester rq /\ amount = "0.001 HBD" /\
      ~ substring_of (to_string (requested_username rq)) memo /\
      ~ substring_of (generateMasterPassword (randomBytes e)) memo
  | _ => False
  end.

(** The outbound calls one request may make, in their order: none; or the
    creation, then at most one mail, then at most one transfer. *)
Definition outbound_calls (c : config) (e : env) (k : disk) (rq : request)
    (l : list effect) : Prop :=
  l = [] \/
  exists x rest, l = x :: rest /\ creation_call c rq x /\
    (rest = [] \/
     (exists m, rest = [m] /\ mail_call k rq m) \/
     (exists t, rest = [t] /\ memo_call c e rq t) \/
     (exists m t, rest = [m; t] /\ mail_call k rq m /\ memo_call c e rq t)).

Definition empty_disk : disk := mkDisk Missing Missing Missing Missing [].

(** The monitor object as the constructor first sets it. *)
Definition fresh_monitor : monitor := mkMonitor false 0 None.

(** A block with one transaction and no operation of interest. *)
Definition block_plain : block :=
  mkBlock (Some [mkTransaction "tx5" (Some [OtherOperation "vote"])]).

(** The node hands out [block_plain] at every height. *)
Definition tick_plain : tick :=
  mkTick (fun _ => Ok (Some block_plain)) (fun _ _ => env_memo_refused) noon false.

(** A monitor that stopped at block 119. *)
Definition service_at_119 : service := mkService (mkMonitor false 119 None) sample_world.
(** Everything works: the mail goes out and the memo is transferred. *)
Definition env_all_fine : env :=
  sample_env opaque_encode (Ok "m1") (Ok "T1") (Ok ("X1", 7)).

Definition request_email : request :=
  mkRequest (VStr "newuser1") (VStr "email") 100 "tx1" (Some "alice").

Definition request_pigeon : request :=
  mkRequest (VStr "newuser4") (VStr "carrier_pigeon") 100 "tx4" (Some "alice").

Definition request_stranger : request :=
  mkRequest (VStr "newuser5") (VStr "email") 100 "tx5" (Some "mallory").

(** alice with a single token left. *)
Definition disk_last_token : disk :=
  mkDisk (Doc (mkPendingDoc (Some [])))
         (Doc (mkData {[ "alice" := mkUser 5 4 1 (Some "alice@example.org")
                                           "2025-01-01T00:00:00.000Z" None true "" ]}
                      (mkMetadata "2025-01-01T00:00:00.000Z" "2025-01-01T00:00:00.000Z" 1 (Some 5) 4)))
         Missing Missing [].

(** An operation that is not a request to this faucet. *)
Definition foreign (o : operation) : Prop :=
  match o with
  | CustomJson payload => id payload <> "hive_account_faucet"
  | OtherOperation _ => True
  end.

Definition op_other_app : custom_json :=
  mkCustomJson "splinterlands" (Some numeric_name_request) ["alice"] [].

Definition block_foreign : block :=
  mkBlock (Some [mkTransaction "tx7" (Some [OtherOperation "vote"; CustomJson op_other_app]);
                 mkTransaction "tx8" (Some [])]).

(** The index into [base58Chars] that the [i]-th character of the password
    is taken at. *)
Definition randomIndex (bytes : list Z) (i : nat) : nat :=
  Z.to_nat (Z.rem (default 0 (bytes !! (i mod length bytes)%nat))
                  (Z.of_nat (String.length base58Chars))).

(** What [crypto.randomBytes(32)] returns: 32 bytes. *)
Definition random_buffer (bytes : list Z) : Prop :=
  length bytes = 32%nat /\ Forall (fun b => 0 <= b < 256) bytes.

(** The bytes 7, 14, .., 224. *)
Definition sample_bytes : list Z := (fun i => 7 * Z.of_nat i) <$> seq 1 32.

(** A monitor that has not run yet and has no cursor. *)
Definition service_new : service := mkService (mkMonitor false 0 None) sample_world.

(** The data directory on a file system that refuses the writes to the
    recovery file. *)
Definition disk_refusing : disk :=
  mkDisk (Doc (mkPendingDoc (Some []))) (Doc sample_data) Missing Missing
         [Refused RecoveryFile].

(** The data directory on a file system with no space left for the
    recovery file, which holds one stranded record. *)
Definition disk_no_space : disk :=
  mkDisk (Doc (mkPendingDoc (Some [record_one]))) (Doc sample_data) Missing Missing
         [CutShort RecoveryFile].

(** The mail transport and the transfer both refuse. *)
Definition env_both_refused : env :=
  sample_env opaque_encode (Throw "mail refused") (Ok "T1") (Throw "transfer refused").

(** A requester with 2^53 + 2 tokens, none of them used. *)
Definition big_bob : user :=
  mkUser 9007199254740994 0 9007199254740994 None noon None true "".

(** The ledger after `node admin.js add-user bob 9007199254740994`. *)
Definition disk_big : disk :=
  Admin.main noon (Admin.add_user (Some "bob") (Some 9007199254740994)) sample_disk.

(* ===================================================================== *)
(** * Quota ledger                                                         *)
(* ===================================================================== *)

Section Numbers.

Implicit Types (n u x y : Z).

(** Up to 2^53 in magnitude nothing is rounded. *)
Lemma to_double_safe n : safe n -> to_double n = n.
Proof.
  unfold safe, to_double. intros Hn.
  destruct (Z.ltb_spec (Z.abs n) (2 ^ 53)) as [| Hge]; [done |].
  assert (n = 2 ^ 53 \/ n = - 2 ^ 53) as [-> | ->] by lia; reflexivity.
Qed.

Lemma js_add_safe x y : safe (x + y) -> js_add x y = x + y.
Proof. apply to_double_safe. Qed.

Lemma js_sub_safe x y : safe (x - y) -> js_sub x y = x - y.
Proof. apply to_double_safe. Qed.

(** From 2^53 on the exponent of the last place is positive. *)
Lemma last_place_positive n : 2 ^ 53 <= n -> 1 <= Z.log2 n - 52.
Proof.
  intros Hn. pose proof (Z.log2_le_mono _ _ Hn) as H.
  rewrite Z.log2_pow2 in H by lia. lia.
Qed.

(** Above 2^53 the result is the multiple of the last place below the
    number or the one above it. *)
Lemma to_double_large n :
  2 ^ 53 <= n ->
  exists q', to_double n = q' * 2 ^ (Z.log2 n - 52) /\
    (q' = n / 2 ^ (Z.log2 n - 52) \/ q' = n / 2 ^ (Z.log2 n - 52) + 1).
Proof.
  intros Hn. unfold to_double. rewrite Z.abs_eq by lia.
  destruct (Z.ltb_spec n (2 ^ 53)); [lia |].
  rewrite Z.sgn_pos, Z.mul_1_l by lia.
  eexists. split; [reflexivity |].
  destruct (_ <? _); [by left |]. destruct (_ <? _); [by right |].
  destruct (Z.even _); [by left | by right].
Qed.

(** Rounding does not cross zero. *)
Lemma to_double_nonneg n : 0 <= n -> 0 <= to_double n.
Proof.
  intros Hn. destruct (Z.le_gt_cases (2 ^ 53) n) as [Hbig | Hsmall].
  - destruct (to_double_large n Hbig) as (q' & -> & Hq').
    pose proof (last_place_positive n Hbig) as He.
    assert (0 < 2 ^ (Z.log2 n - 52)) as Hpow by (apply Z.pow_pos_nonneg; lia).
    assert (0 <= n / 2 ^ (Z.log2 n - 52)) as Hq by (apply Z.div_pos; lia).
    apply Z.mul_nonneg_nonneg; lia.
  - rewrite to_double_safe; [done | unfold safe; lia].
Qed.

(** Adding one to a number the code can hold never gives less. *)
Lemma to_double_succ u : 0 <= u -> is_double u -> u <= to_double (u + 1).
Proof.
  intros Hu Hdouble. destruct (Z.le_gt_cases (2 ^ 53) u) as [Hbig | Hsmall].
  2: { rewrite to_double_safe; [lia | unfold safe; lia]. }
  pose proof (last_place_positive u Hbig) as He.
  set (e := Z.log2 u - 52) in *.
  assert (0 < 2 ^ e) as Hpow by (apply Z.pow_pos_nonneg; lia).
  assert (2 <= 2 ^ e) as Htwo.
  { replace 2 with (2 ^ 1) at 1 by done. apply Z.pow_le_mono_r; lia. }
  (* [u] is a multiple of its last place *)
  assert (u mod 2 ^ e = 0) as Hmult.
  { destruct (to_double_large u Hbig) as (q' & Hq' & _). fold e in Hq'.
    unfold is_double in Hdouble. rewrite Hdouble in Hq'. rewrite Hq'.
    apply Z.mod_mul. lia. }
  (* so [u + 1] has the same last place *)
  assert (Z.log2 (u + 1) = Z.log2 u) as Hlog.
  { apply Z.log2_unique; [apply Z.log2_nonneg |].
    pose proof (Z.log2_spec u ltac:(lia)) as [Hlo Hhi].
    split; [lia |].
    replace (Z.succ (Z.log2 u)) with (e + 53) in * by (unfold e; lia).
    rewrite Z.pow_add_r in * by lia.
    pose proof (Z.div_mod u (2 ^ e) ltac:(lia)) as Hdiv. rewrite Hmult in Hdiv.
    assert (u / 2 ^ e < 2 ^ 53) by nia. nia. }
  destruct (to_double_large (u + 1) ltac:(lia)) as (q' & -> & Hq').
  rewrite Hlog in *. fold e in Hq' |- *.
  assert ((u + 1) / 2 ^ e = u / 2 ^ e) as Hsame.
  { pose proof (Z.div_mod u (2 ^ e) ltac:(lia)) as Hdiv. rewrite Hmult in Hdiv.
    symmetry. apply (Z.div_unique_pos (u + 1) (2 ^ e) (u / 2 ^ e) 1); lia. }
  rewrite Hsame in Hq'.
  pose proof (Z.div_mod u (2 ^ e) ltac:(lia)) as Hdiv. rewrite Hmult in Hdiv.
  destruct Hq' as [-> | ->]; nia.
Qed.

End Numbers.

(* ===================================================================== *)
(** * Calls on files                                                       *)
(* ===================================================================== *)

Section Files.

Implicit Types (k : disk) (p : path) (c : syscall).

Lemma writable_not_refused p k :
  writable p k = true -> bool_decide (Refused p ∈ faults k) = false.
Proof.
  unfold writable. destruct (bool_decide (Refused p ∈ faults k)); [done | done].
Qed.

(** A call that is refused leaves the disk alone, also when the process
    dies in it. *)
Lemma sys_torn_refused c k : Refused (target c) ∈ faults k -> sys_torn c k = k.
Proof. intros H. unfold sys_torn. by rewrite bool_decide_eq_true_2. Qed.

(** What a call leaves when it throws was there, or is what an interrupted
    call leaves. *)
Lemma sys_exec_thrown c k k' :
  sys_exec c k = Thrown k' -> k' = k \/ k' = sys_torn c k.
Proof.
  unfold sys_exec. destruct (writable (target c) k); [| intros [= <-]; by right].
  destruct c; try done. destruct (lastBlockTmp k); try done. intros [= <-]. by left.
Qed.

(** [savePending] touches the recovery file only. *)
Lemma savePending_other_files (l : list pending_record) k :
  dataFile (savePending l k) = dataFile k /\
  lastBlockFile (savePending l k) = lastBlockFile k /\
  lastBlockTmp (savePending l k) = lastBlockTmp k /\
  faults (savePending l k) = faults k.
Proof.
  unfold savePending, savePending_calls, sys_run, sys_exec, sys_torn. simpl.
  destruct (writable RecoveryFile k); simpl; [done |]. by destruct (bool_decide _).
Qed.

(** [saveData] touches the quota ledger only. *)
Lemma saveData_other_files now (d : data) k :
  recoveryFile (snd (saveData now d k)) = recoveryFile k /\
  lastBlockFile (snd (saveData now d k)) = lastBlockFile k /\
  lastBlockTmp (snd (saveData now d k)) = lastBlockTmp k /\
  faults (snd (saveData now d k)) = faults k.
Proof.
  unfold saveData, sys_run, sys_exec, sys_torn. simpl.
  destruct (writable DataFile k); simpl; [done |]. by destruct (bool_decide _).
Qed.

End Files.

Section Quota.

Implicit Types (k : disk) (d : data) (u : user) (name : string).

(** A save replaces the ledger by the records handed to it, or is refused
    and leaves the disk alone, or fails in the middle and leaves the ledger
    cut short. *)
Lemma saveData_ledger now d k :
  ledger (snd (saveData now d k)) = authorized_users d \/
  snd (saveData now d k) = k \/
  (writable DataFile k = false /\ dataFile (snd (saveData now d k)) = Garbage).
Proof.
  unfold saveData, sys_run, sys_exec. simpl.
  destruct (writable DataFile k); [by left | right].
  unfold sys_torn. simpl. destruct (bool_decide _); [by left | by right].
Qed.

Lemma ledger_loadData k d : loadData k = Some d -> ledger k = authorized_users d.
Proof. unfold ledger. by intros ->. Qed.

Lemma ledger_garbage k : dataFile k = Garbage -> ledger k = ∅.
Proof. unfold ledger, loadData. by intros ->. Qed.

(** After a save of the ledger with [n] rebound, the record under [name]
    is the new one when [n = name] and the old one otherwise. *)
Ltac saved_record Hk Hn n name :=
  match goal with |- context [saveData ?s ?x ?y] =>
    destruct (saveData_ledger s x y) as [-> | [-> | ?]] end;
  [| by left | by right; left];
  rewrite Hk; destruct (decide (n = name)) as [<- | ?];
  [ right; right; rewrite Hn; simpl; by rewrite lookup_insert_eq
  | left; simpl; by rewrite lookup_insert_ne ].

(** A save of the records as they were loaded. *)
Ltac saved_as_loaded Hk :=
  match goal with |- context [saveData ?s ?x ?y] =>
    destruct (saveData_ledger s x y) as [-> | [-> | ?]] end;
  [left; by rewrite Hk | by left | by right; left].

(** The record kept under [name] after a mutation is the one kept before,
    or the one the operation computes from it; or else the write failed in
    the middle and no record can be read any more. *)
Lemma mutate_lookup now m k name :
  ledger (mutate now m k) !! name = ledger k !! name \/
  (writable DataFile k = false /\ dataFile (mutate now m k) = Garbage) \/
  match m, ledger k !! name with
  | UseToken n, Some u =>
      n = name /\ 0 < tokens_remaining u /\
      ledger (mutate now m k) !! name =
        Some (mkUser (tokens_allocated u) (js_add (tokens_used u) 1)
                     (js_sub (tokens_remaining u) 1)
                     (email u) (created_at u) (Some now) (is_active u) (notes u))
  | AddUser n tokens mail note, None =>
      n = name /\
      ledger (mutate now m k) !! name =
        Some (mkUser tokens 0 tokens mail now None true note)
  | GiveTokens n a, Some u =>
      n = name /\
      ledger (mutate now m k) !! name =
        Some (mkUser (js_add (tokens_allocated u) a) (tokens_used u)
                     (js_add (tokens_remaining u) a)
                     (email u) (created_at u) (last_used u) (is_active u) (notes u))
  | SetTokens n t, Some u =>
      n = name /\
      ledger (mutate now m k) !! name =
        Some (mkUser t (tokens_used u) (js_sub t (tokens_used u))
                     (email u) (created_at u) (last_used u) (is_active u) (notes u))
  | _, _ => False
  end.
Proof.
  pose proof (ledger_loadData k) as Hk.
  destruct m as [n | n tokens mail note | n a | n t]; simpl;
    [unfold useToken | unfold addUser | unfold giveTokens | unfold setTokens];
    (destruct (loadData k) as [d|] eqn:Hload; [| by left]);
    specialize (Hk d eq_refl); unfold lookup_user;
    (destruct (authorized_users d !! n) as [u|] eqn:Hn;
     [| destruct (bool_decide (n ∈ object_prototype_keys))]); try (by left).
  - destruct (Z.leb_spec (tokens_remaining u) 0); [by left |].
    saved_record Hk Hn n name.
  - saved_as_loaded Hk.
  - match goal with |- context [saveData ?s ?x ?y] =>
      pose proof (saveData_ledger s x y) as Hs; destruct (saveData s x y) as [saved k'] end.
    simpl in *. destruct Hs as [-> | [-> | ?]]; [| by left | by right; left].
    rewrite Hk. destruct (decide (n = name)) as [<- | Hne].
    + right. right. rewrite Hn. simpl. by rewrite lookup_insert_eq.
    + left. simpl. by rewrite lookup_insert_ne.
  - saved_record Hk Hn n name.
  - saved_as_loaded Hk.
  - saved_record Hk Hn n name.
  - saved_as_loaded Hk.
Qed.

(** C7, amended. After any Quota Ledger mutation (useToken, addUser,
    giveTokens, setTokens), every requester record satisfies
    [tokens_used + tokens_remaining = tokens_allocated], provided the record
    kept under that name before the mutation, if any, satisfied it and the
    sums and differences the mutation computes on it lie within 2^53 in
    magnitude, where numbers are exact. A record that addUser creates
    satisfies it outright. *)
Theorem quota_balance_preserved now m k name u' :
  ledger (mutate now m k) !! name = Some u' ->
  (forall u, ledger k !! name = Some u ->
     balanced u /\ (subject m = name -> Forall safe (record_sums m u))) ->
  balanced u'.
Proof.
  intros Hafter Hbefore.
  destruct (mutate_lookup now m k name) as [Hsame | [[_ Hcut] | Hstep]].
  - apply Hbefore. by rewrite <- Hsame.
  - by rewrite (ledger_garbage _ Hcut), lookup_empty in Hafter.
  - destruct m, (ledger k !! name) as [u|] eqn:Hu; try done;
      try (destruct (Hbefore u eq_refl) as [Hbal Hsafe]); unfold balanced in *;
      repeat match goal with H : _ /\ _ |- _ => destruct H end;
      match goal with H : ledger _ !! _ = Some _ |- _ =>
        rewrite H in Hafter; injection Hafter as <- end;
      simpl; try lia;
      specialize (Hsafe ltac:(done)); simpl in Hsafe;
      repeat match goal with H : Forall _ (_ :: _) |- _ =>
        apply Forall_cons in H as [? H] end;
      rewrite ?js_add_safe, ?js_sub_safe by done; lia.
Qed.

(** alice, 3 of 5 tokens used, consumes one. *)
Lemma quota_balance_preserved_witness :
  balanced (mkUser 5 4 1 (Some "alice@example.org") "2025-01-01T00:00:00.000Z"
                   (Some noon) true "").
Proof.
  apply (quota_balance_preserved noon (UseToken "alice") sample_disk "alice").
  - vm_compute. reflexivity.
  - intros u Hu. vm_compute in Hu. injection Hu as <-. split; [reflexivity |].
    intros _. repeat constructor; vm_compute; discriminate.
Defined.

(** C7 as stated fails: `add-user bob 9007199254740994` stores a record
    with 2^53 + 2 tokens, none used, which satisfies the equation; one
    [useToken] leaves [tokens_used = 1] and [tokens_remaining = 2^53], the
    double nearest to 2^53 + 1, and the equation no longer holds. *)
Lemma useToken_above_2_53_breaks_balance :
  ledger disk_big !! "bob" = Some big_bob /\
  balanced big_bob /\
  exists u', ledger (mutate noon (UseToken "bob") disk_big) !! "bob" = Some u' /\
    tokens_allocated u' = 2 ^ 53 + 2 /\
    tokens_used u' = 1 /\
    tokens_remaining u' = 2 ^ 53 /\
    ~ balanced u' /\
    js_add (tokens_used u') (tokens_remaining u') <> tokens_allocated u'.
Proof.
  split; [by vm_compute |]. split; [by vm_compute |].
  eexists. split; [vm_compute; reflexivity |].
  repeat split; try reflexivity; vm_compute; discriminate.
Qed.

(** C3, amended. For a record that is in the ledger after a mutation:
    if it was there before, with a [tokens_used] that is not negative,
    [tokens_used] has not decreased, and [tokens_remaining >= 0] is
    preserved by useToken and addUser, by giveTokens when the grant is not
    negative and by setTokens when the new total is at least [tokens_used];
    if it was not there before, addUser has created it with nothing used
    and the given number of tokens remaining. *)
Theorem quota_used_monotone_remaining_guarded now m k name u' :
  ledger (mutate now m k) !! name = Some u' ->
  match ledger k !! name with
  | Some u =>
      0 <= tokens_used u -> is_double (tokens_used u) ->
      tokens_used u <= tokens_used u' /\
      (0 <= tokens_remaining u -> amount_covers m name u -> 0 <= tokens_remaining u')
  | None =>
      exists tokens mail note, m = AddUser name tokens mail note /\
        tokens_used u' = 0 /\ tokens_remaining u' = tokens
  end.
Proof.
  intros Hafter.
  destruct (mutate_lookup now m k name) as [Hsame | [[_ Hcut] | Hstep]].
  - rewrite Hsame in Hafter. rewrite Hafter. intros _ _. split; [lia | done].
  - by rewrite (ledger_garbage _ Hcut), lookup_empty in Hafter.
  - destruct m, (ledger k !! name) as [u|] eqn:Hu; try done;
      repeat match goal with H : _ /\ _ |- _ => destruct H end;
      match goal with H : ledger _ !! _ = Some _ |- _ =>
        rewrite H in Hafter; injection Hafter as <- end;
      subst; simpl.
    + intros Hused Hdouble. split; [by apply to_double_succ |].
      intros _ _. apply to_double_nonneg. lia.
    + eauto 10.
    + intros _ _. split; [lia |]. intros Hrem Hcov. specialize (Hcov eq_refl).
      apply to_double_nonneg. lia.
    + intros _ _. split; [lia |]. intros Hrem Hcov. specialize (Hcov eq_refl).
      apply to_double_nonneg. lia.
Qed.

(** alice, 3 of 5 tokens used, has her total set to 4. *)
Lemma quota_used_monotone_remaining_guarded_witness :
  tokens_used alice <= 3 /\
  (0 <= tokens_remaining alice -> amount_covers (SetTokens "alice" 4) "alice" alice ->
   0 <= 1).
Proof.
  pose proof (quota_used_monotone_remaining_guarded noon (SetTokens "alice" 4) sample_disk
                "alice"
                (mkUser 4 3 1 (Some "alice@example.org") "2025-01-01T00:00:00.000Z" None true "")
                ltac:(vm_compute; reflexivity)) as H.
  assert (ledger sample_disk !! "alice" = Some alice) as Hu by (vm_compute; reflexivity).
  rewrite Hu in H. apply H; [vm_compute; discriminate | reflexivity].
Defined.

(** C3 as stated fails: with 5 tokens allocated, 3 used and 2 remaining,
    [setTokens("alice", 1)] leaves [tokens_remaining = -2]. *)
Lemma setTokens_below_used_goes_negative :
  ledger sample_disk !! "alice" = Some alice /\
  0 <= tokens_remaining alice /\ 0 <= tokens_used alice /\
  exists u', ledger (mutate noon (SetTokens "alice" 1) sample_disk) !! "alice" = Some u' /\
    tokens_remaining u' = -2.
Proof.
  split; [by vm_compute |]. split; [by vm_compute |]. split; [by vm_compute |].
  eexists. split; [vm_compute; reflexivity | reflexivity].
Qed.

End Quota.

(* ===================================================================== *)
(** * Request validation *)
(* ===================================================================== *)

Section Validation.

Lemma strict_eq_str_true v lit : strict_eq_str v lit = true <-> v = VStr lit.
Proof.
  destruct v; simpl; try (split; [discriminate | congruence]).
  rewrite String.eqb_eq. split; [by intros -> | congruence].
Qed.

Lemma get_prop_truthy v key : truthy v = true -> get_prop v key = Ok (field v key).
Proof. unfold field. by destruct v. Qed.

Lemma get_prop_field v key :
  v <> VUndefined -> v <> VNull -> get_prop v key = Ok (field v key).
Proof. unfold field. by destruct v. Qed.

Lemma nullish_cases v :
  v = VUndefined \/ v = VNull \/ (v <> VUndefined /\ v <> VNull).
Proof. destruct v; auto; right; right; split; discriminate. Qed.

(** C9, amended. [validateRequest(data)] yields a truthy value exactly when
    [data.app], [data.version] and [data.action] are strictly equal to the
    three fixed strings and [data.data], [data.data.requested_username] and
    [data.data.delivery_method] are truthy (for a string: not empty); on any
    [data] other than [null] it returns, and the [if] of the caller follows
    the truthiness of what it returns. The type of the two fields of
    [data.data] is not looked at. *)
Theorem validateRequest_accepts_iff data :
  (accepted data = true <->
     field data "app" = VStr "hive_account_faucet" /\
     field data "version" = VStr "1.0.0" /\
     field data "action" = VStr "create_account_request" /\
     truthy (field data "data") = true /\
     truthy (field (field data "data") "requested_username") = true /\
     truthy (field (field data "data") "delivery_method") = true) /\
  (data <> VUndefined -> data <> VNull ->
     exists v, validateRequest data = Ok v /\ truthy v = accepted data).
Proof.
  destruct (nullish_cases data) as [-> | [-> | [Hu Hn]]].
  { split; [| done]. vm_compute. split; [discriminate | intros [? _]; discriminate]. }
  { split; [| done]. vm_compute. split; [discriminate | intros [? _]; discriminate]. }
  unfold accepted, validateRequest.
  rewrite !(get_prop_field data) by done. simpl.
  destruct (strict_eq_str (field data "app") _) eqn:Happ; simpl.
  2: { split; [| by eauto]. split; [discriminate |].
       intros (H & _). apply strict_eq_str_true in H. congruence. }
  destruct (strict_eq_str (field data "version") _) eqn:Hver; simpl.
  2: { split; [| by eauto]. split; [discriminate |].
       intros (_ & H & _). apply strict_eq_str_true in H. congruence. }
  destruct (strict_eq_str (field data "action") _) eqn:Hact; simpl.
  2: { split; [| by eauto]. split; [discriminate |].
       intros (_ & _ & H & _). apply strict_eq_str_true in H. congruence. }
  apply strict_eq_str_true in Happ, Hver, Hact.
  destruct (truthy (field data "data")) eqn:Hd; simpl.
  2: { rewrite Hd. split; [| by eauto]. split; [discriminate |].
       intros (_ & _ & _ & H & _). congruence. }
  rewrite (get_prop_truthy _ "requested_username" Hd). simpl.
  destruct (truthy (field (field data "data") "requested_username")) eqn:Hname; simpl.
  2: { rewrite Hname. split; [| by eauto]. split; [discriminate |].
       intros (_ & _ & _ & _ & H & _). congruence. }
  rewrite (get_prop_truthy _ "delivery_method" Hd).
  split; [| by eauto]. split; [by intros -> | by intros (_ & _ & _ & _ & _ & ->)].
Qed.

(** C9 as stated fails: a request whose [requested_username] is the number
    42, a field of the wrong type, is accepted; what is returned is the
    delivery method, not [true]. *)
Lemma validateRequest_accepts_numeric_username :
  accepted numeric_name_request = true /\
  field (field numeric_name_request "data") "requested_username" = VNum 42 /\
  validateRequest numeric_name_request = Ok (VStr "email").
Proof. vm_compute. done. Qed.

End Validation.

(* ===================================================================== *)
(** * Substrings *)
(* ===================================================================== *)

Section Strings.

Lemma append_nil s : "" +:+ s = s.
Proof. reflexivity. Qed.

Lemma append_cons a s t : String a s +:+ t = String a (s +:+ t).
Proof. reflexivity. Qed.

Lemma starts_with_spec needle hay :
  starts_with needle hay = true <-> exists post, hay = needle +:+ post.
Proof.
  revert hay. induction needle as [| a n IH]; intros hay; simpl.
  - split; [intros _; by exists hay | done].
  - destruct hay as [| b h].
    + split; [discriminate | intros [post H]; discriminate].
    + setoid_rewrite append_cons.
      destruct (Ascii.eqb_spec a b) as [-> | Hne].
      * rewrite IH. split; intros [post H]; exists post; congruence.
      * split; [discriminate | intros [post H]; congruence].
Qed.

(** [includes] decides the occurrence of a substring. *)
Lemma includes_spec hay needle :
  includes hay needle = true <-> substring_of needle hay.
Proof.
  unfold substring_of. induction hay as [| b h IH]; simpl.
  - destruct (starts_with needle "") eqn:Hs.
    + apply starts_with_spec in Hs as [post Hs]. split; [| done].
      intros _. by exists "", post.
    + split; [discriminate |]. intros (pre & post & H).
      destruct pre; [| discriminate].
      rewrite append_nil in H.
      assert (starts_with needle "" = true) by (apply starts_with_spec; eauto).
      congruence.
  - destruct (starts_with needle (String b h)) eqn:Hs.
    + apply starts_with_spec in Hs as [post Hs]. split; [| done].
      intros _. by exists "", post.
    + rewrite IH. split.
      * intros (pre & post & ->). by exists (String b pre), post.
      * intros (pre & post & H). destruct pre as [| c pre].
        -- rewrite append_nil in H.
           assert (starts_with needle (String b h) = true)
             by (apply starts_with_spec; eauto).
           congruence.
        -- rewrite append_cons in H. injection H as -> ->. eauto.
Qed.

(** [trim] removes the white space of Unicode, not only the ASCII blanks:
    a no-break space alone trims to the empty string, and a line separator
    and a byte order mark go with the blanks around a letter. *)
Lemma trim_unicode_white_space :
  trim (bytes_of [194; 160]) = "" /\
  trim (bytes_of [32; 226; 128; 168; 97; 239; 187; 191; 9]) = "a" /\
  trim " alice@example.org " = "alice@example.org".
Proof. vm_compute. done. Qed.

End Strings.

(* ===================================================================== *)
(** * Memo channel *)
(* ===================================================================== *)

Section Memo.

(** C5. When the encoded memo contains the user name or the master
    password as a substring, [sendAccountMemo] answers with a failure and
    makes no outbound call: the effect log, and so the list of broadcast
    transfers, is as it was. *)
Theorem memo_leak_fails_without_transfer c e recipient a w enc :
  encoded_memo c e a = Some enc ->
  substring_of (to_string (ad_username a)) enc \/ substring_of (ad_masterPassword a) enc ->
  success (fst (sendAccountMemo c e recipient a w)) = false /\
  snd (sendAccountMemo c e recipient a w) = w.
Proof.
  unfold encoded_memo, sendAccountMemo. intros Henc Hleak.
  destruct (getAccounts_recipient e) as [[| key rest] | msg]; try discriminate.
  destruct (memo_encode e _ key _) as [enc' | msg]; [| discriminate].
  injection Henc as ->.
  assert (leaks enc a = true) as ->; [| done].
  unfold leaks. apply orb_true_iff.
  destruct Hleak as [H | H]; [left | right]; by apply includes_spec.
Qed.

(** The encoder returns the message as it is, user name and password
    included. *)
Lemma memo_leak_fails_without_transfer_witness :
  success (fst (sendAccountMemo sample_config env_memo_in_clear (Some "alice")
                  sample_account sample_world)) = false /\
  snd (sendAccountMemo sample_config env_memo_in_clear (Some "alice")
         sample_account sample_world) = sample_world.
Proof.
  apply (memo_leak_fails_without_transfer sample_config env_memo_in_clear (Some "alice")
           sample_account sample_world ("#" +:+ memoMessage sample_account)).
  - vm_compute. reflexivity.
  - right. apply includes_spec. vm_compute. reflexivity.
Defined.

End Memo.

(* ===================================================================== *)
(** * Recovery store *)
(* ===================================================================== *)

Section Recovery.



(** Whatever the list and the disk, [savePending] makes one call, a write
    onto the recovery file itself. *)
Lemma savePending_writes_in_place l c :
  c ∈ savePending_calls l -> exists d, c = WriteRecovery d /\ target c = RecoveryFile.
Proof.
  unfold savePending_calls. intros H. apply list_elem_of_singleton in H as ->. eauto.
Qed.

(** A crash during that write leaves a file from which nothing loads. *)
Lemma savePending_crash_window l k :
  writable RecoveryFile k = true ->
  exists k', k' ∈ crash_states (savePending_calls l) k /\
    recoveryFile k' = Garbage /\ loadPending k' = [].
Proof.
  intros Hw. exists (sys_torn (WriteRecovery (mkPendingDoc (Some l))) k).
  split.
  - simpl. apply list_elem_of_further, list_elem_of_here.
  - unfold sys_torn, loadPending. simpl. rewrite (writable_not_refused _ _ Hw). done.
Qed.

(** The cursor file, written through a temporary file and a rename, is
    whole at every crash point: it holds the old document or the new one. *)
Lemma saveLastBlock_crash_safe height stamp k k' :
  k' ∈ crash_states (saveLastBlock_calls height stamp) k ->
  lastBlockFile k' = lastBlockFile k \/
  lastBlockFile k' = Doc (mkLastBlockDoc height stamp).
Proof.
  unfold saveLastBlock_calls. simpl. unfold sys_exec, sys_torn, writable. simpl.
  repeat match goal with
         | |- context [bool_decide ?P] => destruct (bool_decide P); simpl
         end;
    rewrite !elem_of_cons; intros H;
    repeat (destruct H as [-> | H]); auto; by apply elem_of_nil in H.
Qed.

(** C2, the code at a failing input. The recovery file holds one record
    and [savePending] is called with two; among the disks a crash can
    leave is one whose recovery file is cut short, from which [loadPending]
    returns nothing. No temporary file and no rename are involved. *)
Theorem savePending_torn_write_loses_records :
  loadPending disk_with_one = [record_one] /\
  savePending_calls [record_one; record_two]
    = [WriteRecovery (mkPendingDoc (Some [record_one; record_two]))] /\
  exists k', k' ∈ crash_states (savePending_calls [record_one; record_two]) disk_with_one /\
    recoveryFile k' = Garbage /\ loadPending k' = [].
Proof.
  split; [reflexivity |]. split; [reflexivity |]. by apply savePending_crash_window.
Qed.

End Recovery.

(* ===================================================================== *)
(** * One request *)
(* ===================================================================== *)

Section Pipeline.

Lemma createHiveAccount_files e name ks creator w :
  files (snd (createHiveAccount e name ks creator w)) = files w.
Proof.
  unfold createHiveAccount, createHiveAccount_try.
  destruct (negb (checkUsernameAvailability e)); [done |].
  destruct (negb (fromString_ok e)); [done |].
  by destruct (sendOperations e).
Qed.

Lemma sendAccountCredentials_files c e addr a w :
  files (snd (sendAccountCredentials c e addr a w)) = files w.
Proof.
  unfold sendAccountCredentials.
  destruct (isConfigured c); [| done]. by destruct (sendMail e).
Qed.

Lemma deliver_email_files c e ac a method w :
  files (snd (deliver_email c e ac a method w)) = files w.
Proof.
  unfold deliver_email.
  destruct (_ || _); [| done].
  destruct (requesterEmail ac); [| done].
  destruct (nonempty _); [| done]. apply sendAccountCredentials_files.
Qed.

Lemma sendAccountMemo_files c e recipient a w :
  files (snd (sendAccountMemo c e recipient a w)) = files w.
Proof.
  unfold sendAccountMemo.
  destruct (getAccounts_recipient e) as [[| key rest] | msg]; try done.
  destruct (memo_encode e _ _ _); [| done].
  destruct (leaks _ _); [done |]. by destruct (transfer e).
Qed.

Lemma deliver_memo_files c e rq a method w :
  files (snd (deliver_memo c e rq a method w)) = files w.
Proof.
  unfold deliver_memo.
  destruct (_ || _); [| done].
  destruct (negb (canSendMemo e)); [done |].
  destruct (negb (is_set _)); [done |]. apply sendAccountMemo_files.
Qed.

(** The disk [processAccountRequest] leaves, by the steps it went through. *)
Lemma processAccountRequest_files c e rq w :
  files (processAccountRequest c e rq w) =
    if negb (authorized (r_auth (trace_of c e rq w))) then files w
    else if negb (c_success (r_creation (trace_of c e rq w))) then files w
    else
      let k2 := addPending (pending_of e (r_account (trace_of c e rq w))) (files w) in
      if overallSuccess (delivery_method rq) (r_email (trace_of c e rq w))
                        (r_memo (trace_of c e rq w))
      then removePending (ad_username (r_account (trace_of c e rq w)))
             (snd (useToken (now e) (str (rq_requester rq)) k2))
      else k2.
Proof.
  unfold processAccountRequest, trace_of, deliver_and_settle.
  pose proof (createHiveAccount_files e (requested_username rq)
    (generateAccountKeys e (requested_username rq) (generateMasterPassword (randomBytes e)))
    (creatingAccount c) w) as Hcreate.
  destruct (createHiveAccount _ _ _ _ w) as [cr w1]. simpl in Hcreate.
  match goal with |- context [deliver_email ?c ?e ?ac ?a ?m ?w] =>
    pose proof (deliver_email_files c e ac a m w) as Hmail;
    destruct (deliver_email c e ac a m w) as [er w3] end.
  match goal with |- context [deliver_memo ?c ?e ?rq ?a ?m ?w] =>
    pose proof (deliver_memo_files c e rq a m w) as Hmemo;
    destruct (deliver_memo c e rq a m w) as [mr w4] end.
  simpl in *.
  destruct (negb (authorized _)); [done |].
  destruct (negb (c_success cr)); [done |].
  destruct (overallSuccess _ er mr); simpl; rewrite Hmemo, Hmail, Hcreate; done.
Qed.

Lemma addPending_dataFile r k : dataFile (addPending r k) = dataFile k.
Proof. unfold addPending. apply savePending_other_files. Qed.

Lemma addPending_loadPending r k :
  writable RecoveryFile k = true -> loadPending (addPending r k) = (loadPending k ++ [r])%list.
Proof.
  unfold addPending, savePending, savePending_calls, sys_run, sys_exec. simpl.
  by intros ->.
Qed.

Lemma ledger_dataFile k k' : dataFile k' = dataFile k -> ledger k' = ledger k.
Proof. unfold ledger, loadData. by intros ->. Qed.

Lemma record_of_username c e rq w : username (record_of c e rq w) = requested_username rq.
Proof.
  unfold record_of, trace_of. destruct (createHiveAccount _ _ _ _ w).
  destruct (deliver_email _ _ _ _ _ _). by destruct (deliver_memo _ _ _ _ _ _).
Qed.

(** After a creation that succeeded and a delivery that did not, the disk
    is the one [addPending] left. *)
Lemma undelivered_files c e rq w :
  authorized (r_auth (trace_of c e rq w)) = true ->
  c_success (r_creation (trace_of c e rq w)) = true ->
  delivered c e rq w = false ->
  files (processAccountRequest c e rq w) = addPending (record_of c e rq w) (files w).
Proof.
  unfold delivered, record_of. intros Hauth Hcreated Hfailed.
  rewrite processAccountRequest_files, Hauth, Hcreated, Hfailed. done.
Qed.

Lemma addPending_member r k :
  writable RecoveryFile k = true -> r ∈ loadPending (addPending r k).
Proof.
  intros Hw. rewrite addPending_loadPending by done.
  apply elem_of_app. right. apply list_elem_of_here.
Qed.

(** C1, amended. A request that is authorized and whose account is created,
    but whose delivery computes [overallSuccess = false], leaves the disk
    exactly as [addPending] left it: [removePending] has not run, so the
    record of that user name is in the store whenever the write of
    [addPending] went through, and [useToken] has not run, so the quota
    ledger is untouched. *)
Theorem failed_delivery_keeps_record_and_token c e rq w :
  authorized (r_auth (trace_of c e rq w)) = true ->
  c_success (r_creation (trace_of c e rq w)) = true ->
  delivered c e rq w = false ->
  files (processAccountRequest c e rq w) = addPending (record_of c e rq w) (files w) /\
  username (record_of c e rq w) = requested_username rq /\
  (writable RecoveryFile (files w) = true ->
     record_of c e rq w ∈ loadPending (files (processAccountRequest c e rq w))) /\
  dataFile (files (processAccountRequest c e rq w)) = dataFile (files w) /\
  ledger (files (processAccountRequest c e rq w)) = ledger (files w).
Proof.
  intros Hauth Hcreated Hfailed.
  rewrite (undelivered_files c e rq w Hauth Hcreated Hfailed).
  split; [done |]. split; [apply record_of_username |].
  split; [apply addPending_member |].
  split; [apply addPending_dataFile |].
  apply ledger_dataFile, addPending_dataFile.
Qed.

(** Requester alice asks for 'both'; the mail goes out, the transfer that
    carries the memo is refused. *)
Lemma failed_delivery_keeps_record_and_token_witness :
  files (processAccountRequest sample_config env_memo_refused request_both sample_world)
    = addPending (record_of sample_config env_memo_refused request_both sample_world)
                 (files sample_world) /\
  username (record_of sample_config env_memo_refused request_both sample_world)
    = requested_username request_both /\
  (writable RecoveryFile (files sample_world) = true ->
     record_of sample_config env_memo_refused request_both sample_world
       ∈ loadPending (files (processAccountRequest sample_config env_memo_refused
                               request_both sample_world))) /\
  dataFile (files (processAccountRequest sample_config env_memo_refused request_both sample_world))
    = dataFile (files sample_world) /\
  ledger (files (processAccountRequest sample_config env_memo_refused request_both sample_world))
    = ledger (files sample_world).
Proof.
  apply (failed_delivery_keeps_record_and_token sample_config env_memo_refused
           request_both sample_world); vm_compute; reflexivity.
Defined.

(** C1 as stated fails: the file system refuses the write of [addPending],
    [savePending] catches the error and the request goes on; the account is
    created, both channels fail, and the store holds no record of the new
    account. *)
Lemma refused_write_leaves_no_record :
  authorized (r_auth (trace_of sample_config env_both_refused request_both
                        (mkWorld disk_refusing []))) = true /\
  c_success (r_creation (trace_of sample_config env_both_refused request_both
                           (mkWorld disk_refusing []))) = true /\
  delivered sample_config env_both_refused request_both (mkWorld disk_refusing []) = false /\
  loadPending (files (processAccountRequest sample_config env_both_refused request_both
                        (mkWorld disk_refusing []))) = [] /\
  record_of sample_config env_both_refused request_both (mkWorld disk_refusing [])
    ∉ loadPending (files (processAccountRequest sample_config env_both_refused request_both
                            (mkWorld disk_refusing []))).
Proof.
  assert (loadPending (files (processAccountRequest sample_config env_both_refused
                                request_both (mkWorld disk_refusing []))) = []) as Hnone
    by (vm_compute; reflexivity).
  split; [vm_compute; reflexivity |]. split; [vm_compute; reflexivity |].
  split; [vm_compute; reflexivity |]. split; [exact Hnone |].
  rewrite Hnone. apply not_elem_of_nil.
Qed.

(** C4. When [createHiveAccount] answers with a failure,
    [processAccountRequest] leaves every file as it found it: no pending
    record is added and no token is consumed. *)
Theorem failed_creation_changes_no_file c e rq w :
  c_success (r_creation (trace_of c e rq w)) = false ->
  files (processAccountRequest c e rq w) = files w /\
  loadPending (files (processAccountRequest c e rq w)) = loadPending (files w) /\
  ledger (files (processAccountRequest c e rq w)) = ledger (files w).
Proof.
  intros Hfailed.
  assert (files (processAccountRequest c e rq w) = files w) as ->; [| done].
  rewrite processAccountRequest_files, Hfailed. simpl.
  by destruct (negb (authorized _)).
Qed.

(** The node answers the creation with "missing authority". *)
Lemma failed_creation_changes_no_file_witness :
  files (processAccountRequest sample_config env_creation_refused request_both sample_world)
    = files sample_world /\
  loadPending (files (processAccountRequest sample_config env_creation_refused
                        request_both sample_world)) = loadPending (files sample_world) /\
  ledger (files (processAccountRequest sample_config env_creation_refused
                   request_both sample_world)) = ledger (files sample_world).
Proof.
  apply (failed_creation_changes_no_file sample_config env_creation_refused
           request_both sample_world).
  vm_compute. reflexivity.
Defined.

(** A channel that was not asked for answers [{ success: false }]. *)
Lemma trace_of_single_email c e rq w :
  delivery_method rq = VStr "email" -> r_memo (trace_of c e rq w) = mkDelivery false None.
Proof.
  intros Hm. unfold trace_of. destruct (createHiveAccount _ _ _ _ w).
  destruct (deliver_email _ _ _ _ _ _). rewrite Hm. done.
Qed.

Lemma trace_of_single_memo c e rq w :
  delivery_method rq = VStr "hive_memo" -> r_email (trace_of c e rq w) = mkDelivery false None.
Proof.
  intros Hm. unfold trace_of. destruct (createHiveAccount _ _ _ _ w).
  rewrite Hm. simpl. by destruct (deliver_memo _ _ _ _ _ _).
Qed.

(** C6, amended. Whatever the two channels answer: with method 'both',
    [overallSuccess] is the conjunction of the answers, with any other
    method their disjunction; in a request for 'email' it is the answer of
    the email channel, in a request for 'hive_memo' that of the memo channel.
    With 'both' and exactly one channel succeeding, [overallSuccess] is false
    and the disk is as [addPending] left it, the record being there whenever
    its write went through. *)
Theorem overallSuccess_policy c e rq w emailResult memoResult :
  overallSuccess (VStr "both") emailResult memoResult
    = success emailResult && success memoResult /\
  overallSuccess (VStr "email") emailResult memoResult
    = success emailResult || success memoResult /\
  overallSuccess (VStr "hive_memo") emailResult memoResult
    = success emailResult || success memoResult /\
  (delivery_method rq = VStr "email" ->
     delivered c e rq w = success (r_email (trace_of c e rq w))) /\
  (delivery_method rq = VStr "hive_memo" ->
     delivered c e rq w = success (r_memo (trace_of c e rq w))) /\
  (delivery_method rq = VStr "both" ->
   authorized (r_auth (trace_of c e rq w)) = true ->
   c_success (r_creation (trace_of c e rq w)) = true ->
   xorb (success (r_email (trace_of c e rq w))) (success (r_memo (trace_of c e rq w))) = true ->
     delivered c e rq w = false /\
     files (processAccountRequest c e rq w) = addPending (record_of c e rq w) (files w) /\
     username (record_of c e rq w) = requested_username rq /\
     (writable RecoveryFile (files w) = true ->
        record_of c e rq w ∈ loadPending (files (processAccountRequest c e rq w)))).
Proof.
  split; [done |]. split; [done |]. split; [done |].
  split; [| split].
  - intros Hm. unfold delivered.
    rewrite (trace_of_single_email c e rq w Hm), Hm. simpl. apply orb_false_r.
  - intros Hm. unfold delivered.
    rewrite (trace_of_single_memo c e rq w Hm), Hm. done.
  - intros Hm Hauth Hcreated Hx.
    assert (delivered c e rq w = false) as Hfailed.
    { unfold delivered, overallSuccess. rewrite Hm. simpl.
      destruct (success (r_email _)), (success (r_memo _)); simpl in *; congruence. }
    split; [done |].
    rewrite (undelivered_files c e rq w Hauth Hcreated Hfailed).
    split; [done |]. split; [apply record_of_username | apply addPending_member].
Qed.

(** 'both' is asked for, the mail goes out and the memo transfer is refused. *)
Lemma overallSuccess_policy_witness :
  delivered sample_config env_memo_refused request_both sample_world = false /\
  record_of sample_config env_memo_refused request_both sample_world
    ∈ loadPending (files (processAccountRequest sample_config env_memo_refused
                            request_both sample_world)).
Proof.
  destruct (overallSuccess_policy sample_config env_memo_refused request_both sample_world
              (mkDelivery true None) (mkDelivery false (Some "transfer refused")))
    as (_ & _ & _ & _ & _ & H).
  destruct H as (Hover & _ & _ & Hin); [vm_compute; reflexivity .. |].
  split; [exact Hover | apply Hin; vm_compute; reflexivity].
Defined.

(** C6 as stated fails in its last part: 'both' is asked for, the mail
    goes out and the memo transfer is refused, so [overallSuccess] is false;
    the write of [addPending] ran out of space, [savePending] caught the
    error, and the recovery file is cut short: no record can be read from
    it, neither the new one nor the one it held. *)
Lemma cut_short_write_leaves_no_record_for_both :
  delivery_method request_both = VStr "both" /\
  authorized (r_auth (trace_of sample_config env_memo_refused request_both
                        (mkWorld disk_no_space []))) = true /\
  c_success (r_creation (trace_of sample_config env_memo_refused request_both
                           (mkWorld disk_no_space []))) = true /\
  success (r_email (trace_of sample_config env_memo_refused request_both
                      (mkWorld disk_no_space []))) = true /\
  success (r_memo (trace_of sample_config env_memo_refused request_both
                     (mkWorld disk_no_space []))) = false /\
  delivered sample_config env_memo_refused request_both (mkWorld disk_no_space []) = false /\
  loadPending disk_no_space = [record_one] /\
  recoveryFile (files (processAccountRequest sample_config env_memo_refused request_both
                         (mkWorld disk_no_space []))) = Garbage /\
  record_of sample_config env_memo_refused request_both (mkWorld disk_no_space [])
    ∉ loadPending (files (processAccountRequest sample_config env_memo_refused request_both
                            (mkWorld disk_no_space []))).
Proof.
  assert (loadPending (files (processAccountRequest sample_config env_memo_refused
                                request_both (mkWorld disk_no_space []))) = []) as Hnone
    by (vm_compute; reflexivity).
  repeat (split; [vm_compute; reflexivity |]).
  rewrite Hnone. apply not_elem_of_nil.
Qed.

End Pipeline.

(* ===================================================================== *)
(** * Block stream *)
(* ===================================================================== *)

Section Stream.

Lemma saveLastBlock_cursor stamp force m k :
  lastProcessedBlock (fst (saveLastBlock stamp force m k)) = lastProcessedBlock m /\
  isRunning (fst (saveLastBlock stamp force m k)) = isRunning m.
Proof.
  unfold saveLastBlock.
  destruct (_ <=? 0); [done |].
  destruct (_ && _); [done |].
  by destruct (sys_run _ k).
Qed.

Lemma stop_cursor stamp s :
  lastProcessedBlock (mon (stop stamp s)) = lastProcessedBlock (mon s) /\
  effects (wld (stop stamp s)) = effects (wld s).
Proof.
  unfold stop.
  pose proof (saveLastBlock_cursor stamp true (mon s) (files (wld s))) as [H _].
  destruct (saveLastBlock _ _ _ _) as [m k]. simpl in *. done.
Qed.

Lemma await_block_cursor t s :
  lastProcessedBlock (mon (await_block t s)) = lastProcessedBlock (mon s) /\
  effects (wld (await_block t s))
    = (effects (wld s) ++ [GetBlock (lastProcessedBlock (mon s) + 1)])%list /\
  (stop_requested t = false -> isRunning (mon (await_block t s)) = isRunning (mon s)).
Proof.
  unfold await_block. destruct (stop_requested t).
  - match goal with |- context [stop ?a ?b] => destruct (stop_cursor a b) as [-> ->] end.
    done.
  - done.
Qed.

(** A pass that gets no block leaves the monitor as the wait left it. *)
Lemma iteration_no_block c t s :
  no_block t (lastProcessedBlock (mon s) + 1) ->
  mon (iteration c t s) = mon (await_block t s) /\
  files (wld (iteration c t s)) = files (wld (await_block t s)) /\
  exists ms, (ms = 3000 \/ ms = 5000) /\
    effects (wld (iteration c t s)) = (effects (wld (await_block t s)) ++ [Sleep ms])%list.
Proof.
  unfold iteration, streamBlocks_try. intros [-> | [msg ->]]; simpl.
  - repeat split. exists 3000. auto.
  - repeat split. exists 5000. auto.
Qed.

(** A pass moves the cursor only by fetching the next block and running
    [processBlock] on it to the end. *)
Lemma iteration_advance c t s :
  lastProcessedBlock (mon (iteration c t s)) <> lastProcessedBlock (mon s) ->
  exists b w',
    getBlock t (lastProcessedBlock (mon s) + 1) = Ok (Some b) /\
    processBlock c (answers t) b (lastProcessedBlock (mon s) + 1) (wld (await_block t s))
      = (Ok (), w') /\
    lastProcessedBlock (mon (iteration c t s)) = lastProcessedBlock (mon s) + 1 /\
    effects (wld (iteration c t s)) = effects w'.
Proof.
  unfold iteration, streamBlocks_try.
  destruct (await_block_cursor t s) as (Hcur & _ & _).
  destruct (getBlock t _) as [[b |] | msg]; simpl; try (rewrite Hcur; congruence).
  destruct (processBlock _ _ _ _ _) as [[[] | msg] w'] eqn:Hp; simpl;
    try (rewrite Hcur; congruence).
  intros _. exists b, w'. split; [done |]. split; [done |].
  destruct (Z.rem _ _ =? 0); [| done].
  match goal with |- context [saveLastBlock ?a ?b ?m ?k] =>
    pose proof (saveLastBlock_cursor a b m k) as [Hs _];
    destruct (saveLastBlock a b m k) as [m'' k''] end.
  simpl in *. done.
Qed.

(** C8. A pass of the loop whose fetch of block [lastProcessedBlock + 1]
    brings no block, or throws, leaves [lastProcessedBlock] as it was and
    does not touch [isRunning]: unless [stop()] was called meanwhile, the
    loop goes on to the next pass, whose first call asks for the same
    height. A pass that changes [lastProcessedBlock] has fetched that block
    and run [processBlock] on it to its end, and moves the cursor by one. *)
Theorem stream_retries_on_miss_and_advances_after_processing c t s :
  (no_block t (lastProcessedBlock (mon s) + 1) ->
     lastProcessedBlock (mon (iteration c t s)) = lastProcessedBlock (mon s) /\
     isRunning (mon (iteration c t s)) = isRunning (mon (await_block t s)) /\
     (stop_requested t = false ->
        isRunning (mon (iteration c t s)) = isRunning (mon s) /\
        forall t' ts, isRunning (mon s) = true ->
          streamBlocks c (t :: t' :: ts) s
            = streamBlocks c ts (iteration c t' (iteration c t s))) /\
     (forall t', effects (wld (await_block t' (iteration c t s)))
        = (effects (wld (iteration c t s))
             ++ [GetBlock (lastProcessedBlock (mon s) + 1)])%list)) /\
  (lastProcessedBlock (mon (iteration c t s)) <> lastProcessedBlock (mon s) ->
     exists b w',
       getBlock t (lastProcessedBlock (mon s) + 1) = Ok (Some b) /\
       processBlock c (answers t) b (lastProcessedBlock (mon s) + 1)
                    (wld (await_block t s)) = (Ok (), w') /\
       lastProcessedBlock (mon (iteration c t s)) = lastProcessedBlock (mon s) + 1 /\
       effects (wld (iteration c t s)) = effects w').
Proof.
  split; [| apply iteration_advance].
  intros Hmiss.
  destruct (iteration_no_block c t s Hmiss) as (Hmon & _ & _).
  destruct (await_block_cursor t s) as (Hcur & _ & Hrun).
  assert (lastProcessedBlock (mon (iteration c t s)) = lastProcessedBlock (mon s)) as Hsame
    by (by rewrite Hmon).
  split; [done |]. split; [by rewrite Hmon |]. split.
  - intros Hstop. rewrite Hmon, (Hrun Hstop). split; [done |].
    intros t' ts Hon. simpl. rewrite Hon, Hmon, (Hrun Hstop), Hon. done.
  - intros t'. destruct (await_block_cursor t' (iteration c t s)) as (_ & -> & _).
    by rewrite Hsame.
Qed.

(** Block 101 is not there yet, twice in a row. *)
Lemma stream_retries_on_miss_and_advances_after_processing_witness :
  lastProcessedBlock (mon (iteration sample_config tick_not_yet sample_service)) = 100 /\
  isRunning (mon (iteration sample_config tick_not_yet sample_service)) = true /\
  effects (wld (iteration sample_config tick_not_yet
                  (iteration sample_config tick_not_yet sample_service)))
    = [GetBlock 101; Sleep 3000; GetBlock 101; Sleep 3000].
Proof.
  destruct (stream_retries_on_miss_and_advances_after_processing
              sample_config tick_not_yet sample_service) as [H _].
  destruct H as (Hcur & _ & Hrun & _); [left; reflexivity |].
  destruct (Hrun eq_refl) as [Hon _].
  split; [exact Hcur |]. split; [exact Hon |]. vm_compute. reflexivity.
Defined.

(** A block that [processBlock] cannot finish is not skipped: the pass
    waits five seconds and the cursor stays. *)
Lemma iteration_malformed_block_retried :
  lastProcessedBlock (mon (iteration sample_config tick_malformed sample_service)) = 100 /\
  effects (wld (iteration sample_config tick_malformed sample_service))
    = [GetBlock 101; Sleep 5000].
Proof. vm_compute. done. Qed.

End Stream.

(* ===================================================================== *)
(** * Further properties *)
(* ===================================================================== *)

Section QuotaMore.

Implicit Types (k : disk) (d : data) (u : user) (name : string).

Lemma saveData_writable now d k :
  writable DataFile k = true ->
  saveData now d k
    = (true, mkDisk (recoveryFile k) (Doc (UserManager.stamp now d)) (lastBlockFile k)
                    (lastBlockTmp k) (faults k)).
Proof. unfold saveData, sys_run, sys_exec. simpl. by intros ->. Qed.

Lemma saveData_failed now d k :
  writable DataFile k = false ->
  saveData now d k = (false, sys_torn (WriteData (UserManager.stamp now d)) k).
Proof. unfold saveData, sys_run, sys_exec. simpl. by intros ->. Qed.

(** What a failed write of the ledger leaves. *)
Lemma sys_torn_data d k :
  sys_torn (WriteData d) k = k \/ dataFile (sys_torn (WriteData d) k) = Garbage.
Proof. unfold sys_torn. simpl. destruct (bool_decide _); [by left | by right]. Qed.

Lemma ledger_lookup k name u :
  ledger k !! name = Some u ->
  exists d, loadData k = Some d /\ authorized_users d !! name = Some u.
Proof.
  unfold ledger. destruct (loadData k) as [d|]; [eauto |].
  by rewrite lookup_empty.
Qed.

Lemma lookup_user_own d name u :
  authorized_users d !! name = Some u -> lookup_user d name = Own u.
Proof. unfold lookup_user. by intros ->. Qed.

Lemma lookup_user_absent d name :
  authorized_users d !! name = None -> name ∉ object_prototype_keys ->
  lookup_user d name = Absent.
Proof. unfold lookup_user. intros -> H. by rewrite bool_decide_eq_false_2. Qed.

Lemma lookup_user_inherited d name :
  authorized_users d !! name = None -> name ∈ object_prototype_keys ->
  lookup_user d name = Inherited.
Proof. unfold lookup_user. intros -> H. by rewrite bool_decide_eq_true_2. Qed.

(** X1. [useToken] answers [true] exactly when the ledger loads, the write
    goes through, and the name has a record with a positive
    [tokens_remaining] or, having no record, is one of the names every
    object inherits, such as [constructor]; whether a record is active plays
    no part. When it answers [false] the disk is as it was, unless the write
    failed in the middle, which leaves the ledger cut short. *)
Theorem useToken_true_iff now name k :
  (fst (useToken now name k) = true <->
     ((exists u, ledger k !! name = Some u /\ 0 < tokens_remaining u) \/
      (is_Some (loadData k) /\ ledger k !! name = None /\ name ∈ object_prototype_keys)) /\
     writable DataFile k = true) /\
  (fst (useToken now name k) = false ->
     snd (useToken now name k) = k \/
     (writable DataFile k = false /\ dataFile (snd (useToken now name k)) = Garbage)).
Proof.
  unfold useToken, ledger, lookup_user.
  destruct (loadData k) as [d|] eqn:Hload; simpl.
  2: { split; [| by left]. split; [done |]. intros [[(u & Hu & _) | ([? ?] & _)] _]; [| done].
       by rewrite lookup_empty in Hu. }
  assert (forall d0,
    (fst (saveData now d0 k) = true <-> writable DataFile k = true) /\
    (fst (saveData now d0 k) = false ->
       snd (saveData now d0 k) = k \/
       (writable DataFile k = false /\ dataFile (snd (saveData now d0 k)) = Garbage)))
    as Hsave.
  { intros d0. destruct (writable DataFile k) eqn:Hw.
    - by rewrite saveData_writable.
    - rewrite saveData_failed by done. simpl. split; [done |]. intros _.
      destruct (sys_torn_data (UserManager.stamp now d0) k) as [-> | ->]; auto. }
  destruct (authorized_users d !! name) as [u|] eqn:Hu; simpl.
  - destruct (Z.leb_spec (tokens_remaining u) 0) as [Hle | Hlt]; simpl.
    { split; [| by left]. split; [done |].
      intros [[(u' & [= <-] & ?) | (_ & ? & _)] _]; [lia | done]. }
    destruct (Hsave (mkData (<[name:=mkUser (tokens_allocated u) (js_add (tokens_used u) 1)
                                       (js_sub (tokens_remaining u) 1) (email u) (created_at u)
                                       (Some now) (is_active u) (notes u)]> (authorized_users d))
                            (set_total_tokens_used (js_add (total_tokens_used (metadata d)) 1)
                                                   (metadata d)))) as [Hiff Hfalse].
    split; [| done]. rewrite Hiff. split; [eauto | tauto].
  - destruct (decide (name ∈ object_prototype_keys)) as [Hin | Hout].
    + rewrite bool_decide_eq_true_2 by done.
      destruct (Hsave (mkData (authorized_users d)
                              (set_total_tokens_used (js_add (total_tokens_used (metadata d)) 1)
                                                     (metadata d)))) as [Hiff Hfalse].
      split; [| done]. rewrite Hiff. split; [eauto 10 | tauto].
    + rewrite bool_decide_eq_false_2 by done. simpl. split; [| by left].
      split; [done |]. intros [[(u & ? & _) | (_ & _ & ?)] _]; done.
Qed.

(** On the sample ledger, which holds no record of that name,
    [useToken("constructor")] answers [true]: the records are as they were
    and [total_tokens_used] goes from 3 to 4. *)
Lemma useToken_constructor :
  ledger sample_disk !! "constructor" = None /\
  fst (useToken noon "constructor" sample_disk) = true /\
  ledger (snd (useToken noon "constructor" sample_disk)) = ledger sample_disk /\
  total_tokens_used <$> (metadata <$> loadData (snd (useToken noon "constructor" sample_disk)))
    = Some 4.
Proof. vm_compute. done. Qed.

(** X2. When [checkAuthorization] grants a requester and the ledger can be
    written, [useToken] succeeds on the record that [user_info] showed:
    [tokens_used + 1] and [tokens_remaining - 1] as JavaScript computes
    them, which is exactly as long as the counts are within 2^53,
    [last_used] stamped, and [total_tokens_used] one higher while
    [total_tokens_allocated] stays. *)
Theorem useToken_follows_authorization now name k :
  authorized (checkAuthorization name k) = true ->
  writable DataFile k = true ->
  exists u d,
    user_info (checkAuthorization name k) = Some u /\
    loadData k = Some d /\
    fst (useToken now name k) = true /\
    ledger (snd (useToken now name k)) !! name
      = Some (mkUser (tokens_allocated u) (js_add (tokens_used u) 1)
                     (js_sub (tokens_remaining u) 1)
                     (email u) (created_at u) (Some now) (is_active u) (notes u)) /\
    (safe (tokens_used u + 1) -> js_add (tokens_used u) 1 = tokens_used u + 1) /\
    (safe (tokens_remaining u - 1) -> js_sub (tokens_remaining u) 1 = tokens_remaining u - 1) /\
    (exists d', loadData (snd (useToken now name k)) = Some d' /\
       total_tokens_used (metadata d') = js_add (total_tokens_used (metadata d)) 1 /\
       total_tokens_allocated (metadata d') = total_tokens_allocated (metadata d)).
Proof.
  unfold checkAuthorization, useToken. intros Hauth Hw.
  destruct (loadData k) as [d|] eqn:Hload; [| done].
  destruct (lookup_user d name) as [u | |] eqn:Hu; [| done | done].
  destruct (negb (is_active u)); [done |].
  destruct (tokens_remaining u <=? 0); [done |].
  exists u, d. rewrite saveData_writable by done. simpl.
  repeat split; try done.
  - unfold ledger, loadData. simpl. by rewrite lookup_insert_eq.
  - apply js_add_safe.
  - apply js_sub_safe.
  - eexists. split; [reflexivity | done].
Qed.

(** X2 at a sample input. *)
Lemma useToken_follows_authorization_witness :
  exists u d,
    user_info (checkAuthorization "alice" sample_disk) = Some u /\
    loadData sample_disk = Some d /\
    fst (useToken noon "alice" sample_disk) = true /\
    ledger (snd (useToken noon "alice" sample_disk)) !! "alice"
      = Some (mkUser (tokens_allocated u) (js_add (tokens_used u) 1)
                     (js_sub (tokens_remaining u) 1)
                     (email u) (created_at u) (Some noon) (is_active u) (notes u)) /\
    (safe (tokens_used u + 1) -> js_add (tokens_used u) 1 = tokens_used u + 1) /\
    (safe (tokens_remaining u - 1) -> js_sub (tokens_remaining u) 1 = tokens_remaining u - 1) /\
    (exists d', loadData (snd (useToken noon "alice" sample_disk)) = Some d' /\
       total_tokens_used (metadata d') = js_add (total_tokens_used (metadata d)) 1 /\
       total_tokens_allocated (metadata d') = total_tokens_allocated (metadata d)).
Proof.
  apply (useToken_follows_authorization noon "alice" sample_disk); vm_compute; reflexivity.
Defined.

(** X3. useToken, addUser, giveTokens and setTokens leave the record of every
    requester other than the one they name as it was, unless their write
    fails in the middle, which leaves a ledger that cannot be read. *)
Theorem mutation_touches_only_its_subject now m k name :
  name <> subject m ->
  ledger (mutate now m k) !! name = ledger k !! name \/
  (writable DataFile k = false /\ dataFile (mutate now m k) = Garbage).
Proof.
  intros Hne. destruct (mutate_lookup now m k name) as [H | [H | H]]; [by left | by right |].
  destruct m, (ledger k !! name); simpl in *; try done;
    destruct H as [-> _]; done.
Qed.

(** X3 at a sample input. *)
Lemma mutation_touches_only_its_subject_witness :
  ledger (mutate noon (SetTokens "bob" 9) sample_disk) !! "alice"
    = ledger sample_disk !! "alice" \/
  (writable DataFile sample_disk = false /\
   dataFile (mutate noon (SetTokens "bob" 9) sample_disk) = Garbage).
Proof.
  apply (mutation_touches_only_its_subject noon (SetTokens "bob" 9) sample_disk "alice").
  discriminate.
Defined.

End QuotaMore.

Section Totals.

Implicit Types (k : disk) (d : data) (u : user) (name : string) (f : user -> Z).

Lemma sum_over_insert_fresh f (users : gmap string user) name u :
  users !! name = None -> sum_over f (<[name := u]> users) = f u + sum_over f users.
Proof.
  intros Hfresh. unfold sum_over.
  rewrite map_fold_insert_L; [done | intros; lia | done].
Qed.

Lemma sum_over_insert_update f (users : gmap string user) name u0 u :
  users !! name = Some u0 ->
  sum_over f (<[name := u]> users) = sum_over f users - f u0 + f u.
Proof.
  intros Hold.
  rewrite <- (insert_delete_eq users name u).
  rewrite sum_over_insert_fresh by apply lookup_delete_eq.
  unfold sum_over at 2.
  rewrite (map_fold_delete_L _ _ name u0 users); [| intros; lia | done].
  fold (sum_over f (delete name users)). lia.
Qed.

Lemma size_insert_update (users : gmap string user) name u0 u :
  users !! name = Some u0 -> size (<[name := u]> users) = size users.
Proof. intros H. apply map_size_insert_Some. eauto. Qed.

(** After a save the ledger holds the stamped document, or the disk is as
    it was, or the ledger is cut short. *)
Lemma saveData_document now d k :
  loadData (snd (saveData now d k)) = Some (UserManager.stamp now d) \/
  snd (saveData now d k) = k \/
  loadData (snd (saveData now d k)) = None.
Proof.
  destruct (writable DataFile k) eqn:Hw.
  - left. by rewrite saveData_writable.
  - right. rewrite saveData_failed by done. simpl.
    destruct (sys_torn_data (UserManager.stamp now d) k) as [-> | H]; [by left | right].
    unfold loadData. by rewrite H.
Qed.

Ltac saved_document Hsame :=
  match goal with |- context [saveData ?s ?x ?y] =>
    destruct (saveData_document s x y) as [-> | [-> | ->]] end;
  [intros [= <-] | by apply Hsame | done].

Ltac all_safe H :=
  simpl in H;
  repeat match type of H with
         | Forall _ (_ :: _) => let H1 := fresh "Hsafe" in apply Forall_cons in H as [H1 H]
         end;
  repeat first [rewrite js_sub_safe by done | rewrite js_add_safe by done].

(** X4. If the aggregate block agrees with the records (number of requesters,
    sum of tokens allocated, sum of tokens used), it still does after
    useToken, addUser, giveTokens or setTokens, whether the save went
    through or not, provided the name is none of those every object
    inherits and the sums the operation computes are within 2^53. *)
Theorem totals_consistent_preserved now m k d d' :
  loadData k = Some d ->
  totals_consistent d ->
  subject m ∉ object_prototype_keys ->
  Forall safe (sums m d) ->
  loadData (mutate now m k) = Some d' ->
  totals_consistent d'.
Proof.
  intros Hload (Hsize & Halloc & Hused) Hown Hsafe.
  assert (forall d0, loadData k = Some d0 -> totals_consistent d0) as Hsame.
  { intros d0 H0. rewrite Hload in H0. injection H0 as <-. done. }
  unfold sums in Hsafe. rewrite Halloc in Hsafe. simpl in Hsafe.
  destruct m as [n | n tokens mail note | n a | n t];
    unfold mutate;
    [unfold useToken | unfold addUser | unfold giveTokens | unfold setTokens];
    rewrite Hload; simpl in Hown, Hsafe;
    (destruct (authorized_users d !! n) as [u |] eqn:Hn;
     [rewrite (lookup_user_own _ _ _ Hn) | rewrite (lookup_user_absent _ _ Hn Hown)];
     cbn [fst snd]; try (by apply Hsame)).
  - destruct (tokens_remaining u <=? 0); [by apply Hsame |].
    saved_document Hsame. unfold totals_consistent. simpl.
    rewrite (size_insert_update _ _ _ _ Hn), !(sum_over_insert_update _ _ _ _ _ Hn).
    simpl. all_safe Hsafe. rewrite Halloc. split; [done |]. split; [apply (f_equal Some) |]; lia.
  - match goal with |- context [saveData ?s ?x ?y] =>
      pose proof (saveData_document s x y) as Hs; destruct (saveData s x y) as [saved k'] end.
    cbn [fst snd] in *. destruct Hs as [-> | [-> | ->]]; [intros [= <-] | by apply Hsame | done].
    unfold totals_consistent. simpl.
    rewrite (map_size_insert_None _ _ _ Hn), !(sum_over_insert_fresh _ _ _ _ Hn).
    simpl. unfold total_add. rewrite Halloc. simpl. all_safe Hsafe.
    split; [lia |]. split; [apply (f_equal Some) |]; lia.
  - saved_document Hsame. unfold totals_consistent. simpl.
    rewrite (size_insert_update _ _ _ _ Hn), !(sum_over_insert_update _ _ _ _ _ Hn).
    simpl. unfold total_add. rewrite Halloc. simpl. all_safe Hsafe.
    split; [done |]. split; [apply (f_equal Some) |]; lia.
  - saved_document Hsame. unfold totals_consistent. simpl.
    rewrite (size_insert_update _ _ _ _ Hn), !(sum_over_insert_update _ _ _ _ _ Hn).
    simpl. unfold total_add. rewrite Halloc. simpl. all_safe Hsafe.
    split; [done |]. split; [apply (f_equal Some) |]; lia.
Qed.

(** X4 at a sample input. *)
Lemma totals_consistent_preserved_witness :
  totals_consistent
    (UserManager.stamp noon
       (mkData (<["bob" := mkUser 7 0 7 None noon None true ""]> (authorized_users sample_data))
               (mkMetadata "2025-01-01T00:00:00.000Z" "2025-01-01T00:00:00.000Z" 2 (Some 12) 3))).
Proof.
  apply (totals_consistent_preserved noon (AddUser "bob" 7 None "") sample_disk sample_data).
  - reflexivity.
  - vm_compute. done.
  - vm_compute. intros H. repeat (apply elem_of_cons in H as [H | H]; [discriminate |]).
    by apply elem_of_nil in H.
  - repeat constructor; vm_compute; discriminate.
  - vm_compute. reflexivity.
Defined.

End Totals.

Section QuotaAdmin.

Implicit Types (k : disk) (d : data) (u : user) (name : string).

(** X5. [addUser] on a name that has a record, or on a name every object
    inherits, answers [success: false] and leaves the disk as it was. On
    any other name, the ledger being writable, it stores a record with
    nothing used, all tokens remaining, active and never used; the new
    requester is authorized exactly when the tokens given are positive. *)
Theorem addUser_never_overwrites now name tokens mail note k :
  (forall u, ledger k !! name = Some u ->
     addUser now name tokens mail note k = (Some false, k)) /\
  (forall d, loadData k = Some d -> name ∈ object_prototype_keys ->
     addUser now name tokens mail note k = (Some false, k)) /\
  (forall d, loadData k = Some d -> authorized_users d !! name = None ->
     name ∉ object_prototype_keys ->
     writable DataFile k = true ->
     fst (addUser now name tokens mail note k) = Some true /\
     ledger (snd (addUser now name tokens mail note k)) !! name
       = Some (mkUser tokens 0 tokens mail now None true note) /\
     (authorized (checkAuthorization name (snd (addUser now name tokens mail note k))) = true
        <-> 0 < tokens)).
Proof.
  split; [| split].
  - intros u Hu. apply ledger_lookup in Hu as (d & Hload & Hu).
    unfold addUser. by rewrite Hload, (lookup_user_own _ _ _ Hu).
  - intros d Hload Hin. unfold addUser, lookup_user. rewrite Hload.
    destruct (authorized_users d !! name); [done |]. by rewrite bool_decide_eq_true_2.
  - intros d Hload Hfresh Hout Hw. unfold addUser.
    rewrite Hload, (lookup_user_absent _ _ Hfresh Hout).
    rewrite saveData_writable by done. cbn [fst snd].
    split; [done |].
    unfold checkAuthorization, ledger, loadData, lookup_user. simpl.
    rewrite lookup_insert_eq. simpl.
    split; [done |].
    destruct (Z.leb_spec tokens 0); simpl; split; (done || lia).
Qed.

(** X5 at a sample input. *)
Lemma addUser_never_overwrites_witness :
  addUser noon "alice" 9 None "" sample_disk = (Some false, sample_disk) /\
  addUser noon "constructor" 9 None "" sample_disk = (Some false, sample_disk) /\
  fst (addUser noon "bob" 7 None "" sample_disk) = Some true.
Proof.
  split; [| split].
  - destruct (addUser_never_overwrites noon "alice" 9 None "" sample_disk) as [H _].
    eapply H. vm_compute. reflexivity.
  - destruct (addUser_never_overwrites noon "constructor" 9 None "" sample_disk)
      as (_ & H & _).
    eapply H; [reflexivity | apply list_elem_of_here].
  - destruct (addUser_never_overwrites noon "bob" 7 None "" sample_disk) as (_ & _ & H).
    eapply H; [reflexivity | reflexivity | | reflexivity].
    intros Hin. repeat (apply elem_of_cons in Hin as [Hin | Hin]; [discriminate |]).
    by apply elem_of_nil in Hin.
Defined.

(** X6. Deactivating a requester changes [is_active] and nothing else in the
    record, makes [checkAuthorization] answer "User account is deactivated",
    and leaves the other records alone; activating again gives the record
    back with [is_active] set. *)
Theorem setUserStatus_switches_authorization now name k u :
  ledger k !! name = Some u ->
  writable DataFile k = true ->
  ledger (snd (setUserStatus now name false k)) !! name = Some (with_status false u) /\
  checkAuthorization name (snd (setUserStatus now name false k))
    = denied "User account is deactivated" /\
  ledger (snd (setUserStatus now name true (snd (setUserStatus now name false k)))) !! name
    = Some (with_status true u) /\
  (forall other, other <> name ->
     ledger (snd (setUserStatus now name false k)) !! other = ledger k !! other).
Proof.
  intros Hu Hw. apply ledger_lookup in Hu as (d & Hload & Hu).
  assert (snd (setUserStatus now name false k)
          = mkDisk (recoveryFile k)
              (Doc (UserManager.stamp now
                      (mkData (<[name := with_status false u]> (authorized_users d)) (metadata d))))
              (lastBlockFile k) (lastBlockTmp k) (faults k)) as ->.
  { unfold setUserStatus. rewrite Hload, (lookup_user_own _ _ _ Hu).
    by rewrite saveData_writable. }
  split; [unfold ledger, loadData; simpl; by rewrite lookup_insert_eq |].
  split; [unfold checkAuthorization, loadData, lookup_user; simpl;
          by rewrite lookup_insert_eq |].
  split.
  - unfold setUserStatus at 1. unfold loadData at 1, lookup_user. simpl.
    rewrite lookup_insert_eq.
    rewrite saveData_writable by done.
    unfold ledger, loadData. simpl. by rewrite lookup_insert_eq.
  - intros other Hne. unfold ledger at 1. unfold loadData at 1. simpl.
    rewrite lookup_insert_ne by done. unfold ledger. by rewrite Hload.
Qed.

(** X6 at a sample input. *)
Lemma setUserStatus_switches_authorization_witness :
  ledger (snd (setUserStatus noon "alice" false sample_disk)) !! "alice"
    = Some (with_status false alice) /\
  checkAuthorization "alice" (snd (setUserStatus noon "alice" false sample_disk))
    = denied "User account is deactivated" /\
  ledger (snd (setUserStatus noon "alice" true
                 (snd (setUserStatus noon "alice" false sample_disk)))) !! "alice"
    = Some (with_status true alice) /\
  (forall other, other <> "alice" ->
     ledger (snd (setUserStatus noon "alice" false sample_disk)) !! other
       = ledger sample_disk !! other).
Proof.
  apply (setUserStatus_switches_authorization noon "alice" sample_disk alice);
    vm_compute; reflexivity.
Defined.

(** X7. On a record with [tokens_used + tokens_remaining = tokens_allocated],
    [setTokens(name, newTotal)] answers with the same [success] and leaves
    the same disk as [giveTokens(name, newTotal - tokens_allocated)], when
    the new total and the difference are within 2^53. (The messages of the
    two answers differ; they are not part of the model.) *)
Theorem setTokens_is_a_grant_of_the_difference now name newTotal k u :
  ledger k !! name = Some u ->
  balanced u ->
  safe newTotal ->
  safe (newTotal - tokens_allocated u) ->
  fst (setTokens now name newTotal k)
    = fst (giveTokens now name (newTotal - tokens_allocated u) k) /\
  snd (setTokens now name newTotal k)
    = snd (giveTokens now name (newTotal - tokens_allocated u) k).
Proof.
  intros Hu Hbal Ht Hdiff. apply ledger_lookup in Hu as (d & Hload & Hu).
  assert (setTokens now name newTotal k
          = giveTokens now name (newTotal - tokens_allocated u) k) as ->; [| done].
  unfold setTokens, giveTokens. rewrite Hload, (lookup_user_own _ _ _ Hu).
  unfold balanced in Hbal.
  rewrite (js_sub_safe newTotal (tokens_allocated u)) by done.
  assert (js_add (tokens_allocated u) (newTotal - tokens_allocated u) = newTotal) as ->.
  { unfold js_add. replace (tokens_allocated u + (newTotal - tokens_allocated u))
      with newTotal by lia. by apply to_double_safe. }
  assert (js_add (tokens_remaining u) (newTotal - tokens_allocated u)
          = js_sub newTotal (tokens_used u)) as ->.
  { unfold js_add, js_sub. f_equal. lia. }
  done.
Qed.

(** X7 at a sample input. *)
Lemma setTokens_is_a_grant_of_the_difference_witness :
  fst (setTokens noon "alice" 9 sample_disk)
    = fst (giveTokens noon "alice" (9 - tokens_allocated alice) sample_disk) /\
  snd (setTokens noon "alice" 9 sample_disk)
    = snd (giveTokens noon "alice" (9 - tokens_allocated alice) sample_disk).
Proof.
  apply (setTokens_is_a_grant_of_the_difference noon "alice" 9 sample_disk alice).
  - vm_compute. reflexivity.
  - reflexivity.
  - vm_compute. split; discriminate.
  - vm_compute. split; discriminate.
Defined.

End QuotaAdmin.

Section AdminTool.
Import Admin.

Implicit Types (k : disk) (u : user) (name : string).

Lemma ensureDataFile_ledger now k : ledger (ensureDataFile now k) = ledger k.
Proof.
  unfold ensureDataFile, ledger, loadData.
  destruct (dataFile k) eqn:Hf; rewrite ?Hf; try done.
  destruct (writable DataFile k) eqn:Hw.
  - by rewrite saveData_writable.
  - rewrite saveData_failed by done. simpl. unfold sys_torn. simpl.
    destruct (bool_decide _); simpl; by rewrite ?Hf.
Qed.

Lemma ensureDataFile_faults now k : faults (ensureDataFile now k) = faults k.
Proof.
  unfold ensureDataFile. destruct (dataFile k); try done. apply saveData_other_files.
Qed.

Lemma ensureDataFile_garbage now k :
  dataFile k = Garbage -> ensureDataFile now k = k.
Proof. unfold ensureDataFile. by intros ->. Qed.

Lemma writable_faults p k k' : faults k' = faults k -> writable p k' = writable p k.
Proof. unfold writable. by intros ->. Qed.

(** A ledger that is cut short stays so: no command can load it. *)
Lemma main_garbage now cmd k : dataFile k = Garbage -> main now cmd k = k.
Proof.
  intros Hcut. unfold main. rewrite (ensureDataFile_garbage now k Hcut).
  destruct cmd as [[n|] t | [n|] [t|] | [n|] [t|] | [n|] | [n|]]; simpl; try done;
    unfold addUser, giveTokens, setTokens, setUserStatus, loadData; rewrite Hcut;
    by destruct (_ : bool).
Qed.

Lemma session_garbage now cmds k : dataFile k = Garbage -> session now cmds k = k.
Proof.
  induction cmds as [| cmd cmds IH]; intros Hcut; simpl; [done |].
  rewrite (main_garbage now cmd k Hcut). by apply IH.
Qed.

Lemma main_faults now cmd k : faults (main now cmd k) = faults k.
Proof.
  unfold main. rewrite <- (ensureDataFile_faults now k).
  set (k0 := ensureDataFile now k). clearbody k0.
  assert (forall now0 d0, faults (snd (saveData now0 d0 k0)) = faults k0) as Hsave
    by (intros; apply saveData_other_files).
  destruct cmd as [[n|] t | [n|] [t|] | [n|] [t|] | [n|] | [n|]]; simpl; try done;
    match goal with |- context [if ?b then _ else _] => destruct b; [| done] end;
    unfold addUser, giveTokens, setTokens, setUserStatus;
    (destruct (loadData k0) as [d |]; [| done]);
    destruct (lookup_user d n); try done;
    repeat match goal with
           | |- context [saveData ?a ?b ?c] =>
               pose proof (Hsave a b) as Hs; destruct (saveData a b c); simpl in *
           end; done.
Qed.

(** A run keeps every record, its address included, unless its write
    fails in the middle. *)
Lemma main_keeps_email now cmd k name u :
  ledger k !! name = Some u ->
  (exists u', ledger (main now cmd k) !! name = Some u' /\ email u' = email u) \/
  (writable DataFile k = false /\ dataFile (main now cmd k) = Garbage).
Proof.
  intros Hu. unfold main.
  rewrite <- ensureDataFile_ledger with (now := now) in Hu.
  rewrite <- (writable_faults DataFile k _ (ensureDataFile_faults now k)).
  set (k0 := ensureDataFile now k) in *. clearbody k0.
  assert (forall m,
            (exists u', ledger (mutate now m k0) !! name = Some u' /\ email u' = email u) \/
            (writable DataFile k0 = false /\ dataFile (mutate now m k0) = Garbage))
    as Hmut.
  { intros m. destruct (mutate_lookup now m k0 name) as [-> | [H | H]]; [eauto | by right |].
    left. rewrite Hu in H. destruct m; try done;
      repeat match goal with H : _ /\ _ |- _ => destruct H end; eauto. }
  assert (forall n b,
            (exists u', ledger (snd (setUserStatus now n b k0)) !! name = Some u'
                        /\ email u' = email u) \/
            (writable DataFile k0 = false /\
             dataFile (snd (setUserStatus now n b k0)) = Garbage)) as Hstat.
  { intros n b. unfold setUserStatus.
    destruct (loadData k0) as [d|] eqn:Hload; [| eauto].
    pose proof (ledger_loadData k0 d Hload) as Hk.
    unfold lookup_user.
    destruct (authorized_users d !! n) as [v|] eqn:Hn;
      [| destruct (bool_decide _); [| eauto]];
      match goal with |- context [saveData ?s ?x ?y] =>
        destruct (saveData_ledger s x y) as [-> | [-> | ?]] end; eauto;
      left; simpl; rewrite Hk in Hu.
    - destruct (decide (n = name)) as [-> | Hne].
      + rewrite lookup_insert_eq. rewrite Hn in Hu. injection Hu as <-. eauto.
      + rewrite lookup_insert_ne by done. eauto.
    - eauto. }
  destruct cmd as [[n|] t | [n|] [t|] | [n|] [t|] | [n|] | [n|]]; simpl; eauto.
  - destruct (nonempty n); [| eauto]. apply (Hmut (AddUser n (or_five t) None "")).
  - destruct (nonempty n && negb (t =? 0)); [| eauto]. apply (Hmut (GiveTokens n t)).
  - destruct (nonempty n); [| eauto]. apply (Hmut (SetTokens n t)).
  - destruct (nonempty n); [| eauto]. apply Hstat.
  - destruct (nonempty n); [| eauto]. apply Hstat.
Qed.

(** X8. `add-user <name> [tokens]` on a new name that is none of those
    every object inherits, the ledger missing or loadable and writable,
    stores a record whose token count is the number given, or 5 when the
    number is absent, not a number or 0; the count is never 0 and no email
    address is registered. *)
Theorem admin_add_user_defaults now name tokens k :
  nonempty name = true ->
  ledger k !! name = None ->
  name ∉ object_prototype_keys ->
  (dataFile k = Missing \/ exists d, dataFile k = Doc d) ->
  writable DataFile k = true ->
  ledger (main now (add_user (Some name) tokens) k) !! name
    = Some (mkUser (or_five tokens) 0 (or_five tokens) None now None true "") /\
  or_five tokens <> 0.
Proof.
  intros Hname Hfresh Hout Hfile Hw. split.
  2: { unfold or_five. destruct tokens as [z|]; [| done].
       destruct (Z.eqb_spec z 0); [done | done]. }
  unfold main, run_command. rewrite Hname.
  assert (exists d, loadData (ensureDataFile now k) = Some d /\
                    authorized_users d !! name = None /\
                    writable DataFile (ensureDataFile now k) = true) as (d & Hload & Hd & Hw').
  { rewrite (writable_faults DataFile k _ (ensureDataFile_faults now k)).
    unfold ensureDataFile. destruct Hfile as [Hf | [d Hf]]; rewrite Hf.
    - rewrite saveData_writable by done. eexists. split; [reflexivity |]. split; [| done].
      simpl. apply lookup_empty.
    - exists d. unfold loadData. rewrite Hf. split; [done |]. split; [| done].
      unfold ledger, loadData in Hfresh. by rewrite Hf in Hfresh. }
  unfold addUser. rewrite Hload, (lookup_user_absent _ _ Hd Hout).
  rewrite saveData_writable by done.
  unfold ledger, loadData. simpl. by rewrite lookup_insert_eq.
Qed.

(** X8 at a sample input. *)
Lemma admin_add_user_defaults_witness :
  ledger (main noon (add_user (Some "bob") (Some 0)) empty_disk) !! "bob"
    = Some (mkUser (or_five (Some 0)) 0 (or_five (Some 0)) None noon None true "") /\
  or_five (Some 0) <> 0.
Proof.
  apply (admin_add_user_defaults noon "bob" (Some 0) empty_disk);
    [reflexivity | reflexivity | | left; reflexivity | reflexivity].
  intros Hin. repeat (apply elem_of_cons in Hin as [Hin | Hin]; [discriminate |]).
  by apply elem_of_nil in Hin.
Defined.

(** X9. No sequence of runs of the administration tool (add-user, give-tokens,
    set-tokens, activate, deactivate) removes a record or changes its email
    address; only a write that fails in the middle loses the records, all of
    them, by leaving a ledger that cannot be read. *)
Theorem admin_session_keeps_records_and_addresses now cmds k name u :
  ledger k !! name = Some u ->
  (exists u', ledger (session now cmds k) !! name = Some u' /\ email u' = email u) \/
  (writable DataFile k = false /\ dataFile (session now cmds k) = Garbage).
Proof.
  revert k u. induction cmds as [| cmd cmds IH]; intros k u Hu; simpl; [eauto |].
  destruct (main_keeps_email now cmd k name u Hu) as [(u1 & Hu1 & Hmail) | [Hw Hcut]].
  - destruct (IH _ _ Hu1) as [(u' & Hu' & Hmail') | [Hw Hcut]].
    + left. exists u'. split; [done | congruence].
    + right. split; [| done].
      by rewrite <- (writable_faults DataFile k _ (main_faults now cmd k)).
  - right. split; [done |]. by rewrite (session_garbage now cmds _ Hcut).
Qed.

(** X9 at a sample input. *)
Lemma admin_session_keeps_records_and_addresses_witness :
  (exists u', ledger (session noon [set_tokens (Some "alice") (Some 9);
                                    deactivate (Some "alice");
                                    add_user (Some "alice") (Some 2)] sample_disk) !! "alice"
                = Some u' /\ email u' = email alice) \/
  (writable DataFile sample_disk = false /\
   dataFile (session noon [set_tokens (Some "alice") (Some 9);
                           deactivate (Some "alice");
                           add_user (Some "alice") (Some 2)] sample_disk) = Garbage).
Proof.
  apply (admin_session_keeps_records_and_addresses noon _ sample_disk "alice" alice).
  vm_compute. reflexivity.
Defined.

End AdminTool.

Section RecoveryMore.

Implicit Types (k : disk) (r : pending_record) (n : string).

Lemma savePending_loadPending l k :
  writable RecoveryFile k = true -> loadPending (savePending l k) = l.
Proof.
  unfold savePending, savePending_calls, sys_run, sys_exec. simpl. by intros ->.
Qed.

Lemma strict_neq_string a n : strict_neq a (VStr n) = true <-> a <> VStr n.
Proof.
  destruct a; simpl; try (split; [discriminate | done]).
  destruct (String.eqb_spec s n) as [-> | Hne]; simpl.
  - split; [discriminate | congruence].
  - split; [congruence | done].
Qed.

(** X10. After [removePending(name)] on a writable recovery file the store
    holds exactly the records it held under other user names: every record
    of that name is gone, older ones included. *)
Theorem removePending_removes_every_record_of_the_name n k r :
  writable RecoveryFile k = true ->
  (r ∈ loadPending (removePending (VStr n) k)
     <-> r ∈ loadPending k /\ username r <> VStr n).
Proof.
  intros Hw. unfold removePending. rewrite savePending_loadPending by done.
  rewrite list_elem_of_filter, strict_neq_string. tauto.
Qed.

(** X10 at a sample input. *)
Lemma removePending_removes_every_record_of_the_name_witness :
  record_two ∈ loadPending (removePending (VStr "newuser1")
                              (addPending record_two disk_with_one))
    <-> record_two ∈ loadPending (addPending record_two disk_with_one)
        /\ username record_two <> VStr "newuser1".
Proof.
  apply (removePending_removes_every_record_of_the_name "newuser1"
           (addPending record_two disk_with_one) record_two).
  reflexivity.
Defined.

(** X11. [addPending] of a record followed by [removePending] of its user
    name gives back the list that was stored, when the file is writable and
    held no record of that name. *)
Theorem addPending_removePending_round_trip n k r :
  writable RecoveryFile k = true ->
  username r = VStr n ->
  (forall r0, r0 ∈ loadPending k -> username r0 <> VStr n) ->
  loadPending (removePending (VStr n) (addPending r k)) = loadPending k.
Proof.
  intros Hw Hname Hfresh.
  assert (writable RecoveryFile (addPending r k) = true) as Hw'.
  { unfold addPending, savePending, savePending_calls, sys_run, sys_exec. simpl.
    rewrite Hw. done. }
  unfold removePending. rewrite savePending_loadPending by done.
  unfold addPending. rewrite savePending_loadPending by done.
  rewrite filter_app, filter_cons, filter_nil.
  destruct (decide (strict_neq (username r) (VStr n) = true)) as [Hkeep | _].
  { apply strict_neq_string in Hkeep. done. }
  rewrite app_nil_r. induction (loadPending k) as [| r0 l IH]; [done |].
  rewrite filter_cons.
  destruct (decide (strict_neq (username r0) (VStr n) = true)) as [_ | Hdrop].
  - f_equal. apply IH. intros r1 Hr1. apply Hfresh. by apply list_elem_of_further.
  - exfalso. apply Hdrop. apply strict_neq_string, Hfresh. apply list_elem_of_here.
Qed.

(** X11 at a sample input. *)
Lemma addPending_removePending_round_trip_witness :
  loadPending (removePending (VStr "newuser2") (addPending record_two disk_with_one))
    = loadPending disk_with_one.
Proof.
  apply (addPending_removePending_round_trip "newuser2" disk_with_one record_two).
  - reflexivity.
  - reflexivity.
  - intros r0 Hr0. vm_compute in Hr0. apply list_elem_of_singleton in Hr0 as ->.
    discriminate.
Defined.

End RecoveryMore.

Section CursorStore.

Implicit Types (k : disk) (m : monitor).

Lemma saveLastBlock_done stamp force m k :
  0 < lastProcessedBlock m ->
  (force = true \/ _lastSavedBlock m <> Some (lastProcessedBlock m)) ->
  writable LastBlockTmp k = true ->
  writable LastBlockFile k = true ->
  saveLastBlock stamp force m k
    = (mkMonitor (isRunning m) (lastProcessedBlock m) (Some (lastProcessedBlock m)),
       mkDisk (recoveryFile k) (dataFile k)
              (Doc (mkLastBlockDoc (lastProcessedBlock m) stamp)) Missing (faults k)).
Proof.
  intros Hpos Hforce Htmp Hdst. unfold saveLastBlock.
  destruct (Z.leb_spec (lastProcessedBlock m) 0); [lia |].
  assert (negb force && bool_decide (_lastSavedBlock m = Some (lastProcessedBlock m)) = false)
    as ->.
  { destruct Hforce as [-> | Hne]; [done |]. rewrite bool_decide_eq_false_2 by done.
    apply andb_false_r. }
  unfold saveLastBlock_calls, sys_run, sys_exec. simpl.
  unfold writable in *. simpl. rewrite Htmp. simpl. rewrite Hdst. done.
Qed.

(** X12. A forced [saveLastBlock] of a positive cursor, both files writable,
    leaves a [last_block.json] from which [loadLastBlock] reads that
    cursor and no temporary file; an unforced save right after it does
    nothing. A cursor of 0 or less is never saved, forced or not. *)
Theorem saveLastBlock_round_trip stamp force m k :
  (0 < lastProcessedBlock m ->
   writable LastBlockTmp k = true ->
   writable LastBlockFile k = true ->
     lastProcessedBlock (loadLastBlock fresh_monitor (snd (saveLastBlock stamp true m k)))
       = lastProcessedBlock m /\
     lastBlockTmp (snd (saveLastBlock stamp true m k)) = Missing /\
     forall stamp', saveLastBlock stamp' false (fst (saveLastBlock stamp true m k))
                      (snd (saveLastBlock stamp true m k))
                    = saveLastBlock stamp true m k) /\
  (lastProcessedBlock m <= 0 -> saveLastBlock stamp force m k = (m, k)).
Proof.
  split.
  - intros Hpos Htmp Hdst.
    rewrite (saveLastBlock_done stamp true m k) by auto. simpl.
    repeat split. intros stamp'. unfold saveLastBlock. simpl.
    destruct (Z.leb_spec (lastProcessedBlock m) 0); [lia |].
    by rewrite bool_decide_eq_true_2.
  - intros Hle. unfold saveLastBlock.
    by destruct (Z.leb_spec (lastProcessedBlock m) 0); [| lia].
Qed.

(** X12 at a sample input. *)
Lemma saveLastBlock_round_trip_witness :
  lastProcessedBlock
    (loadLastBlock fresh_monitor (snd (saveLastBlock noon true (mon sample_service) sample_disk)))
    = 100 /\
  saveLastBlock noon false fresh_monitor sample_disk = (fresh_monitor, sample_disk).
Proof.
  split.
  - destruct (saveLastBlock_round_trip noon true (mon sample_service) sample_disk) as [H _].
    apply H; vm_compute; reflexivity.
  - destruct (saveLastBlock_round_trip noon false fresh_monitor sample_disk) as [_ H].
    apply H. vm_compute. discriminate.
Defined.

(** Start-up leaves the cursor file alone. *)
Lemma ensure_lastBlockFile now k :
  lastBlockFile (ensureRecoveryFile (ensureDataFile now k)) = lastBlockFile k.
Proof.
  assert (forall k0, lastBlockFile (ensureRecoveryFile k0) = lastBlockFile k0) as Hrec.
  { intros k0. unfold ensureRecoveryFile. destruct (recoveryFile k0); try done.
    apply (savePending_other_files [] k0). }
  rewrite Hrec. unfold ensureDataFile. destruct (dataFile k); try done.
  apply saveData_other_files.
Qed.

(** The cursor the constructor ends with: the one on disk unless it is 0,
    else [LAST_PROCESSED_BLOCK] when positive, else 0. *)
Lemma constructor_lastProcessedBlock now envBlock k :
  lastProcessedBlock (fst (constructor now envBlock k))
    = match lastBlockFile k with
      | Doc d =>
          if doc_lastProcessedBlock d =? 0
          then (if 0 <? envBlock then envBlock else 0)
          else doc_lastProcessedBlock d
      | Missing | Unreadable | Garbage => if 0 <? envBlock then envBlock else 0
      end.
Proof.
  unfold constructor, loadLastBlock. rewrite ensure_lastBlockFile.
  destruct (lastBlockFile k) as [| | | d]; simpl;
    try (destruct (0 <? envBlock); done).
  destruct (doc_lastProcessedBlock d =? 0) eqn:Hz; simpl; [| done].
  destruct (0 <? envBlock); simpl; [done |]. by apply Z.eqb_eq in Hz.
Qed.

Lemma constructor_files now envBlock k :
  snd (constructor now envBlock k) = ensureRecoveryFile (ensureDataFile now k).
Proof.
  unfold constructor. destruct (_ =? 0); [| done]. by destruct (0 <? envBlock).
Qed.

(** X13. The constructor starts from the cursor in [last_block.json] unless
    that is 0 or cannot be read, in which case it takes
    [LAST_PROCESSED_BLOCK] when positive and 0 otherwise; the cursor on disk
    is then not ahead of the cursor in memory. *)
Theorem constructor_cursor now envBlock k :
  lastProcessedBlock (fst (constructor now envBlock k))
    = match lastBlockFile k with
      | Doc d =>
          if doc_lastProcessedBlock d =? 0
          then (if 0 <? envBlock then envBlock else 0)
          else doc_lastProcessedBlock d
      | Missing | Unreadable | Garbage => if 0 <? envBlock then envBlock else 0
      end /\
  persisted_behind (mkService (fst (constructor now envBlock k))
                              (mkWorld (snd (constructor now envBlock k)) [])).
Proof.
  split; [apply constructor_lastProcessedBlock |].
  unfold persisted_behind. simpl.
  rewrite constructor_files, ensure_lastBlockFile, constructor_lastProcessedBlock.
  destruct (lastBlockFile k) as [| | | d]; try done.
  destruct (Z.eqb_spec (doc_lastProcessedBlock d) 0) as [-> | Hne]; [| lia].
  destruct (Z.ltb_spec 0 envBlock); lia.
Qed.

(** X14. [stop()] on a monitor with a positive cursor, the cursor files being
    writable, clears [isRunning], and a monitor constructed on the disk it
    leaves resumes at that cursor whatever [LAST_PROCESSED_BLOCK] says. *)
Theorem stop_then_restart_resumes stamp now envBlock s :
  0 < lastProcessedBlock (mon s) ->
  writable LastBlockTmp (files (wld s)) = true ->
  writable LastBlockFile (files (wld s)) = true ->
  isRunning (mon (stop stamp s)) = false /\
  lastProcessedBlock (fst (constructor now envBlock (files (wld (stop stamp s)))))
    = lastProcessedBlock (mon s).
Proof.
  intros Hpos Htmp Hdst. unfold stop.
  rewrite (saveLastBlock_done stamp true (mon s) (files (wld s))) by auto. simpl.
  split; [done |].
  rewrite constructor_lastProcessedBlock. simpl. destruct (Z.eqb_spec (lastProcessedBlock (mon s)) 0); [lia | done].
Qed.

(** X14 at a sample input. *)
Lemma stop_then_restart_resumes_witness :
  isRunning (mon (stop noon sample_service)) = false /\
  lastProcessedBlock (fst (constructor noon 7 (files (wld (stop noon sample_service)))))
    = lastProcessedBlock (mon sample_service).
Proof.
  apply (stop_then_restart_resumes noon noon 7 sample_service); reflexivity.
Defined.

End CursorStore.

Section CursorInvariant.

Implicit Types (k : disk) (w : world) (s : service).

Lemma savePending_cursor l k : lastBlockFile (savePending l k) = lastBlockFile k.
Proof. apply savePending_other_files. Qed.

Lemma useToken_cursor now name k : lastBlockFile (snd (useToken now name k)) = lastBlockFile k.
Proof.
  unfold useToken. destruct (loadData k); [| done].
  destruct (lookup_user _ name); [| apply saveData_other_files | done].
  destruct (_ <=? 0); [done |]. apply saveData_other_files.
Qed.

Lemma processAccountRequest_cursor c e rq w :
  lastBlockFile (files (processAccountRequest c e rq w)) = lastBlockFile (files w).
Proof.
  rewrite processAccountRequest_files.
  destruct (negb (authorized _)); [done |].
  destruct (negb (c_success _)); [done |]. cbv zeta.
  destruct (overallSuccess _ _ _).
  - unfold removePending. rewrite savePending_cursor, useToken_cursor.
    unfold addPending. apply savePending_cursor.
  - unfold addPending. apply savePending_cursor.
Qed.

Lemma processCustomJson_cursor c e op height txid w :
  lastBlockFile (files (processCustomJson c e op height txid w)) = lastBlockFile (files w).
Proof.
  unfold processCustomJson, processCustomJson_try.
  destruct (negb _); [done |]. destruct (json op) as [d |]; [| done].
  destruct (validateRequest d) as [v | msg]; [| done]. simpl.
  destruct (truthy v); [| done].
  destruct (request_of _ _ _ _) as [rq | msg]; [| done]. simpl.
  apply processAccountRequest_cursor.
Qed.

Lemma process_operations_cursor c answers height txid ops : forall i w,
  lastBlockFile (files (process_operations c answers height txid i ops w))
    = lastBlockFile (files w).
Proof.
  induction ops as [| [payload | kind] ops IH]; intros i w; simpl; [done | |].
  - rewrite IH. apply processCustomJson_cursor.
  - apply IH.
Qed.

Lemma process_transactions_cursor c answers height txs : forall w,
  lastBlockFile (files (snd (process_transactions c answers height txs w)))
    = lastBlockFile (files w).
Proof.
  induction txs as [| tx txs IH]; intros w; simpl; [done |].
  destruct (operations tx) as [ops |]; [| done].
  rewrite IH. apply process_operations_cursor.
Qed.

Lemma processBlock_cursor c answers b height w :
  lastBlockFile (files (snd (processBlock c answers b height w))) = lastBlockFile (files w).
Proof.
  unfold processBlock. destruct (transactions b) as [[| tx txs] |]; try done.
  apply process_transactions_cursor.
Qed.

(** A save writes the cursor it was given, or nothing. *)
Lemma saveLastBlock_file stamp force m k :
  lastBlockFile (snd (saveLastBlock stamp force m k)) = lastBlockFile k \/
  lastBlockFile (snd (saveLastBlock stamp force m k))
    = Doc (mkLastBlockDoc (lastProcessedBlock m) stamp).
Proof.
  unfold saveLastBlock. destruct (_ <=? 0); [by left |].
  destruct (_ && _); [by left |].
  unfold saveLastBlock_calls, sys_run, sys_exec, sys_torn, writable. simpl.
  repeat match goal with
         | |- context [bool_decide ?P] => destruct (bool_decide P); simpl
         end; auto.
Qed.

Lemma saveLastBlock_monitor stamp force m k :
  lastProcessedBlock (fst (saveLastBlock stamp force m k)) = lastProcessedBlock m /\
  isRunning (fst (saveLastBlock stamp force m k)) = isRunning m.
Proof.
  unfold saveLastBlock. destruct (_ <=? 0); [done |].
  destruct (_ && _); [done |]. by destruct (sys_run _ k).
Qed.

Lemma persisted_behind_save stamp force m k (log : list effect) :
  match lastBlockFile k with
  | Doc d => doc_lastProcessedBlock d <= lastProcessedBlock m
  | _ => True
  end ->
  persisted_behind (mkService (fst (saveLastBlock stamp force m k))
                              (mkWorld (snd (saveLastBlock stamp force m k)) log)).
Proof.
  intros Hinv. unfold persisted_behind. simpl.
  destruct (saveLastBlock_monitor stamp force m k) as [-> _].
  destruct (saveLastBlock_file stamp force m k) as [-> | ->]; [done | simpl; lia].
Qed.

Lemma stop_persisted_behind stamp s : persisted_behind s -> persisted_behind (stop stamp s).
Proof.
  intros Hinv. unfold stop.
  pose proof (persisted_behind_save stamp true (mon s) (files (wld s)) (effects (wld s)) Hinv)
    as H.
  destruct (saveLastBlock _ _ _ _) as [m k]. unfold persisted_behind in *. simpl in *.
  done.
Qed.

Lemma await_block_persisted_behind t s :
  persisted_behind s -> persisted_behind (await_block t s).
Proof.
  intros Hinv. unfold await_block. destruct (stop_requested t); [| done].
  by apply stop_persisted_behind.
Qed.

Lemma await_block_cursor_kept t s :
  lastProcessedBlock (mon (await_block t s)) = lastProcessedBlock (mon s).
Proof.
  unfold await_block. destruct (stop_requested t); [| done]. unfold stop.
  pose proof (saveLastBlock_monitor (stamp t) true (mon s) (files (wld s))) as [H _].
  destruct (saveLastBlock _ _ _ _) as [m k]. simpl in *. done.
Qed.

(** One pass keeps the invariant and moves the cursor by zero or one. *)
Lemma iteration_step c t s :
  persisted_behind s ->
  persisted_behind (iteration c t s) /\
  (lastProcessedBlock (mon (iteration c t s)) = lastProcessedBlock (mon s) \/
   lastProcessedBlock (mon (iteration c t s)) = lastProcessedBlock (mon s) + 1).
Proof.
  intros Hinv0.
  pose proof (await_block_persisted_behind t s Hinv0) as Hinv.
  pose proof (await_block_cursor_kept t s) as Hcur.
  unfold iteration, streamBlocks_try.
  set (s2 := await_block t s) in *. clearbody s2.
  destruct (getBlock t _) as [[b |] | msg]; simpl; try (split; [done | by left]).
  pose proof (processBlock_cursor c (answers t) b (lastProcessedBlock (mon s) + 1) (wld s2))
    as Hblock.
  destruct (processBlock _ _ _ _ _) as [[[] | msg] w']; simpl in *.
  2: { split; [| by left]. unfold persisted_behind in *. simpl. by rewrite Hblock. }
  destruct (Z.rem _ _ =? 0).
  - match goal with |- context [saveLastBlock ?a ?b ?m ?k] =>
      pose proof (persisted_behind_save a b m k (effects w')) as Hsave;
      pose proof (saveLastBlock_monitor a b m k) as [Hm _];
      destruct (saveLastBlock a b m k) as [m'' k''] end.
    simpl in *. split; [| by right]. apply Hsave. rewrite Hblock.
    unfold persisted_behind in Hinv. destruct (lastBlockFile (files (wld s2))); try done. lia.
  - split; [| by right]. unfold persisted_behind in *. simpl. rewrite Hblock.
    destruct (lastBlockFile (files (wld s2))); try done. lia.
Qed.

(** X15. Over any number of passes of the block loop, with blocks, misses,
    errors and [stop()] calls in any order: the cursor in
    [last_block.json] stays at or below the cursor in memory, and the cursor
    in memory never goes back and advances by at most one per pass. *)
Theorem streamBlocks_keeps_persisted_cursor_behind c ts s :
  persisted_behind s ->
  persisted_behind (streamBlocks c ts s) /\
  lastProcessedBlock (mon s) <= lastProcessedBlock (mon (streamBlocks c ts s))
    <= lastProcessedBlock (mon s) + Z.of_nat (length ts).
Proof.
  revert s. induction ts as [| t ts IH]; intros s Hinv; simpl.
  - split; [done | lia].
  - destruct (isRunning (mon s)); [| split; [done | lia]].
    destruct (iteration_step c t s Hinv) as [Hinv' Hstep].
    destruct (IH _ Hinv') as [Hfinal Hbound]. split; [done | lia].
Qed.

(** X15 at a sample input. *)
Lemma streamBlocks_keeps_persisted_cursor_behind_witness :
  persisted_behind (streamBlocks sample_config (replicate 25 tick_plain) sample_service) /\
  lastProcessedBlock (mon sample_service)
    <= lastProcessedBlock (mon (streamBlocks sample_config (replicate 25 tick_plain)
                                  sample_service))
    <= lastProcessedBlock (mon sample_service) + Z.of_nat (length (replicate 25 tick_plain)).
Proof.
  apply (streamBlocks_keeps_persisted_cursor_behind sample_config
           (replicate 25 tick_plain) sample_service).
  vm_compute. done.
Defined.

End CursorInvariant.

Section PipelineMore.

Implicit Types (k : disk) (w : world) (u : user).

Lemma checkAuthorization_authorized name k :
  authorized (checkAuthorization name k) = true <->
  exists u, ledger k !! name = Some u /\ is_active u = true /\ 0 < tokens_remaining u.
Proof.
  unfold checkAuthorization, ledger, lookup_user.
  destruct (loadData k) as [d |]; simpl.
  2: { split; [done |]. intros (u & Hu & _). by rewrite lookup_empty in Hu. }
  destruct (authorized_users d !! name) as [u |]; simpl.
  2: { destruct (bool_decide _); (split; [done |]); by intros (u & Hu & _). }
  destruct (is_active u) eqn:Hact; simpl.
  2: { split; [done |]. intros (u' & [= <-] & ? & _). congruence. }
  destruct (Z.leb_spec (tokens_remaining u) 0); simpl.
  - split; [done |]. intros (u' & [= <-] & _ & ?). lia.
  - split; [eauto | done].
Qed.


Lemma ledger_lookup_data k name u :
  ledger k !! name = Some u ->
  exists d, dataFile k = Doc d /\ authorized_users d !! name = Some u.
Proof.
  unfold ledger, loadData. destruct (dataFile k) as [| | | d]; try by rewrite lookup_empty.
  eauto.
Qed.

(** A requester without an active record that has tokens left gets nothing
    done. *)
Lemma processAccountRequest_denied c e rq w :
  (forall u, ledger (files w) !! str (rq_requester rq) = Some u ->
     is_active u = false \/ tokens_remaining u <= 0) ->
  processAccountRequest c e rq w = w.
Proof.
  intros Hdenied. unfold processAccountRequest.
  destruct (authorized (checkAuthorization _ _)) eqn:Hauth; [| done].
  apply checkAuthorization_authorized in Hauth as (u & Hu & Hact & Hrem).
  destruct (Hdenied u Hu); [congruence | lia].
Qed.

(** X16. A request whose requester has no record, an inactive record, or no
    token left (or whose ledger cannot be loaded) is not authorized and
    leaves the world as it was: no file is written and no call goes out,
    not even the lookup of the requested name. *)
Theorem unauthorized_request_changes_nothing c e rq w :
  (forall u, ledger (files w) !! str (rq_requester rq) = Some u ->
     is_active u = false \/ tokens_remaining u <= 0) ->
  processAccountRequest c e rq w = w /\
  authorized (checkAuthorization (str (rq_requester rq)) (files w)) = false.
Proof.
  intros Hdenied. split; [by apply processAccountRequest_denied |].
  destruct (authorized (checkAuthorization _ _)) eqn:Hauth; [| done].
  apply checkAuthorization_authorized in Hauth as (u & Hu & Hact & Hrem).
  destruct (Hdenied u Hu); [congruence | lia].
Qed.

(** X16 at a sample input. *)
Lemma unauthorized_request_changes_nothing_witness :
  processAccountRequest sample_config env_all_fine request_stranger sample_world
    = sample_world /\
  authorized (checkAuthorization (str (rq_requester request_stranger)) (files sample_world))
    = false.
Proof.
  apply (unauthorized_request_changes_nothing sample_config env_all_fine
           request_stranger sample_world).
  intros u Hu. vm_compute in Hu. discriminate.
Defined.


Lemma savePending_writable l k :
  writable RecoveryFile k = true ->
  savePending l k
    = mkDisk (Doc (mkPendingDoc (Some l))) (dataFile k) (lastBlockFile k)
             (lastBlockTmp k) (faults k).
Proof.
  unfold savePending, savePending_calls, sys_run, sys_exec. simpl. by intros ->.
Qed.

Lemma filter_other_names n (l : list pending_record) r :
  r ∈ filter (fun r0 => strict_neq (username r0) (VStr n) = true) l
    <-> r ∈ l /\ username r <> VStr n.
Proof.
  rewrite list_elem_of_filter.
  assert (strict_neq (username r) (VStr n) = true <-> username r <> VStr n) as ->; [| tauto].
  destruct (username r); simpl; try (split; [discriminate | done]).
  destruct (String.eqb_spec s n) as [-> | Hne]; simpl.
  - split; [discriminate | congruence].
  - split; [congruence | done].
Qed.

(** X17. A request that is authorized, created and delivered, both ledgers
    being writable and the requester's counts within 2^53: the requester's
    record has one more token used and one less remaining; the store holds
    exactly the records it held before under other user names, so older
    stranded records of the same name go too; and if that was the
    requester's last token, any further request of the same requester
    changes nothing. *)
Theorem delivered_request_settles c e rq w n u :
  requested_username rq = VStr n ->
  ledger (files w) !! str (rq_requester rq) = Some u ->
  Forall safe (record_sums (UseToken (str (rq_requester rq))) u) ->
  authorized (r_auth (trace_of c e rq w)) = true ->
  c_success (r_creation (trace_of c e rq w)) = true ->
  delivered c e rq w = true ->
  writable DataFile (files w) = true ->
  writable RecoveryFile (files w) = true ->
  ledger (files (processAccountRequest c e rq w)) !! str (rq_requester rq)
    = Some (mkUser (tokens_allocated u) (tokens_used u + 1) (tokens_remaining u - 1)
                   (email u) (created_at u) (Some (now e)) (is_active u) (notes u)) /\
  (forall r, r ∈ loadPending (files (processAccountRequest c e rq w))
     <-> r ∈ loadPending (files w) /\ username r <> VStr n) /\
  (tokens_remaining u = 1 ->
     forall e' rq', rq_requester rq' = rq_requester rq ->
       processAccountRequest c e' rq' (processAccountRequest c e rq w)
         = processAccountRequest c e rq w).
Proof.
  intros Hname Hu Hsafe Hauth Hcreated Hdone Hwd Hwr.
  simpl in Hsafe. apply Forall_cons in Hsafe as [Hsafe1 Hsafe].
  apply Forall_cons in Hsafe as [Hsafe2 _].
  pose proof (processAccountRequest_files c e rq w) as Hfiles.
  unfold delivered in Hdone. rewrite Hauth, Hcreated, Hdone in Hfiles. simpl in Hfiles.
  fold (record_of c e rq w) in Hfiles.
  assert (ad_username (r_account (trace_of c e rq w)) = VStr n) as Hacc.
  { pose proof (record_of_username c e rq w) as H. unfold record_of, pending_of in H.
    simpl in H. by rewrite H. }
  rewrite Hacc in Hfiles.
  assert (0 < tokens_remaining u) as Hrem.
  { unfold trace_of in Hauth. destruct (createHiveAccount _ _ _ _ w).
    destruct (deliver_email _ _ _ _ _ _). destruct (deliver_memo _ _ _ _ _ _).
    simpl in Hauth. apply checkAuthorization_authorized in Hauth as (u' & Hu' & _ & ?).
    congruence. }
  destruct (ledger_lookup_data (files w) _ u Hu) as (d & Hload & Hd).
  assert (files (processAccountRequest c e rq w)
          = mkDisk
              (Doc (mkPendingDoc (Some
                 (filter (fun r0 => strict_neq (username r0) (VStr n) = true)
                         (loadPending (files w) ++ [record_of c e rq w])%list))))
              (Doc (UserManager.stamp (now e)
                 (mkData (<[str (rq_requester rq) :=
                            mkUser (tokens_allocated u) (tokens_used u + 1)
                                   (tokens_remaining u - 1) (email u) (created_at u)
                                   (Some (now e)) (is_active u) (notes u)]>
                            (authorized_users d))
                         (set_total_tokens_used (js_add (total_tokens_used (metadata d)) 1)
                                                (metadata d)))))
              (lastBlockFile (files w)) (lastBlockTmp (files w)) (faults (files w)))
    as Hfinal.
  { rewrite Hfiles. unfold addPending. rewrite savePending_writable by done.
    unfold useToken. unfold loadData at 1. simpl.
    unfold loadData in Hload. rewrite Hload, (lookup_user_own _ _ _ Hd).
    destruct (Z.leb_spec (tokens_remaining u) 0); [lia |].
    rewrite saveData_writable by done. simpl.
    unfold removePending. rewrite savePending_writable by done.
    rewrite js_add_safe, js_sub_safe by done. done. }
  rewrite Hfinal. split; [| split].
  - unfold ledger, loadData. simpl. by rewrite lookup_insert_eq.
  - intros r. unfold loadPending at 1. simpl. rewrite filter_other_names.
    rewrite elem_of_app, list_elem_of_singleton. split.
    + intros [[Hin | ->] Hne]; [done |]. by rewrite record_of_username, Hname in Hne.
    + intros [Hin Hne]. auto.
  - intros Hlast e' rq' Hsame. apply processAccountRequest_denied.
    rewrite Hsame, Hfinal. intros u' Hu'. right. revert Hu'.
    unfold ledger, loadData. simpl. rewrite lookup_insert_eq. intros [= <-]. simpl. lia.
Qed.

(** X17 at a sample input. *)
Lemma delivered_request_settles_witness :
  ledger (files (processAccountRequest sample_config env_all_fine request_email
                   (mkWorld disk_last_token []))) !! str (rq_requester request_email)
    = Some (mkUser 5 (4 + 1) (1 - 1) (Some "alice@example.org")
                   "2025-01-01T00:00:00.000Z" (Some (now env_all_fine)) true "") /\
  (forall r, r ∈ loadPending (files (processAccountRequest sample_config env_all_fine
                                        request_email (mkWorld disk_last_token [])))
     <-> r ∈ loadPending (files (mkWorld disk_last_token []))
         /\ username r <> VStr "newuser1") /\
  (1 = 1 ->
     forall e' rq', rq_requester rq' = rq_requester request_email ->
       processAccountRequest sample_config e' rq'
           (processAccountRequest sample_config env_all_fine request_email
              (mkWorld disk_last_token []))
         = processAccountRequest sample_config env_all_fine request_email
             (mkWorld disk_last_token [])).
Proof.
  apply (delivered_request_settles sample_config env_all_fine request_email
           (mkWorld disk_last_token []) "newuser1"
           (mkUser 5 4 1 (Some "alice@example.org") "2025-01-01T00:00:00.000Z" None true ""));
    [reflexivity | vm_compute; reflexivity | | vm_compute; reflexivity ..].
  repeat constructor; vm_compute; discriminate.
Defined.

End PipelineMore.

Section Outbound.

Implicit Types (k : disk) (w : world) (u : user).

Lemma user_info_ledger name k u :
  user_info (checkAuthorization name k) = Some u -> ledger k !! name = Some u.
Proof.
  unfold checkAuthorization, ledger, lookup_user. destruct (loadData k) as [d |]; [| done].
  destruct (authorized_users d !! name) as [u' |]; [| by destruct (bool_decide _)].
  destruct (negb (is_active u')); [done |].
  destruct (tokens_remaining u' <=? 0); [done |]. simpl. congruence.
Qed.

Lemma requesterEmail_registered name k addr :
  requesterEmail (checkAuthorization name k) = Some addr ->
  exists u, ledger k !! name = Some u /\ email u = Some addr.
Proof.
  unfold requesterEmail.
  destruct (user_info (checkAuthorization name k)) as [u |] eqn:Hinfo; [| done].
  destruct (is_set (email u)); [| done]. intros Hmail.
  exists u. split; [by apply user_info_ledger | done].
Qed.

Lemma createHiveAccount_effect e name ks creator w :
  (c_success (fst (createHiveAccount e name ks creator w)) = false /\
   snd (createHiveAccount e name ks creator w) = w) \/
  snd (createHiveAccount e name ks creator w)
    = emit (SendOperations creator name (ownerPublic ks) (activePublic ks)
                           (postingPublic ks) (memoPublic ks)) w.
Proof.
  unfold createHiveAccount, createHiveAccount_try.
  destruct (negb (checkUsernameAvailability e)); [by left |].
  destruct (negb (fromString_ok e)); [by left |].
  right. by destruct (sendOperations e).
Qed.

Lemma deliver_email_effect c e name k a method w :
  snd (deliver_email c e (checkAuthorization name k) a method w) = w \/
  exists addr u,
    snd (deliver_email c e (checkAuthorization name k) a method w)
      = emit (SendMail addr a) w /\
    ledger k !! name = Some u /\ email u = Some addr.
Proof.
  unfold deliver_email. destruct (_ || _); [| by left].
  destruct (requesterEmail _) as [addr |] eqn:Haddr; [| by left].
  destruct (nonempty _); [| by left].
  unfold sendAccountCredentials. destruct (isConfigured c); [| by left].
  apply requesterEmail_registered in Haddr as (u & Hu & Hmail).
  right. exists addr, u. by destruct (sendMail e).
Qed.

Lemma deliver_memo_effect c e rq a method w :
  snd (deliver_memo c e rq a method w) = w \/
  exists memo,
    snd (deliver_memo c e rq a method w)
      = emit (Transfer (creatingAccount c) (rq_requester rq) "0.001 HBD" memo) w /\
    leaks memo a = false.
Proof.
  unfold deliver_memo. destruct (_ || _); [| by left].
  destruct (negb (canSendMemo e)); [by left |].
  destruct (negb (is_set _)); [by left |].
  unfold sendAccountMemo.
  destruct (getAccounts_recipient e) as [[| key rest] | msg]; try by left.
  destruct (memo_encode e _ _ _) as [memo | msg]; [| by left].
  destruct (leaks memo a) eqn:Hleak; [by left |].
  right. exists memo. by destruct (transfer e).
Qed.

Lemma leaks_false memo a :
  leaks memo a = false ->
  ~ substring_of (to_string (ad_username a)) memo /\
  ~ substring_of (ad_masterPassword a) memo.
Proof.
  unfold leaks. intros H. apply orb_false_iff in H as [H1 H2].
  split; intros Hsub; apply includes_spec in Hsub; congruence.
Qed.

(** X18. The outbound calls of one request, in order, are: none; or the
    creation of the requested name by the faucet account, followed by at
    most one mail and then at most one transfer. A mail goes to the address
    the ledger holds for the requester; a transfer goes from the faucet to
    the requester, is of 0.001 HBD, and its memo contains neither the new
    name nor the master password in the clear. *)
Theorem request_outbound_calls c e rq w :
  exists l, effects (processAccountRequest c e rq w) = (effects w ++ l)%list /\
            outbound_calls c e (files w) rq l.
Proof.
  unfold processAccountRequest.
  destruct (negb (authorized _)); [exists []; split; [by rewrite app_nil_r | by left] |].
  set (pw := generateMasterPassword (randomBytes e)).
  set (ks := generateAccountKeys e (requested_username rq) pw).
  pose proof (createHiveAccount_effect e (requested_username rq) ks (creatingAccount c) w)
    as Hcreate.
  pose proof (createHiveAccount_files e (requested_username rq) ks (creatingAccount c) w)
    as Hfiles.
  destruct (createHiveAccount _ _ _ _ w) as [cr w1]. simpl in Hcreate, Hfiles.
  destruct Hcreate as [[Hfail ->] | ->].
  { rewrite Hfail. simpl. exists []. split; [by rewrite app_nil_r | by left]. }
  set (x := SendOperations _ _ _ _ _ _).
  assert (creation_call c rq x) as Hx by done.
  destruct (negb (c_success cr)).
  { exists [x]. split; [done |]. right. exists x, []. auto. }
  unfold deliver_and_settle.
  set (a := make_accountData rq pw ks (c_transactionId cr)).
  set (w2 := on_disk _ (emit x w)).
  pose proof (deliver_email_effect c e (str (rq_requester rq)) (files w) a
                (delivery_method rq) w2) as Hmail.
  destruct (deliver_email _ _ _ _ _ w2) as [er w3]. simpl in Hmail.
  pose proof (deliver_memo_effect c e rq a (delivery_method rq) w3) as Hmemo.
  destruct (deliver_memo _ _ _ _ _ w3) as [mr w4]. simpl in Hmemo.
  assert (forall memo, leaks memo a = false ->
            memo_call c e rq
              (Transfer (creatingAccount c) (rq_requester rq) "0.001 HBD" memo)) as Hmemo_ok.
  { intros memo Hleak. apply leaks_false in Hleak as [H1 H2]. simpl. auto. }
  assert (exists rest, effects w4 = (effects w ++ x :: rest)%list /\
            (rest = [] \/
             (exists m, rest = [m] /\ mail_call (files w) rq m) \/
             (exists t, rest = [t] /\ memo_call c e rq t) \/
             (exists m t, rest = [m; t] /\ mail_call (files w) rq m /\ memo_call c e rq t)))
    as (rest & Heff & Hshape).
  { destruct Hmail as [-> | (addr & u & -> & Hu & Haddr)];
      destruct Hmemo as [-> | (memo & -> & Hleak)]; simpl.
    - exists []. split; [done | auto].
    - eexists [_]. split; [by rewrite <- app_assoc |]. right. right. left. eauto.
    - eexists [_]. split; [by rewrite <- app_assoc |]. right. left.
      eexists. split; [done |]. simpl. eauto.
    - eexists [_; _]. split; [by rewrite <- !app_assoc |]. right. right. right.
      eexists _, _. split; [done |]. split; [simpl; eauto | auto]. }
  exists (x :: rest). split.
  - by destruct (overallSuccess _ _ _).
  - right. exists x, rest. auto.
Qed.

(** X19. A request whose delivery method is none of 'email', 'hive_memo' and
    'both' is never delivered; if it is authorized and its account is
    created, the creation is the only outbound call and the disk is as
    [addPending] left it: the credential stays in the recovery store and no
    token is used. *)
Theorem unknown_delivery_method_strands_credential c e rq w :
  strict_eq_str (delivery_method rq) "email" = false ->
  strict_eq_str (delivery_method rq) "hive_memo" = false ->
  strict_eq_str (delivery_method rq) "both" = false ->
  delivered c e rq w = false /\
  (authorized (r_auth (trace_of c e rq w)) = true ->
   c_success (r_creation (trace_of c e rq w)) = true ->
     files (processAccountRequest c e rq w) = addPending (record_of c e rq w) (files w) /\
     exists x, creation_call c rq x /\
       effects (processAccountRequest c e rq w) = (effects w ++ [x])%list).
Proof.
  intros Hmail Hmemo Hboth.
  assert (delivered c e rq w = false) as Hfailed.
  { unfold delivered, trace_of. destruct (createHiveAccount _ _ _ _ w).
    unfold deliver_email, deliver_memo, overallSuccess. rewrite Hmail, Hmemo, Hboth. done. }
  split; [done |]. intros Hauth Hcreated.
  split; [by apply undelivered_files |].
  unfold trace_of in Hauth, Hcreated. unfold processAccountRequest, deliver_and_settle.
  set (pw := generateMasterPassword (randomBytes e)) in *.
  set (ks := generateAccountKeys e (requested_username rq) pw) in *.
  pose proof (createHiveAccount_effect e (requested_username rq) ks (creatingAccount c) w)
    as Hcreate.
  destruct (createHiveAccount _ _ _ _ w) as [cr w1].
  unfold deliver_email, deliver_memo, overallSuccess in *.
  rewrite Hmail, Hmemo, Hboth in *. simpl in *. rewrite Hauth, Hcreated. simpl.
  destruct Hcreate as [[Hfail _] | ->]; [congruence |].
  eexists. split; [| reflexivity]. done.
Qed.

(** X19 at a sample input. *)
Lemma unknown_delivery_method_strands_credential_witness :
  delivered sample_config env_all_fine request_pigeon sample_world = false /\
  (authorized (r_auth (trace_of sample_config env_all_fine request_pigeon sample_world)) = true ->
   c_success (r_creation (trace_of sample_config env_all_fine request_pigeon sample_world))
     = true ->
     files (processAccountRequest sample_config env_all_fine request_pigeon sample_world)
       = addPending (record_of sample_config env_all_fine request_pigeon sample_world)
                    (files sample_world) /\
     exists x, creation_call sample_config request_pigeon x /\
       effects (processAccountRequest sample_config env_all_fine request_pigeon sample_world)
         = (effects sample_world ++ [x])%list).
Proof.
  apply (unknown_delivery_method_strands_credential sample_config env_all_fine
           request_pigeon sample_world); reflexivity.
Defined.

End Outbound.

Section Channels.

Implicit Types (k : disk) (w : world) (u : user).





(** An address that is a single no-break space is no address. *)
Lemma deliver_email_blank_address c e u a w :
  email u = Some (bytes_of [194; 160]) ->
  deliver_email c e (mkAuthCheck true None None None None (Some u)) a (VStr "email") w
    = (mkDelivery false (Some "No registered email"), w).
Proof. unfold deliver_email, requesterEmail. simpl. by intros ->. Qed.



End Channels.

Section Dispatch.

Implicit Types (k : disk) (w : world).



Lemma processCustomJson_foreign c e op height txid w :
  id op <> "hive_account_faucet" -> processCustomJson c e op height txid w = w.
Proof.
  intros Hid. unfold processCustomJson, processCustomJson_try.
  apply String.eqb_neq in Hid. by rewrite Hid.
Qed.

Lemma process_operations_foreign c answers height txid ops : forall i w,
  Forall foreign ops -> process_operations c answers height txid i ops w = w.
Proof.
  induction ops as [| o ops IH]; intros i w Hall; [done |].
  apply Forall_cons in Hall as [Ho Hall]. destruct o as [payload | kind]; simpl.
  - rewrite processCustomJson_foreign by done. by apply IH.
  - by apply IH.
Qed.

(** X23. A block in which every transaction has its operations and none of
    them is a [custom_json] with the faucet's id is processed without a
    throw and without any change to the world. *)
Theorem processBlock_ignores_foreign_operations c answers b height w :
  (forall txs, transactions b = Some txs ->
     Forall (fun tx => exists ops, operations tx = Some ops /\ Forall foreign ops) txs) ->
  processBlock c answers b height w = (Ok (), w).
Proof.
  intros Hall. unfold processBlock.
  destruct (transactions b) as [txs |]; [| done].
  specialize (Hall txs eq_refl). destruct txs as [| tx0 txs0]; [done |].
  set (txs := tx0 :: txs0) in *. clearbody txs. clear tx0 txs0.
  revert w. induction Hall as [| tx txs (ops & Hops & Hforeign) _ IH]; intros w; simpl.
  - done.
  - rewrite Hops. rewrite process_operations_foreign by done. apply IH.
Qed.

(** X23 at a sample input. *)
Lemma processBlock_ignores_foreign_operations_witness :
  processBlock sample_config (fun _ _ => env_all_fine) block_foreign 101 sample_world
    = (Ok (), sample_world).
Proof.
  apply (processBlock_ignores_foreign_operations sample_config (fun _ _ => env_all_fine)
           block_foreign 101 sample_world).
  intros txs [= <-]. repeat constructor; eexists; (split; [reflexivity |]);
    repeat constructor. discriminate.
Defined.

End Dispatch.

Section Creation.

(** X24. [createHiveAccount] succeeds exactly when the lookup of the name
    finds no account, the creator's key parses and the broadcast is accepted,
    and then carries the transaction id. When the name is taken, the lookup
    fails or the key does not parse, nothing is broadcast; otherwise the
    creation is broadcast, whether it is accepted or not. *)
Theorem createHiveAccount_succeeds_iff e name ks creator w :
  (c_success (fst (createHiveAccount e name ks creator w)) = true <->
     getAccounts_new e = Ok 0%nat /\ fromString_ok e = true /\
     exists txid, sendOperations e = Ok txid /\
       c_transactionId (fst (createHiveAccount e name ks creator w)) = Some txid) /\
  (getAccounts_new e <> Ok 0%nat \/ fromString_ok e = false ->
     snd (createHiveAccount e name ks creator w) = w) /\
  (getAccounts_new e = Ok 0%nat -> fromString_ok e = true ->
     snd (createHiveAccount e name ks creator w)
       = emit (SendOperations creator name (ownerPublic ks) (activePublic ks)
                              (postingPublic ks) (memoPublic ks)) w).
Proof.
  unfold createHiveAccount, createHiveAccount_try, checkUsernameAvailability.
  destruct (getAccounts_new e) as [[| n] | msg]; simpl.
  2, 3: split; [split; [done | by intros [? _]] |]; split; [done | done].
  destruct (fromString_ok e); simpl.
  2: { split; [split; [done | by intros (_ & ? & _)] |]. split; [done | done]. }
  destruct (sendOperations e) as [txid | msg]; simpl.
  - split; [split; [eauto | done] |]. split; [| done]. by intros [? | ?].
  - split; [split; [done | by intros (_ & _ & ? & ? & _)] |]. split; [| done].
    by intros [? | ?].
Qed.

End Creation.

Section KeyMaterial.

Implicit Types (bytes : list Z) (i j n : nat).

Lemma string_length_append (s t : string) :
  String.length (s +:+ t) = (String.length s + String.length t)%nat.
Proof. induction s as [| a s IH]; [done |]. simpl. rewrite <- IH. done. Qed.

(** Appending one character per element of a list. *)
Lemma fold_append (f : nat -> string) (l : list nat) : forall acc,
  (forall i, i ∈ l -> String.length (f i) = 1%nat) ->
  String.length (fold_left (fun password i => password +:+ f i) l acc)
    = (String.length acc + length l)%nat /\
  (forall n, (n < String.length acc)%nat ->
     String.get n (fold_left (fun password i => password +:+ f i) l acc) = String.get n acc) /\
  (forall j i, l !! j = Some i ->
     String.get (String.length acc + j) (fold_left (fun password i => password +:+ f i) l acc)
       = String.get 0 (f i)).
Proof.
  induction l as [| i0 l IH]; intros acc Hone; simpl.
  - split; [lia |]. split; [done |]. intros j i Hj. by rewrite lookup_nil in Hj.
  - assert (String.length (f i0) = 1%nat) as H0 by (apply Hone, list_elem_of_here).
    destruct (IH (acc +:+ f i0)) as (Hlen & Hpre & Hget).
    { intros i Hi. apply Hone. by apply list_elem_of_further. }
    rewrite string_length_append, H0 in Hlen, Hpre, Hget.
    split; [lia |]. split.
    + intros n Hn. rewrite Hpre by lia. symmetry. by apply String.append_correct1.
    + intros [| j] i Hj; simpl in Hj.
      * injection Hj as <-. rewrite Hpre by lia.
        rewrite Nat.add_0_r.
        pose proof (String.append_correct2 acc (f i0) 0) as H. simpl in H. by rewrite <- H.
      * replace (String.length acc + S j)%nat with (String.length acc + 1 + j)%nat by lia.
        by apply Hget.
Qed.

Lemma char_at_base58 n :
  (n < 58)%nat ->
  String.length (char_at base58Chars n) = 1%nat /\
  String.get 0 (char_at base58Chars n) = String.get n base58Chars /\
  is_Some (String.get n base58Chars).
Proof.
  intros Hn. do 58 (destruct n as [| n]; [vm_compute; eauto |]). lia.
Qed.

Lemma randomIndex_bound bytes i :
  Forall (fun b => 0 <= b < 256) bytes -> (randomIndex bytes i < 58)%nat.
Proof.
  intros Hall. unfold randomIndex.
  assert (0 <= default 0 (bytes !! (i mod length bytes)%nat)) as Hb.
  { destruct (bytes !! _) as [b |] eqn:Hb; simpl; [| lia].
    apply list_elem_of_lookup_2 in Hb. rewrite Forall_forall in Hall.
    specialize (Hall b Hb). lia. }
  change (Z.of_nat (String.length base58Chars)) with 58.
  pose proof (Z.rem_bound_pos _ 58 Hb ltac:(lia)). lia.
Qed.

Lemma generateMasterPassword_fold bytes :
  generateMasterPassword bytes
    = fold_left (fun password i => password +:+ char_at base58Chars (randomIndex bytes i))
                (seq 0 50) "P5".
Proof. reflexivity. Qed.

(** X25. On the 32 bytes of [crypto.randomBytes(32)] the master password has
    52 characters: 'P5', then 50 characters of the base58 alphabet, the
    [i]-th being the symbol at index [bytes[i mod 32] mod 58]. *)
Theorem generateMasterPassword_shape bytes :
  random_buffer bytes ->
  String.length (generateMasterPassword bytes) = 52%nat /\
  String.get 0 (generateMasterPassword bytes) = String.get 0 "P5" /\
  String.get 1 (generateMasterPassword bytes) = String.get 1 "P5" /\
  (forall i, (i < 50)%nat ->
     String.get (2 + i) (generateMasterPassword bytes)
       = String.get (randomIndex bytes i) base58Chars /\
     is_Some (String.get (randomIndex bytes i) base58Chars)).
Proof.
  intros [Hlen Hall]. rewrite generateMasterPassword_fold.
  destruct (fold_append (fun i => char_at base58Chars (randomIndex bytes i)) (seq 0 50) "P5")
    as (Hl & Hpre & Hget).
  { intros i _. apply char_at_base58, randomIndex_bound, Hall. }
  split; [by rewrite Hl |]. split; [by apply Hpre; simpl; lia |].
  split; [by apply Hpre; simpl; lia |].
  intros i Hi. destruct (char_at_base58 (randomIndex bytes i)) as (_ & Hc & Hsome).
  { apply randomIndex_bound, Hall. }
  split; [| done]. rewrite <- Hc. apply (Hget i i). by apply lookup_seq.
Qed.

(** X25 at a sample input. *)
Lemma generateMasterPassword_shape_witness :
  String.length (generateMasterPassword sample_bytes) = 52%nat /\
  String.get 0 (generateMasterPassword sample_bytes) = String.get 0 "P5" /\
  String.get 1 (generateMasterPassword sample_bytes) = String.get 1 "P5" /\
  (forall i, (i < 50)%nat ->
     String.get (2 + i) (generateMasterPassword sample_bytes)
       = String.get (randomIndex sample_bytes i) base58Chars /\
     is_Some (String.get (randomIndex sample_bytes i) base58Chars)).
Proof.
  apply (generateMasterPassword_shape sample_bytes).
  split; [reflexivity |]. vm_compute. repeat constructor; discriminate.
Defined.

(** X26. The last 18 characters of the master password repeat the first 18
    that follow 'P5': the 50 characters are drawn from 32 bytes by index
    modulo 32. *)
Theorem generateMasterPassword_repeats bytes i :
  random_buffer bytes ->
  (i < 18)%nat ->
  String.get (2 + (i + 32)) (generateMasterPassword bytes)
    = String.get (2 + i) (generateMasterPassword bytes).
Proof.
  intros [Hlen Hall] Hi. rewrite generateMasterPassword_fold.
  destruct (fold_append (fun i => char_at base58Chars (randomIndex bytes i)) (seq 0 50) "P5")
    as (_ & _ & Hget).
  { intros j _. apply char_at_base58, randomIndex_bound, Hall. }
  change (2 + (i + 32))%nat with (String.length "P5" + (i + 32))%nat.
  change (2 + i)%nat with (String.length "P5" + i)%nat.
  rewrite (Hget (i + 32)%nat (i + 32)%nat), (Hget i i); try (apply lookup_seq; lia).
  unfold randomIndex. rewrite Hlen.
  replace ((i + 32) mod 32)%nat with (i mod 32)%nat; [done |].
  rewrite Nat.Div0.add_mod. simpl (32 mod 32)%nat.
  rewrite Nat.add_0_r. by rewrite Nat.Div0.mod_mod.
Qed.

(** X26 at a sample input. *)
Lemma generateMasterPassword_repeats_witness :
  String.get (2 + (5 + 32)) (generateMasterPassword sample_bytes)
    = String.get (2 + 5) (generateMasterPassword sample_bytes).
Proof.
  apply (generateMasterPassword_repeats sample_bytes 5); [| lia].
  split; [reflexivity |]. vm_compute. repeat constructor; discriminate.
Defined.

End KeyMaterial.

Section Producers.
Import Frontend.

(** X27. The custom JSON that the form of [app.js] broadcasts is accepted by
    [validateRequest] exactly when the requested name and the delivery
    method are not empty, which its guards see to; the request read from it
    carries that name and that method. *)
Theorem customJson_passes_validation currentUser requestedUsername deliveryMethod mail note
    timestamp height txid who :
  (accepted (customJson currentUser requestedUsername deliveryMethod mail note timestamp) = true
     <-> is_set requestedUsername = true /\ is_set deliveryMethod = true) /\
  request_of (customJson currentUser requestedUsername deliveryMethod mail note timestamp)
             height txid who
    = Ok (mkRequest (of_form requestedUsername) (of_form deliveryMethod) height txid who).
Proof.
  split; [| reflexivity].
  unfold accepted, validateRequest, customJson. vm_compute.
  destruct requestedUsername as [[| a s] |], deliveryMethod as [[| b t] |];
    split; try done; intros [? ?]; done.
Qed.

(** X28. The JSON that [KeychainManager.createAccountRequestJson] builds names
    the application 'hive-account-faucet', with hyphens: whatever the form
    values, [validateRequest] rejects it and [processCustomJson] leaves the
    world as it was. *)
Theorem createAccountRequestJson_fails_validation requestedUsername deliveryMethod note
    timestamp requestId c e op height txid w :
  accepted (createAccountRequestJson requestedUsername deliveryMethod note timestamp requestId)
    = false /\
  (json op = Some (createAccountRequestJson requestedUsername deliveryMethod note
                     timestamp requestId) ->
   processCustomJson c e op height txid w = w).
Proof.
  assert (accepted (createAccountRequestJson requestedUsername deliveryMethod note
                      timestamp requestId) = false) as Hrej by reflexivity.
  split; [done |]. intros Hjson.
  unfold processCustomJson, processCustomJson_try. rewrite Hjson.
  destruct (negb _); [done |].
  unfold accepted in Hrej.
  destruct (validateRequest _) as [v | msg]; simpl; [| done]. by rewrite Hrej.
Qed.

End Producers.

Section Start.

Implicit Types (w : world) (s : service).

Lemma deliver_email_log c e ac a method w :
  exists l, effects (snd (deliver_email c e ac a method w)) = (effects w ++ l)%list.
Proof.
  unfold deliver_email, sendAccountCredentials.
  destruct (_ || _); [| exists []; by rewrite app_nil_r].
  destruct (requesterEmail ac); [| exists []; by rewrite app_nil_r].
  destruct (nonempty _); [| exists []; by rewrite app_nil_r].
  destruct (isConfigured c); [| exists []; by rewrite app_nil_r].
  destruct (sendMail e); by eexists [_].
Qed.

Lemma deliver_memo_log c e rq a method w :
  exists l, effects (snd (deliver_memo c e rq a method w)) = (effects w ++ l)%list.
Proof.
  destruct (deliver_memo_effect c e rq a method w) as [-> | (memo & -> & _)].
  - exists []. by rewrite app_nil_r.
  - by eexists [_].
Qed.

Lemma processAccountRequest_log c e rq w :
  exists l, effects (processAccountRequest c e rq w) = (effects w ++ l)%list.
Proof.
  unfold processAccountRequest.
  destruct (negb (authorized _)); [exists []; by rewrite app_nil_r |].
  match goal with |- context [createHiveAccount ?e ?n ?ks ?cr ?w] =>
    destruct (createHiveAccount_effect e n ks cr w) as [[_ H] | H];
    destruct (createHiveAccount e n ks cr w) as [r w1] end; simpl in H; subst w1.
  - destruct (negb (c_success r)); [exists []; by rewrite app_nil_r |].
    unfold deliver_and_settle.
    match goal with |- context [deliver_email ?c ?e ?ac ?a ?m ?x] =>
      pose proof (deliver_email_log c e ac a m x) as [l1 H1];
      destruct (deliver_email c e ac a m x) as [er w3] end.
    match goal with |- context [deliver_memo ?c ?e ?rq ?a ?m ?x] =>
      pose proof (deliver_memo_log c e rq a m x) as [l2 H2];
      destruct (deliver_memo c e rq a m x) as [mr w4] end.
    simpl in *. exists (l1 ++ l2)%list.
    destruct (overallSuccess _ _ _); simpl; rewrite H2, H1, app_assoc; done.
  - destruct (negb (c_success r)); [by eexists [_] |].
    unfold deliver_and_settle.
    match goal with |- context [deliver_email ?c ?e ?ac ?a ?m ?x] =>
      pose proof (deliver_email_log c e ac a m x) as [l1 H1];
      destruct (deliver_email c e ac a m x) as [er w3] end.
    match goal with |- context [deliver_memo ?c ?e ?rq ?a ?m ?x] =>
      pose proof (deliver_memo_log c e rq a m x) as [l2 H2];
      destruct (deliver_memo c e rq a m x) as [mr w4] end.
    simpl in *. eexists (_ :: l1 ++ l2)%list.
    destruct (overallSuccess _ _ _); simpl; rewrite H2, H1; simpl;
      rewrite <- !app_assoc; done.
Qed.

Lemma processCustomJson_log c e op height txid w :
  exists l, effects (processCustomJson c e op height txid w) = (effects w ++ l)%list.
Proof.
  unfold processCustomJson, processCustomJson_try.
  destruct (negb _); [exists []; by rewrite app_nil_r |].
  destruct (json op) as [d |]; [| exists []; by rewrite app_nil_r].
  destruct (validateRequest d) as [v | msg]; simpl; [| exists []; by rewrite app_nil_r].
  destruct (truthy v); [| exists []; by rewrite app_nil_r].
  destruct (request_of _ _ _ _) as [rq | msg]; simpl; [| exists []; by rewrite app_nil_r].
  apply processAccountRequest_log.
Qed.

Lemma process_operations_log c answers height txid ops : forall i w,
  exists l, effects (process_operations c answers height txid i ops w) = (effects w ++ l)%list.
Proof.
  induction ops as [| [payload | kind] ops IH]; intros i w; simpl.
  - exists []. by rewrite app_nil_r.
  - destruct (processCustomJson_log c (answers i) payload height txid w) as [l1 H1].
    destruct (IH (S i) (processCustomJson c (answers i) payload height txid w)) as [l2 H2].
    exists (l1 ++ l2)%list. by rewrite H2, H1, app_assoc.
  - apply IH.
Qed.

Lemma process_transactions_log c answers height txs : forall w,
  exists l, effects (snd (process_transactions c answers height txs w))
            = (effects w ++ l)%list.
Proof.
  induction txs as [| tx txs IH]; intros w; simpl.
  - exists []. by rewrite app_nil_r.
  - destruct (operations tx) as [ops |]; [| exists []; by rewrite app_nil_r].
    destruct (process_operations_log c (answers (transaction_id tx)) height
                (transaction_id tx) ops 0%nat w) as [l1 H1].
    destruct (IH (process_operations c (answers (transaction_id tx)) height
                    (transaction_id tx) 0 ops w)) as [l2 H2].
    exists (l1 ++ l2)%list. by rewrite H2, H1, app_assoc.
Qed.

Lemma processBlock_log c answers b height w :
  exists l, effects (snd (processBlock c answers b height w)) = (effects w ++ l)%list.
Proof.
  unfold processBlock. destruct (transactions b) as [[| tx txs] |];
    try (exists []; by rewrite app_nil_r).
  apply process_transactions_log.
Qed.

Lemma await_block_log t s :
  effects (wld (await_block t s))
    = (effects (wld s) ++ [GetBlock (lastProcessedBlock (mon s) + 1)])%list.
Proof.
  unfold await_block. destruct (stop_requested t); [| done]. unfold stop.
  by destruct (saveLastBlock _ _ _ _).
Qed.

(** A pass begins with the fetch of the block after the cursor. *)
Lemma iteration_log c t s :
  exists l, effects (wld (iteration c t s))
            = (effects (wld s) ++ GetBlock (lastProcessedBlock (mon s) + 1) :: l)%list.
Proof.
  unfold iteration, streamBlocks_try.
  pose proof (await_block_log t s) as Hawait.
  set (s2 := await_block t s) in *. clearbody s2.
  destruct (getBlock t _) as [[b |] | msg]; simpl.
  - destruct (processBlock_log c (answers t) b (lastProcessedBlock (mon s) + 1) (wld s2))
      as [l Hl].
    destruct (processBlock _ _ _ _ _) as [[[] | msg] w']; simpl in *.
    + destruct (Z.rem _ _ =? 0).
      * destruct (saveLastBlock _ _ _ _). simpl. exists l.
        by rewrite Hl, Hawait, <- app_assoc.
      * simpl. exists l. by rewrite Hl, Hawait, <- app_assoc.
    + exists (l ++ [Sleep 5000])%list. rewrite Hl, Hawait, <- !app_assoc. done.
  - exists [Sleep 3000]. by rewrite Hawait, <- app_assoc.
  - exists [Sleep 5000]. by rewrite Hawait, <- app_assoc.
Qed.

Lemma streamBlocks_log c ts : forall s,
  exists l, effects (wld (streamBlocks c ts s)) = (effects (wld s) ++ l)%list.
Proof.
  induction ts as [| t ts IH]; intros s; simpl.
  - exists []. by rewrite app_nil_r.
  - destruct (isRunning (mon s)); [| exists []; by rewrite app_nil_r].
    destruct (iteration_log c t s) as [l1 H1].
    destruct (IH (iteration c t s)) as [l2 H2].
    eexists. rewrite H2, H1, <- app_assoc. reflexivity.
Qed.

(** X29. [start()] on a running monitor does nothing. On a stopped monitor
    with cursor 0 it asks for the head block: if that fails nothing else
    happens and the monitor stays stopped, else the first block fetched is
    the head block itself. With any other cursor the first block fetched is
    the one after the cursor. *)
Theorem start_begins_at_the_head c head ts s :
  (isRunning (mon s) = true -> start c head ts s = s) /\
  (isRunning (mon s) = false -> lastProcessedBlock (mon s) = 0 ->
     (forall msg, head = Throw msg ->
        wld (start c head ts s) = wld s /\ isRunning (mon (start c head ts s)) = false) /\
     (forall head_block_number t ts', head = Ok head_block_number -> ts = t :: ts' ->
        exists l, effects (wld (start c head ts s))
                  = (effects (wld s) ++ GetBlock head_block_number :: l)%list)) /\
  (isRunning (mon s) = false -> lastProcessedBlock (mon s) <> 0 ->
     forall t ts', ts = t :: ts' ->
       exists l, effects (wld (start c head ts s))
                 = (effects (wld s) ++ GetBlock (lastProcessedBlock (mon s) + 1) :: l)%list).
Proof.
  unfold start. split; [by intros -> |]. split.
  - intros -> Hzero. rewrite Hzero. simpl. split.
    + by intros msg ->.
    + intros h t ts' -> ->. simpl.
      destruct (iteration_log c t
                  (mkService (mkMonitor true (h - 1) (_lastSavedBlock (mon s))) (wld s)))
        as [l1 H1].
      destruct (streamBlocks_log c ts'
                  (iteration c t (mkService (mkMonitor true (h - 1) (_lastSavedBlock (mon s)))
                                            (wld s)))) as [l2 H2].
      simpl in H1. replace (h - 1 + 1) with h in H1 by lia.
      eexists. rewrite H2, H1, <- app_assoc. reflexivity.
  - intros -> Hcur t ts' ->. apply Z.eqb_neq in Hcur. rewrite Hcur. simpl.
    destruct (iteration_log c t
                (mkService (mkMonitor true (lastProcessedBlock (mon s))
                                      (_lastSavedBlock (mon s))) (wld s))) as [l1 H1].
    destruct (streamBlocks_log c ts'
                (iteration c t (mkService (mkMonitor true (lastProcessedBlock (mon s))
                                                     (_lastSavedBlock (mon s))) (wld s))))
      as [l2 H2].
    simpl in H1. eexists. rewrite H2, H1, <- app_assoc. reflexivity.
Qed.

(** X29 at a sample input. *)
Lemma start_begins_at_the_head_witness :
  (exists l, effects (wld (start sample_config (Ok 500) [tick_not_yet] service_new))
             = (effects (wld service_new) ++ GetBlock 500 :: l)%list) /\
  (exists l, effects (wld (start sample_config (Ok 500) [tick_not_yet] service_at_119))
             = (effects (wld service_at_119) ++ GetBlock 120 :: l)%list).
Proof.
  split.
  - destruct (start_begins_at_the_head sample_config (Ok 500) [tick_not_yet] service_new)
      as (_ & H & _).
    destruct H as [_ H]; [reflexivity | reflexivity |].
    apply (H 500 tick_not_yet []); reflexivity.
  - destruct (start_begins_at_the_head sample_config (Ok 500) [tick_not_yet] service_at_119)
      as (_ & _ & H).
    apply (H eq_refl ltac:(vm_compute; discriminate) tick_not_yet []). reflexivity.
Defined.

End Start.

Section CrashSafety.

(** X30. If the process dies anywhere in [saveLastBlock]'s write to the
    temporary file and rename, a restart reads from [last_block.json] what
    it would have read before the call, or else the cursor being saved; the
    recovery store and the quota ledger are as they were. *)
Theorem saveLastBlock_interrupted_resumes stamp m m0 k k' :
  k' ∈ crash_states (saveLastBlock_calls (lastProcessedBlock m) stamp) k ->
  (loadLastBlock m0 k' = loadLastBlock m0 k \/
   lastProcessedBlock (loadLastBlock m0 k') = lastProcessedBlock m) /\
  recoveryFile k' = recoveryFile k /\ dataFile k' = dataFile k.
Proof.
  intros Hin. split.
  - apply saveLastBlock_crash_safe in Hin as [H | H]; unfold loadLastBlock; rewrite H.
    + by left.
    + by right.
  - revert Hin. unfold saveLastBlock_calls. simpl.
    unfold sys_exec, sys_torn, writable. simpl.
    repeat match goal with
           | |- context [bool_decide ?P] => destruct (bool_decide P); simpl
           end;
      rewrite !elem_of_cons; intros H;
      repeat (destruct H as [-> | H]); auto; by apply elem_of_nil in H.
Qed.

(** X30 at a sample input. *)
Lemma saveLastBlock_interrupted_resumes_witness :
  (loadLastBlock fresh_monitor
     (sys_torn (WriteLastBlockTmp (mkLastBlockDoc 100 noon)) sample_disk)
     = loadLastBlock fresh_monitor sample_disk \/
   lastProcessedBlock
     (loadLastBlock fresh_monitor
        (sys_torn (WriteLastBlockTmp (mkLastBlockDoc 100 noon)) sample_disk)) = 100) /\
  recoveryFile (sys_torn (WriteLastBlockTmp (mkLastBlockDoc 100 noon)) sample_disk)
    = recoveryFile sample_disk /\
  dataFile (sys_torn (WriteLastBlockTmp (mkLastBlockDoc 100 noon)) sample_disk)
    = dataFile sample_disk.
Proof.
  apply (saveLastBlock_interrupted_resumes noon (mon sample_service) fresh_monitor sample_disk
           (sys_torn (WriteLastBlockTmp (mkLastBlockDoc 100 noon)) sample_disk)).
  simpl. apply list_elem_of_further, list_elem_of_here.
Defined.

End CrashSafety.

